(** * Poly: the polynomial parent class of Effective Quadratures

    A shallow embedding of [equadratures/poly.py].  The [Poly] object is a
    record of its attributes; a method is a function from that record to an
    outcome that carries the record as the method left it, whether it
    returned or raised.  The collaborators that live in other files of the
    package (Parameter, Basis, Quadrature, Solver, Subsampling) enter through
    the [Externals] interface, and floating-point arithmetic through the
    [Scalar] interface: no law of arithmetic is assumed unless a theorem
    names it. *)

From Stdlib Require Import String Ascii DecimalString.
From Stdlib Require Import List ZArith QArith Qround Bool Lia Sorted Permutation.
Import ListNotations.
Close Scope Q_scope.

Set Implicit Arguments.

(** ** Floating-point scalars *)

(** The operations the source applies to array entries.  [fcompare] is the
    order [np.unique] sorts by, [fround] is [int(np.round(x))] of a number
    [x]; of not-a-number Python's [int] raises, as [int_round] below
    does. *)
Class Scalar := {
  flt : Type;
  f0 : flt;
  f1 : flt;
  fadd : flt -> flt -> flt;
  fmul : flt -> flt -> flt;
  fdiv : flt -> flt -> flt;
  fsqrt : flt -> flt;
  fisnan : flt -> bool;
  fcompare : flt -> flt -> comparison;
  f_of_Z : Z -> flt;
  fround : flt -> Z
}.

(** An order usable by [np.unique]: the comparison decides equality and is
    a strict total order.  It holds of [Z.compare]; of a floating-point
    comparison it holds in the absence of not-a-number entries. *)
Class CmpLaws {A : Type} (cmp : A -> A -> comparison) : Prop := {
  cmp_eq : forall x y, cmp x y = Eq -> x = y;
  cmp_refl : forall x, cmp x x = Eq;
  cmp_antisym : forall x y, cmp x y = CompOpp (cmp y x);
  cmp_trans : forall x y z, cmp x y = Lt -> cmp y z = Lt -> cmp x z = Lt
}.

(** Exact division, as of the rationals: what "the weights divided by their
    sum add up to one" rests on.  [regular] picks the divisors it holds for,
    the numbers other than zero. *)
Class ExactDivision {F : Scalar} (regular : flt -> Prop) : Prop := {
  div_add : forall a b s, fdiv (fadd a b) s = fadd (fdiv a s) (fdiv b s);
  div_zero : forall s, regular s -> fdiv f0 s = f0;
  div_self : forall s, regular s -> fdiv s s = f1
}.

(** ** Python exceptions and results *)

Inductive exn : Type :=
| AssertionError
  (** What line 348 of [set_model] raises: the statement is
      [raise(ValueError, 'model values should be a column vector.')], which
      raises a tuple and not a [ValueError] carrying the message.  Python 3
      refuses the tuple with a TypeError, "exceptions must derive from
      BaseException"; Python 2 raised the tuple's first item, a ValueError
      without the message. *)
| RaisedTuple
| ValueError
| IndexError
| AttributeError.

Inductive result (A : Type) : Type :=
| Ok (a : A)
| Raise (e : exn).
Arguments Ok {A} a.
Arguments Raise {A} e.

Definition rbind {A B} (r : result A) (k : A -> result B) : result B :=
  match r with
  | Ok a => k a
  | Raise e => Raise e
  end.

Declare Scope result_scope.
Delimit Scope result_scope with res.
Notation "x <- c ;; k" := (rbind c (fun x => k))
  (at level 61, c at next level, right associativity) : result_scope.
Notation "' pat <- c ;; k" := (rbind c (fun x => match x with pat => k end))
  (at level 61, pat pattern, c at next level, right associativity) : result_scope.

Fixpoint rmap {A B} (f : A -> result B) (l : list A) : result (list B) :=
  match l with
  | [] => Ok []
  | x :: l' => (y <- f x ;; ys <- rmap f l' ;; Ok (y :: ys))%res
  end.

Definition of_option {A} (e : exn) (o : option A) : result A :=
  match o with
  | Some a => Ok a
  | None => Raise e
  end.

(** ** NumPy arrays *)

(** A two-dimensional array: its rows, and the number of columns kept apart
    so that an array without rows still has a shape.  One-dimensional arrays
    are lists. *)
Record ndarray (A : Type) : Type := mk_nd {
  shape1 : nat;
  data : list (list A)
}.

Definition shape0 {A} (a : ndarray A) : nat := length (data a).

(** Every row has [shape1] entries. *)
Definition well_shaped {A} (a : ndarray A) : Prop :=
  Forall (fun r => length r = shape1 a) (data a).

(** An array of [r] rows of [c] entries each. *)
Definition has_shape {A} (r c : nat) (a : ndarray A) : Prop :=
  shape0 a = r /\ shape1 a = c /\ well_shaped a.

Module np.

(** [l[i]] with Python's negative indices. *)
Definition item {A} (l : list A) (i : Z) : result A :=
  let n := Z.of_nat (length l) in
  if (i <? 0)%Z
  then (if (n + i <? 0)%Z then Raise IndexError
        else of_option IndexError (nth_error l (Z.to_nat (n + i))))
  else of_option IndexError (nth_error l (Z.to_nat i)).

(** [l[idx]] for an index list [idx]. *)
Definition take {A} (l : list A) (idx : list Z) : result (list A) :=
  rmap (item l) idx.

(** [a[idx]] and [a[idx,:]]: the rows at [idx]. *)
Definition take_rows {A} (a : ndarray A) (idx : list Z) : result (ndarray A) :=
  (rows <- take (data a) idx ;; Ok (mk_nd (shape1 a) rows))%res.

(** [a[:,j]] *)
Definition column {A} (a : ndarray A) (j : nat) : result (list A) :=
  if j <? shape1 a
  then rmap (fun r => of_option IndexError (nth_error r j)) (data a)
  else Raise IndexError.

(** [a.T] *)
Definition transpose {A} (a : ndarray A) : ndarray A :=
  mk_nd (shape0 a)
        (map (fun j => flat_map (fun r => match nth_error r j with
                                          | Some x => [x]
                                          | None => []
                                          end) (data a))
             (seq 0 (shape1 a))).

(** [np.ones((r, c))] and [np.zeros((r, c))] *)
Definition full {A} (x : A) (r c : nat) : ndarray A :=
  mk_nd c (repeat (repeat x c) r).

(** [np.vstack([a, b])] *)
Definition vstack {A} (a b : ndarray A) : result (ndarray A) :=
  if shape1 a =? shape1 b
  then Ok (mk_nd (shape1 a) (data a ++ data b))
  else Raise ValueError.

(** The rows of [a] whose position is not in [idx]. *)
Definition without_rows {A} (a : ndarray A) (idx : list nat) : ndarray A :=
  mk_nd (shape1 a)
        (map snd (filter (fun p => negb (existsb (Nat.eqb (fst p)) idx))
                         (combine (seq 0 (shape0 a)) (data a)))).

(** [np.delete(a, idx, axis=0)]: an index past the last row is an
    IndexError. *)
Definition delete_rows {A} (a : ndarray A) (idx : list nat) : result (ndarray A) :=
  if forallb (fun i => i <? shape0 a) idx
  then Ok (without_rows a idx)
  else Raise IndexError.

(** [np.delete(l, i)] on a one-dimensional array. *)
Definition delete_item {A} (l : list A) (i : nat) : result (list A) :=
  if i <? length l then Ok (firstn i l ++ skipn (S i) l) else Raise IndexError.

(** [a.reshape(n, 1)]: the entries in row-major order, one to a row; a
    ValueError when there are not [n] of them. *)
Definition reshape_column {A} (a : ndarray A) (n : nat) : result (ndarray A) :=
  let flat := concat (data a) in
  if length flat =? n then Ok (mk_nd 1 (map (fun x => [x]) flat))
  else Raise ValueError.

(** [np.max] of the entries, a ValueError on an empty array. *)
Definition max (l : list Z) : result Z :=
  match l with
  | [] => Raise ValueError
  | x :: l' => Ok (fold_left Z.max l' x)
  end.

Section Floats.
Context {F : Scalar}.

(** [np.sum] *)
Definition sum (l : list flt) : flt := fold_left fadd l f0.

(** [np.diag(v)] *)
Definition diag (v : list flt) : ndarray flt :=
  let n := length v in
  mk_nd n (map (fun p => map (fun j => if j =? fst p then snd p else f0) (seq 0 n))
               (combine (seq 0 n) v)).

Definition inner (u v : list flt) : flt :=
  sum (map (fun p => fmul (fst p) (snd p)) (combine u v)).

(** [np.dot(a, b)] and the product of [np.mat] matrices: a ValueError when
    the inner dimensions differ. *)
Definition dot (a b : ndarray flt) : result (ndarray flt) :=
  if shape1 a =? shape0 b
  then let cols := data (transpose b) in
       Ok (mk_nd (shape1 b) (map (fun r => map (inner r) cols) (data a)))
  else Raise ValueError.

(** [a * x] for a scalar [x] *)
Definition scale (a : ndarray flt) (x : flt) : ndarray flt :=
  mk_nd (shape1 a) (map (map (fun y => fmul y x)) (data a)).

(** [np.argwhere(np.isnan(y))[:,0]]: the row of every not-a-number entry,
    in row-major order. *)
Definition argwhere_isnan_rows (y : ndarray flt) : list nat :=
  flat_map (fun p => map (fun _ => fst p) (filter fisnan (snd p)))
           (combine (seq 0 (shape0 y)) (data y)).

(** A row holds a not-a-number. *)
Definition has_nan (row : list flt) : bool := existsb fisnan row.

(** One row of an elementwise [op] into a target row [a], with a length-one
    [b] broadcast. *)
Definition zip_row (op : flt -> flt -> flt) (a b : list flt) : result (list flt) :=
  if length a =? length b then Ok (map (fun p => op (fst p) (snd p)) (combine a b))
  else match b with
       | [x] => Ok (map (fun y => op y x) a)
       | _ => Raise ValueError
       end.

(** [a *= b] on one row. *)
Definition mul_row (a b : list flt) : result (list flt) := zip_row fmul a b.

(** [a *= b] for arrays with the same number of rows. *)
Fixpoint mul_rows (a b : list (list flt)) : result (list (list flt)) :=
  match a, b with
  | [], [] => Ok []
  | r :: a', s :: b' =>
      (t <- mul_row r s ;; ts <- mul_rows a' b' ;; Ok (t :: ts))%res
  | _, _ => Raise ValueError
  end.

End Floats.

(** *** [np.unique(rows, axis=0, return_counts=True)] *)
Section Unique.
Context {A : Type} (cmp : A -> A -> comparison).

(** Rows are ordered lexicographically. *)
Fixpoint row_compare (r s : list A) : comparison :=
  match r, s with
  | [], [] => Eq
  | [], _ :: _ => Lt
  | _ :: _, [] => Gt
  | x :: r', y :: s' =>
      match cmp x y with
      | Eq => row_compare r' s'
      | c => c
      end
  end.

Definition row_eqb (r s : list A) : bool :=
  match row_compare r s with Eq => true | _ => false end.

Fixpoint insert_count (r : list A) (l : list (list A * nat)) : list (list A * nat) :=
  match l with
  | [] => [(r, 1)]
  | (r', c) :: l' =>
      match row_compare r r' with
      | Eq => (r', S c) :: l'
      | Lt => (r, 1) :: l
      | Gt => (r', c) :: insert_count r l'
      end
  end.

(** The distinct rows in increasing order, each with the number of times it
    occurs. *)
Definition unique_counts (rows : list (list A)) : list (list A * nat) :=
  fold_right insert_count [] rows.

Definition unique (a : ndarray A) : ndarray A :=
  mk_nd (shape1 a) (map fst (unique_counts (data a))).

(** The strict order of the rows, and the number of rows of [rows] equal to
    [g]. *)
Definition row_lt (r s : list A) : Prop := row_compare r s = Lt.

Definition occurrences (g : list A) (rows : list (list A)) : nat :=
  length (filter (row_eqb g) rows).

End Unique.

End np.

(** ** The collaborators' data *)

Section Model.
Context {F : Scalar}.

(** What an orthogonal-family evaluator is handed: the whole stack of points
    in the univariate shortcut, one coordinate column otherwise. *)
Inductive points_arg : Type :=
| Stack (a : ndarray flt)
| Column (v : list flt).

(** The three tables an evaluator returns: values, first and second
    derivatives, one row per order. *)
Definition tables : Type := (ndarray flt * ndarray flt * ndarray flt)%type.

Record Param : Type := {
  order : Z;
  _get_orthogonal_polynomial : points_arg -> Z -> tables
}.

Record Basis : Type := {
  basis_type : string;
  orders : list Z;
  elements : ndarray Z
}.

(** Modelled from the spec: the Basis class is not part of this file; the
    spec's data model gives it as a table of multi-indices whose cardinality
    is the number of rows. *)
Definition cardinality (b : Basis) : nat := shape0 (elements b).

Definition with_elements (e : ndarray Z) (b : Basis) : Basis :=
  {| basis_type := basis_type b; orders := orders b; elements := e |}.

(** One tensor sub-grid of a sparse grid. *)
Record Tensor : Type := {
  t_points : ndarray flt;
  t_weights : list flt;
  t_basis : Basis
}.

(** A Quadrature object: [get_points_and_weights()], and for a sparse grid
    the sub-grids [list] with their combination weights [sparse_weights]. *)
Record Quadrature_t : Type := {
  q_points : ndarray flt;
  q_weights : list flt;
  q_list : list Tensor;
  sparse_weights : list flt
}.

Definition get_points_and_weights (q : Quadrature_t) : ndarray flt * list flt :=
  (q_points q, q_weights q).

(** [sampling_args], with the keys and value types of the class docstring;
    [None] is an absent key. *)
Record sampling_args_t : Type := {
  sa_mesh : option string;
  sa_sampling_ratio : option flt;
  sa_subsampling_algorithm : option string;
  sa_sample_points : option (ndarray flt);
  sa_sample_outputs : option (ndarray flt)
}.

Record solver_args_t : Type := {
  noise_level : option (list flt);
  verbose : option bool
}.

(** [self.solver]: called as [solver(A, b)] or [solver(A, b, C, d)]. *)
Definition solver_fn : Type :=
  ndarray flt -> ndarray flt -> option (ndarray flt * ndarray flt) -> ndarray flt.

Definition subsampling_fn : Type := ndarray flt -> Z -> list Z.

(** The snapshot a Statistics object is built from. *)
Record Statistics_t : Type := {
  stat_parameters : list Param;
  stat_basis : Basis;
  stat_coefficients : ndarray flt;
  stat_quad_pts : ndarray flt;
  stat_quad_wts : list flt;
  stat_poly_vandermonde_matrix : ndarray flt;
  stat_max_sobol_order : Z
}.

(** The constructors and methods of the other classes of the package. *)
Class Externals : Type := {
  Solver : option string -> option solver_args_t -> solver_fn;
  Subsampling : option string -> subsampling_fn;
  Quadrature : list Param -> Basis -> option (ndarray flt) -> string -> Quadrature_t;
  Basis_new : string -> list Z -> Basis;
  set_orders : list Z -> Basis -> Basis;
  prune : Z -> Basis -> Basis;
  matrix_rank : ndarray flt -> Z
}.

(** ** Basis evaluation primitives *)

(** A call of a parameter's evaluator: which parameter, which order. *)
Definition call : Type := (nat * Z)%type.

(** A result together with the evaluator calls made on the way. *)
Definition logged (A : Type) : Type := (result A * list call)%type.

Definition lret {A} (a : A) : logged A := (Ok a, []).

Definition lift {A} (r : result A) : logged A := (r, []).

Definition lbind {A B} (m : logged A) (k : A -> logged B) : logged B :=
  match m with
  | (Ok a, l) => let (r, l') := k a in (r, l ++ l')
  | (Raise e, l) => (Raise e, l)
  end.

Declare Scope logged_scope.
Delimit Scope logged_scope with log.
Notation "x <- c ;; k" := (lbind c (fun x => k))
  (at level 61, c at next level, right associativity) : logged_scope.
Notation "' pat <- c ;; k" := (lbind c (fun x => match x with pat => k end))
  (at level 61, pat pattern, c at next level, right associativity) : logged_scope.

Fixpoint lmap {A B} (f : A -> logged B) (l : list A) : logged (list B) :=
  match l with
  | [] => lret []
  | x :: l' => (y <- f x ;; ys <- lmap f l' ;; lret (y :: ys))%log
  end.

Fixpoint lfold {A B} (f : A -> B -> logged A) (l : list B) (a : A) : logged A :=
  match l with
  | [] => lret a
  | x :: l' => (a' <- f a x ;; lfold f l' a')%log
  end.

(** [self.parameters[i]._get_orthogonal_polynomial(x, order)] *)
Definition call_orthogonal_polynomial (ps : list Param) (i : nat)
    (x : points_arg) (order : Z) : logged tables :=
  match nth_error ps i with
  | Some p => (Ok (_get_orthogonal_polynomial p x order), [(i, order)])
  | None => (Raise IndexError, [])
  end.

(** The loop [for i in range(0, dimensions)] that fills [p], [dp] and [d2p]:
    parameter [i] is asked for the largest exponent of column [i] of the
    basis plus [extra]. *)
Definition orthogonal_tables (ps : list Param) (stack_of_points : ndarray flt)
    (basis : ndarray Z) (extra : Z) : logged (list tables) :=
  lmap (fun i =>
          (col <- lift (np.column stack_of_points i) ;;
           bcol <- lift (np.column basis i) ;;
           m <- lift (np.max bcol) ;;
           call_orthogonal_polynomial ps i (Column col) (m + extra)%Z)%log)
       (seq 0 (shape1 basis)).

(** The largest exponent of each column of a table of multi-indices,
    [np.max(basis[:,i])] for every [i]. *)
Definition largest_exponents (basis : ndarray Z) : result (list Z) :=
  rmap (fun i => (bcol <- np.column basis i ;; np.max bcol)%res)
       (seq 0 (shape1 basis)).

(** [acc *= table[basis[:,k]]] *)
Definition times_selected (acc : ndarray flt) (table : ndarray flt)
    (basis : ndarray Z) (k : nat) : result (ndarray flt) :=
  (idx <- np.column basis k ;;
   sel <- np.take (data table) idx ;;
   rows <- np.mul_rows (data acc) sel ;;
   Ok (mk_nd (shape1 acc) rows))%res.

Definition tbl_p (t : tables) : ndarray flt := fst (fst t).
Definition tbl_dp (t : tables) : ndarray flt := snd (fst t).
Definition tbl_d2p (t : tables) : ndarray flt := snd t.

Definition get_poly (parameters : list Param) (self_basis : Basis)
    (stack_of_points : ndarray flt) (custom_multi_index : option (ndarray Z))
    : logged (ndarray flt) :=
  let basis := match custom_multi_index with
               | None => elements self_basis
               | Some c => c
               end in
  let basis_entries := shape0 basis in
  let dimensions := shape1 basis in
  let no_of_points := shape0 stack_of_points in
  if dimensions =? 1 then
    (m <- lift (np.max (concat (data basis))) ;;
     t <- call_orthogonal_polynomial parameters 0 (Stack stack_of_points) m ;;
     lret (tbl_p t))%log
  else
    (p <- orthogonal_tables parameters stack_of_points basis 0 ;;
     lfold (fun polynomial k =>
              match nth_error p k with
              | Some t => lift (times_selected polynomial (tbl_p t) basis k)
              | None => lift (Raise IndexError)
              end)
           (seq 0 dimensions) (np.full f1 basis_entries no_of_points))%log.

(** What [get_poly_grad] and [get_poly_hess] return: the table of the
    evaluator itself in the univariate shortcut, a list of arrays otherwise. *)
Inductive derivative_tables : Type :=
| Univariate (a : ndarray flt)
| PerDirection (l : list (ndarray flt)).

Definition get_poly_grad (parameters : list Param) (self_basis : Basis)
    (stack_of_points : ndarray flt) (dim_index : option (list nat))
    : logged derivative_tables :=
  let basis := elements self_basis in
  let basis_entries := shape0 basis in
  let dimensions := shape1 basis in
  let no_of_points := shape0 stack_of_points in
  if dimensions =? 1 then
    (m <- lift (np.max (concat (data basis))) ;;
     t <- call_orthogonal_polynomial parameters 0 (Stack stack_of_points) m ;;
     lret (Univariate (tbl_dp t)))%log
  else
    (p <- orthogonal_tables parameters stack_of_points basis 0 ;;
     let dim_index := match dim_index with
                      | None => seq 0 dimensions
                      | Some d => d
                      end in
     R <- lmap (fun v =>
                  if negb (existsb (Nat.eqb v) dim_index)
                  then lret (np.full f0 basis_entries no_of_points)
                  else
                    lfold (fun polynomialgradient k =>
                             match nth_error p k with
                             | Some t =>
                                 lift (times_selected polynomialgradient
                                         (if k =? v then tbl_dp t else tbl_p t) basis k)
                             | None => lift (Raise IndexError)
                             end)
                          (seq 0 dimensions) (np.full f1 basis_entries no_of_points))
               (seq 0 dimensions) ;;
     lret (PerDirection R))%log.

(** One row of a Hessian table: the loop over [k] of [get_poly_hess], which
    starts from [temp = np.ones((1, no_of_points))]. *)
Definition hessian_row (p : list tables) (basis_row : list Z) (w v : nat)
    (dimensions no_of_points : nat) : result (list flt) :=
  fold_left
    (fun temp k =>
       (temp <- temp ;;
        t <- of_option IndexError (nth_error p k) ;;
        e <- of_option IndexError (nth_error basis_row k) ;;
        let table := if (k =? w) && (w =? v) then tbl_d2p t
                     else if k =? w then tbl_dp t
                     else if k =? v then tbl_dp t
                     else tbl_p t in
        row <- np.item (data table) e ;;
        np.zip_row (fun x y => fmul y x) temp row)%res)
    (seq 0 dimensions) (Ok (repeat f1 no_of_points)).

Definition get_poly_hess (parameters : list Param) (self_basis : Basis)
    (stack_of_points : ndarray flt) : logged derivative_tables :=
  let basis := elements self_basis in
  let basis_entries := shape0 basis in
  let dimensions := shape1 basis in
  let no_of_points := shape0 stack_of_points in
  if dimensions =? 1 then
    (m <- lift (np.max (concat (data basis))) ;;
     t <- call_orthogonal_polynomial parameters 0 (Stack stack_of_points) m ;;
     lret (Univariate (tbl_d2p t)))%log
  else
    (p <- orthogonal_tables parameters stack_of_points basis 1 ;;
     H <- lift (rmap (fun wv =>
                        (rows <- rmap (fun basis_row =>
                                         hessian_row p basis_row (fst wv) (snd wv)
                                                     dimensions no_of_points)
                                      (data basis) ;;
                         Ok (mk_nd no_of_points rows))%res)
                     (list_prod (seq 0 dimensions) (seq 0 dimensions))) ;;
     lret (PerDirection H))%log.

(** The claim that the Hessian primitive asks every dimension's evaluator
    for one order more than the largest exponent of that dimension. *)
Definition hessian_asks_one_more (ps : list Param) (b : Basis)
    (x : ndarray flt) : Prop :=
  forall i o, In (i, o) (snd (get_poly_hess ps b x)) ->
    exists ms m, largest_exponents (elements b) = Ok ms
                 /\ nth_error ms i = Some m /\ o = (m + 1)%Z.

End Model.

(** ** The Poly object *)

Declare Scope method_scope.

Section Object.
Context {F : Scalar} {X : Externals}.

(** The attributes of a [Poly] instance.  [self_A] is [self.A] and
    [self_orders] is [self.orders].  An attribute of option type that the
    constructor does not initialise ([highest_order], [mesh], [solver] and
    those below them) is [None] until it is first assigned, and reading it
    then is an AttributeError; for the others [None] is Python's [None].
    [stdout] collects what the methods print. *)
Record Poly : Type := {
  parameters : list Param;
  basis : Basis;
  method : option string;
  sampling_args : option sampling_args_t;
  solver_args : option solver_args_t;
  dimensions : nat;
  self_orders : list Z;
  gradient_flag : nat;
  inputs : option (ndarray flt);
  outputs : option (ndarray flt);
  subsampling_algorithm_name : option string;
  sampling_ratio : flt;
  statistics_object : option Statistics_t;
  parameters_order : list Z;
  highest_order : option Z;
  mesh : option string;
  solver : option solver_fn;
  subsampling_algorithm_function : option subsampling_fn;
  quadrature : option Quadrature_t;
  self_A : option (ndarray flt);
  _quadrature_points : option (ndarray flt);
  _quadrature_weights : option (list flt);
  _model_evaluations : option (ndarray flt);
  _gradient_evaluations : option (ndarray flt);
  coefficients : option (ndarray flt);
  stdout : list string
}.

(** Attribute assignment, one function per attribute the methods assign. *)
Definition set_basis (v : Basis) (self : Poly) : Poly :=
  {| parameters := parameters self; basis := v; method := method self;
     sampling_args := sampling_args self; solver_args := solver_args self;
     dimensions := dimensions self; self_orders := self_orders self;
     gradient_flag := gradient_flag self; inputs := inputs self; outputs
     := outputs self; subsampling_algorithm_name :=
     subsampling_algorithm_name self; sampling_ratio := sampling_ratio
     self; statistics_object := statistics_object self; parameters_order
     := parameters_order self; highest_order := highest_order self; mesh
     := mesh self; solver := solver self; subsampling_algorithm_function
     := subsampling_algorithm_function self; quadrature := quadrature
     self; self_A := self_A self; _quadrature_points := _quadrature_points
     self; _quadrature_weights := _quadrature_weights self;
     _model_evaluations := _model_evaluations self; _gradient_evaluations
     := _gradient_evaluations self; coefficients := coefficients self;
     stdout := stdout self |}.

Definition set_method (v : option string) (self : Poly) : Poly :=
  {| parameters := parameters self; basis := basis self; method := v;
     sampling_args := sampling_args self; solver_args := solver_args self;
     dimensions := dimensions self; self_orders := self_orders self;
     gradient_flag := gradient_flag self; inputs := inputs self; outputs
     := outputs self; subsampling_algorithm_name :=
     subsampling_algorithm_name self; sampling_ratio := sampling_ratio
     self; statistics_object := statistics_object self; parameters_order
     := parameters_order self; highest_order := highest_order self; mesh
     := mesh self; solver := solver self; subsampling_algorithm_function
     := subsampling_algorithm_function self; quadrature := quadrature
     self; self_A := self_A self; _quadrature_points := _quadrature_points
     self; _quadrature_weights := _quadrature_weights self;
     _model_evaluations := _model_evaluations self; _gradient_evaluations
     := _gradient_evaluations self; coefficients := coefficients self;
     stdout := stdout self |}.

Definition set_gradient_flag (v : nat) (self : Poly) : Poly :=
  {| parameters := parameters self; basis := basis self; method := method
     self; sampling_args := sampling_args self; solver_args := solver_args
     self; dimensions := dimensions self; self_orders := self_orders self;
     gradient_flag := v; inputs := inputs self; outputs := outputs self;
     subsampling_algorithm_name := subsampling_algorithm_name self;
     sampling_ratio := sampling_ratio self; statistics_object :=
     statistics_object self; parameters_order := parameters_order self;
     highest_order := highest_order self; mesh := mesh self; solver :=
     solver self; subsampling_algorithm_function :=
     subsampling_algorithm_function self; quadrature := quadrature self;
     self_A := self_A self; _quadrature_points := _quadrature_points self;
     _quadrature_weights := _quadrature_weights self; _model_evaluations
     := _model_evaluations self; _gradient_evaluations :=
     _gradient_evaluations self; coefficients := coefficients self; stdout
     := stdout self |}.

Definition set_inputs (v : option (ndarray flt)) (self : Poly) : Poly :=
  {| parameters := parameters self; basis := basis self; method := method
     self; sampling_args := sampling_args self; solver_args := solver_args
     self; dimensions := dimensions self; self_orders := self_orders self;
     gradient_flag := gradient_flag self; inputs := v; outputs := outputs
     self; subsampling_algorithm_name := subsampling_algorithm_name self;
     sampling_ratio := sampling_ratio self; statistics_object :=
     statistics_object self; parameters_order := parameters_order self;
     highest_order := highest_order self; mesh := mesh self; solver :=
     solver self; subsampling_algorithm_function :=
     subsampling_algorithm_function self; quadrature := quadrature self;
     self_A := self_A self; _quadrature_points := _quadrature_points self;
     _quadrature_weights := _quadrature_weights self; _model_evaluations
     := _model_evaluations self; _gradient_evaluations :=
     _gradient_evaluations self; coefficients := coefficients self; stdout
     := stdout self |}.

Definition set_outputs (v : option (ndarray flt)) (self : Poly) : Poly :=
  {| parameters := parameters self; basis := basis self; method := method
     self; sampling_args := sampling_args self; solver_args := solver_args
     self; dimensions := dimensions self; self_orders := self_orders self;
     gradient_flag := gradient_flag self; inputs := inputs self; outputs
     := v; subsampling_algorithm_name := subsampling_algorithm_name self;
     sampling_ratio := sampling_ratio self; statistics_object :=
     statistics_object self; parameters_order := parameters_order self;
     highest_order := highest_order self; mesh := mesh self; solver :=
     solver self; subsampling_algorithm_function :=
     subsampling_algorithm_function self; quadrature := quadrature self;
     self_A := self_A self; _quadrature_points := _quadrature_points self;
     _quadrature_weights := _quadrature_weights self; _model_evaluations
     := _model_evaluations self; _gradient_evaluations :=
     _gradient_evaluations self; coefficients := coefficients self; stdout
     := stdout self |}.

Definition set_subsampling_algorithm_name (v : option string) (self : Poly) : Poly :=
  {| parameters := parameters self; basis := basis self; method := method
     self; sampling_args := sampling_args self; solver_args := solver_args
     self; dimensions := dimensions self; self_orders := self_orders self;
     gradient_flag := gradient_flag self; inputs := inputs self; outputs
     := outputs self; subsampling_algorithm_name := v; sampling_ratio :=
     sampling_ratio self; statistics_object := statistics_object self;
     parameters_order := parameters_order self; highest_order :=
     highest_order self; mesh := mesh self; solver := solver self;
     subsampling_algorithm_function := subsampling_algorithm_function
     self; quadrature := quadrature self; self_A := self_A self;
     _quadrature_points := _quadrature_points self; _quadrature_weights :=
     _quadrature_weights self; _model_evaluations := _model_evaluations
     self; _gradient_evaluations := _gradient_evaluations self;
     coefficients := coefficients self; stdout := stdout self |}.

Definition set_sampling_ratio (v : flt) (self : Poly) : Poly :=
  {| parameters := parameters self; basis := basis self; method := method
     self; sampling_args := sampling_args self; solver_args := solver_args
     self; dimensions := dimensions self; self_orders := self_orders self;
     gradient_flag := gradient_flag self; inputs := inputs self; outputs
     := outputs self; subsampling_algorithm_name :=
     subsampling_algorithm_name self; sampling_ratio := v;
     statistics_object := statistics_object self; parameters_order :=
     parameters_order self; highest_order := highest_order self; mesh :=
     mesh self; solver := solver self; subsampling_algorithm_function :=
     subsampling_algorithm_function self; quadrature := quadrature self;
     self_A := self_A self; _quadrature_points := _quadrature_points self;
     _quadrature_weights := _quadrature_weights self; _model_evaluations
     := _model_evaluations self; _gradient_evaluations :=
     _gradient_evaluations self; coefficients := coefficients self; stdout
     := stdout self |}.

Definition set_statistics_object (v : option Statistics_t) (self : Poly) : Poly :=
  {| parameters := parameters self; basis := basis self; method := method
     self; sampling_args := sampling_args self; solver_args := solver_args
     self; dimensions := dimensions self; self_orders := self_orders self;
     gradient_flag := gradient_flag self; inputs := inputs self; outputs
     := outputs self; subsampling_algorithm_name :=
     subsampling_algorithm_name self; sampling_ratio := sampling_ratio
     self; statistics_object := v; parameters_order := parameters_order
     self; highest_order := highest_order self; mesh := mesh self; solver
     := solver self; subsampling_algorithm_function :=
     subsampling_algorithm_function self; quadrature := quadrature self;
     self_A := self_A self; _quadrature_points := _quadrature_points self;
     _quadrature_weights := _quadrature_weights self; _model_evaluations
     := _model_evaluations self; _gradient_evaluations :=
     _gradient_evaluations self; coefficients := coefficients self; stdout
     := stdout self |}.

Definition set_highest_order (v : option Z) (self : Poly) : Poly :=
  {| parameters := parameters self; basis := basis self; method := method
     self; sampling_args := sampling_args self; solver_args := solver_args
     self; dimensions := dimensions self; self_orders := self_orders self;
     gradient_flag := gradient_flag self; inputs := inputs self; outputs
     := outputs self; subsampling_algorithm_name :=
     subsampling_algorithm_name self; sampling_ratio := sampling_ratio
     self; statistics_object := statistics_object self; parameters_order
     := parameters_order self; highest_order := v; mesh := mesh self;
     solver := solver self; subsampling_algorithm_function :=
     subsampling_algorithm_function self; quadrature := quadrature self;
     self_A := self_A self; _quadrature_points := _quadrature_points self;
     _quadrature_weights := _quadrature_weights self; _model_evaluations
     := _model_evaluations self; _gradient_evaluations :=
     _gradient_evaluations self; coefficients := coefficients self; stdout
     := stdout self |}.

Definition set_mesh (v : option string) (self : Poly) : Poly :=
  {| parameters := parameters self; basis := basis self; method := method
     self; sampling_args := sampling_args self; solver_args := solver_args
     self; dimensions := dimensions self; self_orders := self_orders self;
     gradient_flag := gradient_flag self; inputs := inputs self; outputs
     := outputs self; subsampling_algorithm_name :=
     subsampling_algorithm_name self; sampling_ratio := sampling_ratio
     self; statistics_object := statistics_object self; parameters_order
     := parameters_order self; highest_order := highest_order self; mesh
     := v; solver := solver self; subsampling_algorithm_function :=
     subsampling_algorithm_function self; quadrature := quadrature self;
     self_A := self_A self; _quadrature_points := _quadrature_points self;
     _quadrature_weights := _quadrature_weights self; _model_evaluations
     := _model_evaluations self; _gradient_evaluations :=
     _gradient_evaluations self; coefficients := coefficients self; stdout
     := stdout self |}.

Definition set_solver (v : option solver_fn) (self : Poly) : Poly :=
  {| parameters := parameters self; basis := basis self; method := method
     self; sampling_args := sampling_args self; solver_args := solver_args
     self; dimensions := dimensions self; self_orders := self_orders self;
     gradient_flag := gradient_flag self; inputs := inputs self; outputs
     := outputs self; subsampling_algorithm_name :=
     subsampling_algorithm_name self; sampling_ratio := sampling_ratio
     self; statistics_object := statistics_object self; parameters_order
     := parameters_order self; highest_order := highest_order self; mesh
     := mesh self; solver := v; subsampling_algorithm_function :=
     subsampling_algorithm_function self; quadrature := quadrature self;
     self_A := self_A self; _quadrature_points := _quadrature_points self;
     _quadrature_weights := _quadrature_weights self; _model_evaluations
     := _model_evaluations self; _gradient_evaluations :=
     _gradient_evaluations self; coefficients := coefficients self; stdout
     := stdout self |}.

Definition set_subsampling_algorithm_function (v : option subsampling_fn) (self : Poly) : Poly :=
  {| parameters := parameters self; basis := basis self; method := method
     self; sampling_args := sampling_args self; solver_args := solver_args
     self; dimensions := dimensions self; self_orders := self_orders self;
     gradient_flag := gradient_flag self; inputs := inputs self; outputs
     := outputs self; subsampling_algorithm_name :=
     subsampling_algorithm_name self; sampling_ratio := sampling_ratio
     self; statistics_object := statistics_object self; parameters_order
     := parameters_order self; highest_order := highest_order self; mesh
     := mesh self; solver := solver self; subsampling_algorithm_function
     := v; quadrature := quadrature self; self_A := self_A self;
     _quadrature_points := _quadrature_points self; _quadrature_weights :=
     _quadrature_weights self; _model_evaluations := _model_evaluations
     self; _gradient_evaluations := _gradient_evaluations self;
     coefficients := coefficients self; stdout := stdout self |}.

Definition set_quadrature (v : option Quadrature_t) (self : Poly) : Poly :=
  {| parameters := parameters self; basis := basis self; method := method
     self; sampling_args := sampling_args self; solver_args := solver_args
     self; dimensions := dimensions self; self_orders := self_orders self;
     gradient_flag := gradient_flag self; inputs := inputs self; outputs
     := outputs self; subsampling_algorithm_name :=
     subsampling_algorithm_name self; sampling_ratio := sampling_ratio
     self; statistics_object := statistics_object self; parameters_order
     := parameters_order self; highest_order := highest_order self; mesh
     := mesh self; solver := solver self; subsampling_algorithm_function
     := subsampling_algorithm_function self; quadrature := v; self_A :=
     self_A self; _quadrature_points := _quadrature_points self;
     _quadrature_weights := _quadrature_weights self; _model_evaluations
     := _model_evaluations self; _gradient_evaluations :=
     _gradient_evaluations self; coefficients := coefficients self; stdout
     := stdout self |}.

Definition set_self_A (v : option (ndarray flt)) (self : Poly) : Poly :=
  {| parameters := parameters self; basis := basis self; method := method
     self; sampling_args := sampling_args self; solver_args := solver_args
     self; dimensions := dimensions self; self_orders := self_orders self;
     gradient_flag := gradient_flag self; inputs := inputs self; outputs
     := outputs self; subsampling_algorithm_name :=
     subsampling_algorithm_name self; sampling_ratio := sampling_ratio
     self; statistics_object := statistics_object self; parameters_order
     := parameters_order self; highest_order := highest_order self; mesh
     := mesh self; solver := solver self; subsampling_algorithm_function
     := subsampling_algorithm_function self; quadrature := quadrature
     self; self_A := v; _quadrature_points := _quadrature_points self;
     _quadrature_weights := _quadrature_weights self; _model_evaluations
     := _model_evaluations self; _gradient_evaluations :=
     _gradient_evaluations self; coefficients := coefficients self; stdout
     := stdout self |}.

Definition set__quadrature_points (v : option (ndarray flt)) (self : Poly) : Poly :=
  {| parameters := parameters self; basis := basis self; method := method
     self; sampling_args := sampling_args self; solver_args := solver_args
     self; dimensions := dimensions self; self_orders := self_orders self;
     gradient_flag := gradient_flag self; inputs := inputs self; outputs
     := outputs self; subsampling_algorithm_name :=
     subsampling_algorithm_name self; sampling_ratio := sampling_ratio
     self; statistics_object := statistics_object self; parameters_order
     := parameters_order self; highest_order := highest_order self; mesh
     := mesh self; solver := solver self; subsampling_algorithm_function
     := subsampling_algorithm_function self; quadrature := quadrature
     self; self_A := self_A self; _quadrature_points := v;
     _quadrature_weights := _quadrature_weights self; _model_evaluations
     := _model_evaluations self; _gradient_evaluations :=
     _gradient_evaluations self; coefficients := coefficients self; stdout
     := stdout self |}.

Definition set__quadrature_weights (v : option (list flt)) (self : Poly) : Poly :=
  {| parameters := parameters self; basis := basis self; method := method
     self; sampling_args := sampling_args self; solver_args := solver_args
     self; dimensions := dimensions self; self_orders := self_orders self;
     gradient_flag := gradient_flag self; inputs := inputs self; outputs
     := outputs self; subsampling_algorithm_name :=
     subsampling_algorithm_name self; sampling_ratio := sampling_ratio
     self; statistics_object := statistics_object self; parameters_order
     := parameters_order self; highest_order := highest_order self; mesh
     := mesh self; solver := solver self; subsampling_algorithm_function
     := subsampling_algorithm_function self; quadrature := quadrature
     self; self_A := self_A self; _quadrature_points := _quadrature_points
     self; _quadrature_weights := v; _model_evaluations :=
     _model_evaluations self; _gradient_evaluations :=
     _gradient_evaluations self; coefficients := coefficients self; stdout
     := stdout self |}.

Definition set__model_evaluations (v : option (ndarray flt)) (self : Poly) : Poly :=
  {| parameters := parameters self; basis := basis self; method := method
     self; sampling_args := sampling_args self; solver_args := solver_args
     self; dimensions := dimensions self; self_orders := self_orders self;
     gradient_flag := gradient_flag self; inputs := inputs self; outputs
     := outputs self; subsampling_algorithm_name :=
     subsampling_algorithm_name self; sampling_ratio := sampling_ratio
     self; statistics_object := statistics_object self; parameters_order
     := parameters_order self; highest_order := highest_order self; mesh
     := mesh self; solver := solver self; subsampling_algorithm_function
     := subsampling_algorithm_function self; quadrature := quadrature
     self; self_A := self_A self; _quadrature_points := _quadrature_points
     self; _quadrature_weights := _quadrature_weights self;
     _model_evaluations := v; _gradient_evaluations :=
     _gradient_evaluations self; coefficients := coefficients self; stdout
     := stdout self |}.

Definition set__gradient_evaluations (v : option (ndarray flt)) (self : Poly) : Poly :=
  {| parameters := parameters self; basis := basis self; method := method
     self; sampling_args := sampling_args self; solver_args := solver_args
     self; dimensions := dimensions self; self_orders := self_orders self;
     gradient_flag := gradient_flag self; inputs := inputs self; outputs
     := outputs self; subsampling_algorithm_name :=
     subsampling_algorithm_name self; sampling_ratio := sampling_ratio
     self; statistics_object := statistics_object self; parameters_order
     := parameters_order self; highest_order := highest_order self; mesh
     := mesh self; solver := solver self; subsampling_algorithm_function
     := subsampling_algorithm_function self; quadrature := quadrature
     self; self_A := self_A self; _quadrature_points := _quadrature_points
     self; _quadrature_weights := _quadrature_weights self;
     _model_evaluations := _model_evaluations self; _gradient_evaluations
     := v; coefficients := coefficients self; stdout := stdout self |}.

Definition set_coefficients (v : option (ndarray flt)) (self : Poly) : Poly :=
  {| parameters := parameters self; basis := basis self; method := method
     self; sampling_args := sampling_args self; solver_args := solver_args
     self; dimensions := dimensions self; self_orders := self_orders self;
     gradient_flag := gradient_flag self; inputs := inputs self; outputs
     := outputs self; subsampling_algorithm_name :=
     subsampling_algorithm_name self; sampling_ratio := sampling_ratio
     self; statistics_object := statistics_object self; parameters_order
     := parameters_order self; highest_order := highest_order self; mesh
     := mesh self; solver := solver self; subsampling_algorithm_function
     := subsampling_algorithm_function self; quadrature := quadrature
     self; self_A := self_A self; _quadrature_points := _quadrature_points
     self; _quadrature_weights := _quadrature_weights self;
     _model_evaluations := _model_evaluations self; _gradient_evaluations
     := _gradient_evaluations self; coefficients := v; stdout := stdout
     self |}.

Definition set_stdout (v : list string) (self : Poly) : Poly :=
  {| parameters := parameters self; basis := basis self; method := method
     self; sampling_args := sampling_args self; solver_args := solver_args
     self; dimensions := dimensions self; self_orders := self_orders self;
     gradient_flag := gradient_flag self; inputs := inputs self; outputs
     := outputs self; subsampling_algorithm_name :=
     subsampling_algorithm_name self; sampling_ratio := sampling_ratio
     self; statistics_object := statistics_object self; parameters_order
     := parameters_order self; highest_order := highest_order self; mesh
     := mesh self; solver := solver self; subsampling_algorithm_function
     := subsampling_algorithm_function self; quadrature := quadrature
     self; self_A := self_A self; _quadrature_points := _quadrature_points
     self; _quadrature_weights := _quadrature_weights self;
     _model_evaluations := _model_evaluations self; _gradient_evaluations
     := _gradient_evaluations self; coefficients := coefficients self;
     stdout := v |}.
Definition set_parameters (v : list Param) (self : Poly) : Poly :=
  {| parameters := v; basis := basis self; method := method self;
     sampling_args := sampling_args self; solver_args := solver_args self;
     dimensions := dimensions self; self_orders := self_orders self;
     gradient_flag := gradient_flag self; inputs := inputs self; outputs
     := outputs self; subsampling_algorithm_name :=
     subsampling_algorithm_name self; sampling_ratio := sampling_ratio
     self; statistics_object := statistics_object self; parameters_order
     := parameters_order self; highest_order := highest_order self; mesh
     := mesh self; solver := solver self; subsampling_algorithm_function
     := subsampling_algorithm_function self; quadrature := quadrature
     self; self_A := self_A self; _quadrature_points := _quadrature_points
     self; _quadrature_weights := _quadrature_weights self;
     _model_evaluations := _model_evaluations self; _gradient_evaluations
     := _gradient_evaluations self; coefficients := coefficients self;
     stdout := stdout self |}.

(** *** Methods: state and exceptions *)

(** How a method call ends: it returns a value, or raises, and either way
    leaves the object in some state; [OutOfFuel] is the embedding's bound on
    the mutual recursion of [set_model] and [_set_coefficients]. *)
Inductive outcome (A : Type) : Type :=
| Returns (a : A) (self : Poly)
| Raises (e : exn) (self : Poly)
| OutOfFuel.
Arguments Returns {A} a self.
Arguments Raises {A} e self.
Arguments OutOfFuel {A}.

Definition M (A : Type) : Type := Poly -> outcome A.

Definition ret {A} (a : A) : M A := fun self => Returns a self.

Definition bind {A B} (m : M A) (k : A -> M B) : M B :=
  fun self =>
    match m self with
    | Returns a self' => k a self'
    | Raises e self' => Raises e self'
    | OutOfFuel => OutOfFuel
    end.

Definition raise {A} (e : exn) : M A := fun self => Raises e self.

(** Read an attribute. *)
Definition read {A} (f : Poly -> A) : M A := fun self => Returns (f self) self.

(** Read an attribute that may not have been assigned yet. *)
Definition attr {A} (f : Poly -> option A) : M A :=
  fun self =>
    match f self with
    | Some a => Returns a self
    | None => Raises AttributeError self
    end.

(** Assign an attribute. *)
Definition assign (f : Poly -> Poly) : M unit := fun self => Returns tt (f self).

(** Run a computation that does not touch the object. *)
Definition pure {A} (r : result A) : M A :=
  fun self =>
    match r with
    | Ok a => Returns a self
    | Raise e => Raises e self
    end.

(** Run a basis evaluation; the record of evaluator calls is dropped. *)
Definition evaluated {A} (r : logged A) : M A := pure (fst r).

Definition print (line : string) : M unit :=
  assign (fun self => set_stdout (stdout self ++ [line]) self).

Delimit Scope method_scope with py.
Notation "x <- c ;; k" := (bind c (fun x => k))
  (at level 61, c at next level, right associativity) : method_scope.
Notation "c ;;; k" := (bind c (fun _ => k))
  (at level 61, right associativity) : method_scope.

(** [for x in l: body(x)] *)
Fixpoint for_each {A} (l : list A) (body : A -> M unit) : M unit :=
  match l with
  | [] => ret tt
  | x :: l' => (body x ;;; for_each l' body)%py
  end.

Definition str_nat (n : nat) : string := NilZero.string_of_uint (Nat.to_uint n).
Definition str_Z (z : Z) : string := NilZero.string_of_int (Z.to_int z).

Definition py_eq (a : option string) (b : string) : bool :=
  match a with
  | Some s => String.eqb s b
  | None => false
  end.

(** *** Construction helpers *)

Definition _set_subsampling_algorithm : M unit :=
  (name <- read subsampling_algorithm_name ;;
   assign (set_subsampling_algorithm_function (Some (Subsampling name))))%py.

Definition _set_solver : M unit :=
  (method <- read method ;;
   args <- read solver_args ;;
   assign (set_solver (Some (Solver method args))))%py.

(** [W * P.T] with [W = diag(sqrt(weights))]: the weighted basis evaluation
    at a design. *)
Definition weighted_basis (P : ndarray flt) (weights : list flt) : result (ndarray flt) :=
  np.dot (np.diag (map fsqrt weights)) (np.transpose P).

(** [int(np.round(x))] of line 204: Python's [int] raises a ValueError on
    not-a-number. *)
Definition int_round (x : flt) : result Z :=
  if fisnan x then Raise ValueError else Ok (fround x).

(** Lines 197-214 of [_set_points_and_weights]: what is kept of the points
    and weights of the quadrature. *)
Definition retain_design (quadrature : Quadrature_t) : M unit :=
  (parameters <- read parameters ;;
   basis <- read basis ;;
   let (quadrature_points, quadrature_weights) := get_points_and_weights quadrature in
   name <- read subsampling_algorithm_name ;;
   match name with
   | Some _ =>
       P <- evaluated (get_poly parameters basis quadrature_points None) ;;
       A <- pure (weighted_basis P quadrature_weights) ;;
       assign (set_self_A (Some A)) ;;;
       let nn := shape1 A in
       sampling_ratio <- read sampling_ratio ;;
       m_refined <- pure (int_round (fmul sampling_ratio (f_of_Z (Z.of_nat nn)))) ;;
       subsampling_algorithm_function <- attr subsampling_algorithm_function ;;
       let z := subsampling_algorithm_function A m_refined in
       points_z <- pure (np.take_rows quadrature_points z) ;;
       assign (set__quadrature_points (Some points_z)) ;;;
       weights_z <- pure (np.take quadrature_weights z) ;;
       assign (set__quadrature_weights
                 (Some (map (fun w => fdiv w (np.sum weights_z)) weights_z)))
   | None =>
       assign (set__quadrature_points (Some quadrature_points)) ;;;
       assign (set__quadrature_weights (Some quadrature_weights)) ;;;
       P <- evaluated (get_poly parameters basis quadrature_points None) ;;
       A <- pure (weighted_basis P quadrature_weights) ;;
       assign (set_self_A (Some A))
   end)%py.

Definition _set_points_and_weights : M unit :=
  (mesh <- attr mesh ;;
   parameters <- read parameters ;;
   basis <- read basis ;;
   inputs <- read inputs ;;
   let quadrature := Quadrature parameters basis inputs mesh in
   assign (set_quadrature (Some quadrature)) ;;;
   retain_design quadrature)%py.

(** [_set_parameters(parameters)] *)
Definition _set_parameters (parameters : list Param) : M unit :=
  (assign (set_parameters parameters) ;;;
   _set_points_and_weights)%py.

(** The weighted basis evaluation at the design the object holds:
    [diag(sqrt(_quadrature_weights)) * P(_quadrature_points).T]. *)
Definition final_design_matrix (self : Poly) : result (ndarray flt) :=
  (points <- of_option AttributeError (_quadrature_points self) ;;
   weights <- of_option AttributeError (_quadrature_weights self) ;;
   P <- fst (get_poly (parameters self) (basis self) points None) ;;
   weighted_basis P weights)%res.

(** The constructor's [parameters] argument: a list, or a single parameter
    that [len] rejects and the constructor wraps. *)
Inductive parameters_arg : Type :=
| OneParameter (p : Param)
| Parameters (ps : list Param).

(** The state of the object when the constructor reaches
    [self.highest_order = np.max(self.parameters_order)]. *)
Definition initial_attributes (parameters : parameters_arg) (basis : Basis)
    (method : option string) (sampling_args : option sampling_args_t)
    (solver_args : option solver_args_t) : Poly :=
  let parameters := match parameters with
                    | OneParameter p => [p]
                    | Parameters ps => ps
                    end in
  let self_orders := map order parameters in
  {| parameters := parameters;
     basis := match orders basis with
              | [] => set_orders self_orders basis
              | _ :: _ => basis
              end;
     method := method;
     sampling_args := sampling_args;
     solver_args := solver_args;
     dimensions := length parameters;
     self_orders := self_orders;
     gradient_flag := 0;
     inputs := None;
     outputs := None;
     subsampling_algorithm_name := None;
     sampling_ratio := f1;
     statistics_object := None;
     parameters_order := map order parameters;
     highest_order := None;
     mesh := None;
     solver := None;
     subsampling_algorithm_function := None;
     quadrature := None;
     self_A := None;
     _quadrature_points := None;
     _quadrature_weights := None;
     _model_evaluations := None;
     _gradient_evaluations := None;
     coefficients := None;
     stdout := [] |}.

(** Lines 89-99: the mesh a method stands for. *)
Definition mesh_of_method : M unit :=
  (method <- read method ;;
   if py_eq method "numerical-integration" || py_eq method "integration" then
     basis <- read basis ;;
     assign (set_mesh (Some (basis_type basis)))
   else if py_eq method "least-squares" then
     assign (set_mesh (Some "tensor-grid"%string))
   else if py_eq method "least-squares-with-gradients" then
     assign (set_gradient_flag 1) ;;;
     assign (set_mesh (Some "tensor-grid"%string))
   else if py_eq method "compressed-sensing" || py_eq method "compressive-sensing" then
     assign (set_mesh (Some "monte-carlo"%string))
   else if py_eq method "minimum-norm" then
     assign (set_mesh (Some "monte-carlo"%string))
   else ret tt)%py.

(** [if key in sampling_args: ...] *)
Definition if_in {A} (entry : option A) (body : A -> M unit) : M unit :=
  match entry with
  | Some v => body v
  | None => ret tt
  end.

(** Lines 101-108: the entries of [sampling_args] replace the defaults. *)
Definition override_defaults : M unit :=
  (sampling_args <- read sampling_args ;;
   match sampling_args with
   | Some args =>
       if_in (sa_mesh args) (fun v => assign (set_mesh (Some v))) ;;;
       if_in (sa_sampling_ratio args) (fun v => assign (set_sampling_ratio v)) ;;;
       if_in (sa_subsampling_algorithm args)
             (fun v => assign (set_subsampling_algorithm_name (Some v))) ;;;
       if_in (sa_sample_points args)
             (fun v => assign (set_inputs (Some v)) ;;;
                       assign (set_mesh (Some "user-defined"%string))) ;;;
       if_in (sa_sample_outputs args) (fun v => assign (set_outputs (Some v)))
   | None => ret tt
   end)%py.

(** The mesh each method stands for, as the spec lists them, and the mesh
    left once the sampling arguments have had their say: sample points make
    it user-defined, a mesh entry comes next, the method last. *)
Definition method_mesh (basis_type method : string) : option string :=
  if String.eqb method "numerical-integration" || String.eqb method "integration"
  then Some basis_type
  else if String.eqb method "least-squares" then Some "tensor-grid"%string
  else if String.eqb method "least-squares-with-gradients" then Some "tensor-grid"%string
  else if String.eqb method "compressed-sensing" || String.eqb method "compressive-sensing"
  then Some "monte-carlo"%string
  else if String.eqb method "minimum-norm" then Some "monte-carlo"%string
  else None.

Definition entry {A} (args : option sampling_args_t)
    (key : sampling_args_t -> option A) : option A :=
  match args with
  | Some a => key a
  | None => None
  end.

(** An assignment that happens only when there is something to assign. *)
Definition keep {A} (new old : option A) : option A :=
  match new with
  | Some v => Some v
  | None => old
  end.

Definition resolved_mesh (basis_type method : string)
    (args : option sampling_args_t) : option string :=
  match entry args sa_sample_points, entry args sa_mesh with
  | Some _, _ => Some "user-defined"%string
  | None, Some mesh => Some mesh
  | None, None => method_mesh basis_type method
  end.

Definition __init__ (parameters : parameters_arg) (basis : Basis)
    (method : option string) (sampling_args : option sampling_args_t)
    (solver_args : option solver_args_t) : outcome unit :=
  (highest <- pure (np.max (map order match parameters with
                                      | OneParameter p => [p]
                                      | Parameters ps => ps
                                      end)) ;;
   assign (set_highest_order (Some highest)) ;;;
   match method with
   | Some _ =>
       mesh_of_method ;;;
       override_defaults ;;;
       _set_solver ;;;
       _set_subsampling_algorithm ;;;
       _set_points_and_weights
   | None => print "WARNING: Method not declared."
   end)%py
  (initial_attributes parameters basis method sampling_args solver_args).

(** *** Statistics *)

Definition MAXIMUM_ORDER_FOR_STATS : Z := 8.

Definition _set_statistics : M unit :=
  (statistics_object <- read statistics_object ;;
   match statistics_object with
   | Some _ => ret tt
   | None =>
       method <- read method ;;
       dimensions <- read dimensions ;;
       highest_order <- attr highest_order ;;
       parameters <- read parameters ;;
       basis <- read basis ;;
       parameters_order <- read parameters_order ;;
       design <-
         (if negb (py_eq method "numerical-integration") && (dimensions <=? 6)
             && (highest_order <=? MAXIMUM_ORDER_FOR_STATS)%Z
          then
            let quad := Quadrature parameters
                          (Basis_new "tensor-grid"
                             (map (fun o => (o + 1)%Z) parameters_order))
                          None "tensor-grid" in
            let (quad_pts, quad_wts) := get_points_and_weights quad in
            poly_vandermonde_matrix <-
              evaluated (get_poly parameters basis quad_pts None) ;;
            ret (poly_vandermonde_matrix, quad_pts, quad_wts)
          else
            points <- attr _quadrature_points ;;
            poly_vandermonde_matrix <-
              evaluated (get_poly parameters basis points None) ;;
            quad_pts <- attr _quadrature_points ;;
            quad_wts <- attr _quadrature_weights ;;
            ret (poly_vandermonde_matrix, quad_pts, quad_wts)) ;;
       coefficients <- attr coefficients ;;
       assign (set_statistics_object
                 (Some {| stat_parameters := parameters;
                          stat_basis := basis;
                          stat_coefficients := coefficients;
                          stat_quad_pts := snd (fst design);
                          stat_quad_wts := snd design;
                          stat_poly_vandermonde_matrix := fst (fst design);
                          stat_max_sobol_order :=
                            if (highest_order <=? MAXIMUM_ORDER_FOR_STATS)%Z
                            then highest_order
                            else MAXIMUM_ORDER_FOR_STATS |}))
   end)%py.

(** *** The fitted polynomial *)

(** [get_polyfit(stack_of_points)] *)
Definition get_polyfit (stack_of_points : ndarray flt) : M (ndarray flt) :=
  (coefficients <- attr coefficients ;;
   let N := shape0 coefficients in
   parameters <- read parameters ;;
   basis <- read basis ;;
   P <- evaluated (get_poly parameters basis stack_of_points None) ;;
   column <- pure (np.reshape_column coefficients N) ;;
   pure (np.dot (np.transpose P) column))%py.

(** *** Model evaluation *)

(** The [model] argument of [set_model]: a callable or its evaluations. *)
Inductive model_arg : Type :=
| Callable (function : list flt -> flt)
| Evaluations (y : ndarray flt).

(** The [model_grads] argument: a callable or a matrix of gradients. *)
Inductive grads_arg : Type :=
| CallableGrads (fungrad : list flt -> list flt)
| GradEvaluations (g : ndarray flt).

Definition evaluate_model (points : ndarray flt) (function : list flt -> flt)
    : ndarray flt :=
  mk_nd 1 (map (fun x => [function x]) (data points)).

(** [evaluate_model_gradients(points, fungrad, 'matrix')], the format
    [set_model] asks for. *)
Definition evaluate_model_gradients (points : ndarray flt)
    (fungrad : list flt -> list flt) : result (ndarray flt) :=
  (first <- of_option IndexError (nth_error (data points) 0) ;;
   let dimensions := length first in
   rows <- rmap (fun x =>
                   let output_from_gradient_call := fungrad x in
                   rmap (fun j => of_option IndexError
                                    (nth_error output_from_gradient_call j))
                        (seq 0 dimensions))
                (data points) ;;
   Ok (mk_nd dimensions rows))%res.

(** [a[i,j]] *)
Definition item2 {A} (a : ndarray A) (i j : nat) : result A :=
  (row <- of_option IndexError (nth_error (data a) i) ;;
   of_option IndexError (nth_error row j))%res.

(** [a[i] = row] *)
Fixpoint set_row {A} (rows : list (list A)) (i : nat) (row : list A)
    : list (list A) :=
  match rows, i with
  | [], _ => []
  | _ :: rows', O => row :: rows'
  | r :: rows', S i' => r :: set_row rows' i' row
  end.

(** Lines 355-362: the flattened, weight-scaled gradient evaluations. *)
Definition set_gradient_evaluations (grad_values : ndarray flt) : M unit :=
  (let p := shape0 grad_values in
   let q := shape1 grad_values in
   assign (set__gradient_evaluations (Some (np.full f0 (p * q) 1))) ;;;
   weights <- attr _quadrature_weights ;;
   let W := np.diag (map fsqrt weights) in
   for_each (list_prod (seq 0 q) (seq 0 p))
     (fun ji =>
        let j := fst ji in
        let i := snd ji in
        let counter := j * p + i in
        w <- pure (item2 W i i) ;;
        g <- pure (item2 grad_values i j) ;;
        evaluations <- attr _gradient_evaluations ;;
        assign (set__gradient_evaluations
                  (Some (mk_nd (shape1 evaluations)
                               (set_row (data evaluations) counter [fmul w g]))))))%py.

(** Entry [(i, j)] of the gradients, scaled by the square root of weight
    [i]; [ji] is the pair [(j, i)] of the loops. *)
Definition weighted_gradient (weights : list flt) (grad_values : ndarray flt)
    (ji : nat * nat) : flt :=
  fmul (fsqrt (nth (snd ji) weights f0))
       (nth (fst ji) (nth (snd ji) (data grad_values) []) f0).

(** *** The coefficient solve *)

(** Lines 405-406: where a sub-grid's points sit, on the line's account, in
    the global design: the positions at which the rows of the stacked
    points, made unique, count twice. *)
Definition shared_rows (tensor_points quadrature_points : ndarray flt)
    : result (list Z) :=
  (stacked <- np.vstack tensor_points quadrature_points ;;
   let counts := map snd (np.unique_counts fcompare (data stacked)) in
   Ok (map (fun p => Z.of_nat (fst p))
           (filter (fun p => snd p =? 2) (combine (seq 0 (length counts)) counts))))%res.

(** Lines 403-407: the right-hand side of a sub-grid's solve. *)
Definition sparse_rhs (tensor : Tensor) (quadrature_points model_evaluations : ndarray flt)
    : result (ndarray flt) :=
  (let W := np.diag (map fsqrt (t_weights tensor)) in
   indices <- shared_rows (t_points tensor) quadrature_points ;;
   selected <- np.take_rows model_evaluations indices ;;
   np.dot W selected)%res.

(** The claim about that right-hand side: it is made of the model
    evaluations at the rows of the global design whose points are points of
    the sub-grid, one for each point of the sub-grid. *)
Definition gathers_matching_rows (tensor : Tensor)
    (quadrature_points model_evaluations : ndarray flt) : Prop :=
  exists indices rows,
    (forall i, In i indices <->
               exists g, nth_error (data quadrature_points) i = Some g
                         /\ In g (data (t_points tensor)))
    /\ Forall2 (fun i y => nth_error (data model_evaluations) i = Some y) indices rows
    /\ length rows = shape0 (t_points tensor)
    /\ sparse_rhs tensor quadrature_points model_evaluations
       = np.dot (np.diag (map fsqrt (t_weights tensor)))
                (mk_nd (shape1 model_evaluations) rows).

(** The body of the loop over the sub-grids, lines 402-410: the scaled
    local coefficients and their multi-indices. *)
Definition sparse_tensor (self : Poly) (solver : solver_fn)
    (quadrature : Quadrature_t) (quadrature_points model_evaluations : ndarray flt)
    (counter : nat) (tensor : Tensor) : result (ndarray flt * ndarray Z) :=
  (P <- fst (get_poly (parameters self) (basis self) (t_points tensor)
                      (Some (elements (t_basis tensor)))) ;;
   A <- weighted_basis P (t_weights tensor) ;;
   b <- sparse_rhs tensor quadrature_points model_evaluations ;;
   weight <- of_option IndexError (nth_error (sparse_weights quadrature) counter) ;;
   let coefficients_i := np.scale (solver A b None) weight in
   let multindices_i := elements (t_basis tensor) in
   Ok (coefficients_i, multindices_i))%res.

(** The loop itself, lines 397-413; each sub-grid goes on top of the ones
    before it, above the uninitialised row the stacks start from. *)
Fixpoint sparse_stack (self : Poly) (solver : solver_fn)
    (quadrature : Quadrature_t) (quadrature_points model_evaluations : ndarray flt)
    (tensors : list Tensor) (counter : nat)
    (coefficients : ndarray flt) (multindices : ndarray Z)
    : result (ndarray flt * ndarray Z) :=
  match tensors with
  | [] => Ok (coefficients, multindices)
  | tensor :: rest =>
      (local <- sparse_tensor self solver quadrature quadrature_points
                              model_evaluations counter tensor ;;
       coefficients <- np.vstack (fst local) coefficients ;;
       multindices <- np.vstack (snd local) multindices ;;
       sparse_stack self solver quadrature quadrature_points model_evaluations
                    rest (counter + 1) coefficients multindices)%res
  end.

(** Lines 418-421: for one unique multi-index, the sum of the coefficients
    stacked against it. *)
Definition sum_matching (unique_index : list Z) (multindices : list (list Z))
    (coefficients : list flt) : result flt :=
  fold_left
    (fun total jrow =>
       (total <- total ;;
        if np.row_eqb Z.compare unique_index (snd jrow)
        then (c <- of_option IndexError (nth_error coefficients (fst jrow)) ;;
              Ok (fadd total c))
        else Ok total)%res)
    (combine (seq 0 (length multindices)) multindices) (Ok f0).

(** Lines 414-421: drop the uninitialised row, make the multi-indices
    unique, add up the coefficients of equal multi-indices. *)
Definition sparse_combine (coefficients : ndarray flt) (multindices : ndarray Z)
    : result (ndarray flt * ndarray Z) :=
  (multindices <- np.delete_rows multindices [shape0 multindices - 1] ;;
   coefficients <- np.delete_item (concat (data coefficients)) (shape0 coefficients - 1) ;;
   let unique_indices := np.unique Z.compare multindices in
   coefficients_final <-
     rmap (fun u => (c <- sum_matching u (data multindices) coefficients ;; Ok [c]))
          (data unique_indices) ;;
   Ok (mk_nd 1 coefficients_final, unique_indices))%res.

(** What the sub-grids contribute, given the scaled local coefficients and
    the multi-indices of each: every multi-index with its coefficient, the
    later sub-grids first; and the sum of the coefficients that go with one
    multi-index. *)
Definition stacked_terms (locals : list (ndarray flt * ndarray Z))
    : list (list Z * flt) :=
  concat (rev (map (fun l => combine (data (snd l)) (concat (data (fst l)))) locals)).

Definition combined (u : list Z) (terms : list (list Z * flt)) : flt :=
  np.sum (map snd (filter (fun t => np.row_eqb Z.compare u (fst t)) terms)).

(** [cell2matrix(G, W)] *)
Definition cell2matrix (G : derivative_tables) (W : ndarray flt) : result (ndarray flt) :=
  match G with
  | Univariate a =>
      (* G[0] is a row of the table: no pair of shape to unpack *)
      match data a with
      | [] => Raise IndexError
      | _ :: _ => Raise ValueError
      end
  | PerDirection l =>
      (G0 <- of_option IndexError (nth_error l 0) ;;
       let C0 := np.transpose G0 in
       let rows := shape0 C0 in
       let cols := shape1 C0 in
       blocks <- rmap (fun Gi =>
                         K <- np.dot W (np.transpose Gi) ;;
                         rmap (fun j => rmap (fun k => item2 K j k) (seq 0 cols))
                              (seq 0 rows))
                      l ;;
       Ok (mk_nd cols (concat blocks)))%res
  end.

(** Lines 396-442, after the check for not-a-number evaluations. *)
Definition solve_coefficients : M unit :=
  (mesh <- attr mesh ;;
   if String.eqb mesh "sparse-grid" then
     self <- read (fun self => self) ;;
     quadrature <- attr quadrature ;;
     solver <- attr solver ;;
     quadrature_points <- attr _quadrature_points ;;
     model_evaluations <- attr _model_evaluations ;;
     stacks <- pure (sparse_stack self solver quadrature quadrature_points
                       model_evaluations (q_list quadrature) 0
                       (mk_nd 1 [[f0]]) (mk_nd (dimensions self) [repeat 0%Z (dimensions self)])) ;;
     final <- pure (sparse_combine (fst stacks) (snd stacks)) ;;
     assign (set_coefficients (Some (fst final))) ;;;
     basis <- read basis ;;
     assign (set_basis (with_elements (snd final) basis))
   else
     parameters <- read parameters ;;
     basis <- read basis ;;
     quadrature_points <- attr _quadrature_points ;;
     P <- evaluated (get_poly parameters basis quadrature_points None) ;;
     quadrature_weights <- attr _quadrature_weights ;;
     let W := np.diag (map fsqrt quadrature_weights) in
     A <- pure (np.dot W (np.transpose P)) ;;
     model_evaluations <- attr _model_evaluations ;;
     b <- pure (np.dot W model_evaluations) ;;
     gradient_flag <- read gradient_flag ;;
     if gradient_flag =? 1 then
       dP <- evaluated (get_poly_grad parameters basis quadrature_points None) ;;
       C <- pure (cell2matrix dP W) ;;
       G <- pure (np.vstack A C) ;;
       let r := matrix_rank G in
       let n := shape1 A in
       print ("Gradient computation: The rank of the stacked matrix is "
                ++ str_Z r ++ ".") ;;;
       print ("The number of unknown basis terms is " ++ str_nat n) ;;;
       (if (r <? Z.of_nat n)%Z
        then print "WARNING: Please increase the number of samples; one way to do this would be to increase the sampling-ratio."
        else ret tt) ;;;
       solver <- attr solver ;;
       gradient_evaluations <- attr _gradient_evaluations ;;
       assign (set_coefficients (Some (solver A b (Some (C, gradient_evaluations)))))
     else
       solver <- attr solver ;;
       assign (set_coefficients (Some (solver A b None))))%py.

(** The lines the solve with gradients prints. *)
Definition rank_notice (r : Z) : string :=
  "Gradient computation: The rank of the stacked matrix is " ++ str_Z r ++ ".".

Definition unknowns_notice (n : nat) : string :=
  "The number of unknown basis terms is " ++ str_nat n.

Definition samples_warning : string :=
  "WARNING: Please increase the number of samples; one way to do this would be to increase the sampling-ratio.".

Definition nan_warning (found total : nat) : string :=
  "WARNING: One or more of your model evaluations have resulted in an NaN. We found "
    ++ str_nat found ++ " NaNs out of " ++ str_nat total ++ ".".

Definition least_squares_notice : string :=
  "The code will now use a least-squares technique that will ignore input-output pairs of your model that have NaNs. This will likely compromise computed statistics.".

(** Lines 339-363 of [set_model]: which evaluations the object adopts. *)
Definition attach_model (model : option model_arg) (model_grads : option grads_arg)
    : M unit :=
  (outputs <- read outputs ;;
   match model, outputs with
   | None, Some outputs => assign (set__model_evaluations (Some outputs))
   | _, _ =>
       y <- match model with
            | Some (Callable function) =>
                points <- attr _quadrature_points ;;
                ret (evaluate_model points function)
            | Some (Evaluations y) =>
                points <- attr _quadrature_points ;;
                if shape0 y =? shape0 points then ret y
                else raise AssertionError
            | None =>
                (* y = None, and None has no shape *)
                raise AttributeError
            end ;;
       (if shape1 y =? 1 then ret tt else raise RaisedTuple) ;;;
       assign (set__model_evaluations (Some y)) ;;;
       gradient_flag <- read gradient_flag ;;
       if gradient_flag =? 1 then
         grad_values <- match model_grads with
                        | Some (CallableGrads fungrad) =>
                            points <- attr _quadrature_points ;;
                            pure (evaluate_model_gradients points fungrad)
                        | Some (GradEvaluations g) => ret g
                        | None =>
                            (* grad_values = None, and None has no shape *)
                            raise AttributeError
                        end ;;
         set_gradient_evaluations grad_values
       else ret tt
   end)%py.

(** Lines 383-395 of [_set_coefficients]: the evaluations that are not a
    number are dropped with their points, and the model is set again;
    [set_model_again] is the call [self.set_model(self.outputs)]. *)
Definition drop_nans (model_evaluations : ndarray flt) (indices_with_nans : list nat)
    (set_model_again : ndarray flt -> M unit) : M unit :=
  (print (nan_warning (length indices_with_nans) (shape0 model_evaluations)) ;;;
   print least_squares_notice ;;;
   quadrature_points <- attr _quadrature_points ;;
   inputs <- pure (np.delete_rows quadrature_points indices_with_nans) ;;
   assign (set_inputs (Some inputs)) ;;;
   outputs <- pure (np.delete_rows model_evaluations indices_with_nans) ;;
   assign (set_outputs (Some outputs)) ;;;
   assign (set_subsampling_algorithm_name None) ;;;
   basis <- read basis ;;
   dimensions <- read dimensions ;;
   let number_of_basis_to_prune_down :=
     (Z.of_nat (cardinality basis) - Z.of_nat (shape0 outputs))%Z in
   (if (0 <? number_of_basis_to_prune_down)%Z
    then assign (set_basis
                   (prune (number_of_basis_to_prune_down + Z.of_nat dimensions)%Z
                          basis))
    else ret tt) ;;;
   assign (set_method (Some "least-squares"%string)) ;;;
   assign (set_mesh (Some "user-defined"%string)) ;;;
   _set_solver ;;;
   _set_points_and_weights ;;;
   set_model_again outputs)%py.

(** [set_model] and [_set_coefficients] call each other; [fuel] bounds the
    depth of the calls. *)
Fixpoint set_model (fuel : nat) (model : option model_arg)
    (model_grads : option grads_arg) {struct fuel} : M unit :=
  match fuel with
  | O => fun _ => OutOfFuel
  | S fuel =>
      (attach_model model model_grads ;;;
       assign (set_statistics_object None) ;;;
       _set_coefficients fuel None)%py
  end

with _set_coefficients (fuel : nat) (user_defined_coefficients : option (ndarray flt))
    {struct fuel} : M unit :=
  match fuel with
  | O => fun _ => OutOfFuel
  | S fuel =>
      match user_defined_coefficients with
      | Some c => assign (set_coefficients (Some c))
      | None =>
          (model_evaluations <- attr _model_evaluations ;;
           let indices_with_nans := np.argwhere_isnan_rows model_evaluations in
           (if negb (length indices_with_nans =? 0)
            then drop_nans model_evaluations indices_with_nans
                   (fun outputs => set_model fuel (Some (Evaluations outputs)) None)
            else ret tt) ;;;
           solve_coefficients)%py
      end
  end.

(** [set_model] on evaluations, and [_set_coefficients], written without
    the bound on the depth of the calls: [_set_coefficients] hands
    [set_model] evaluations that hold no not-a-number, and [set_model] goes
    from them to the solve. *)
Definition refit (outputs : ndarray flt) (model_grads : option grads_arg) : M unit :=
  (attach_model (Some (Evaluations outputs)) model_grads ;;;
   assign (set_statistics_object None) ;;;
   solve_coefficients)%py.

Definition fit_once : M unit :=
  (model_evaluations <- attr _model_evaluations ;;
   let indices_with_nans := np.argwhere_isnan_rows model_evaluations in
   (if negb (length indices_with_nans =? 0)
    then drop_nans model_evaluations indices_with_nans
           (fun outputs => refit outputs None)
    else ret tt) ;;;
   solve_coefficients)%py.

(** [m] ends within [I]: from a state in [I] it returns or raises, in a
    state in [I], and the bound on the depth of the calls is not met.  [m]
    never returns within [I]: from a state in [I] it raises, in a state in
    [I]. *)
Definition ends (I : Poly -> Prop) {A} (m : M A) : Prop :=
  forall self, I self ->
    match m self with
    | Returns _ self' => I self'
    | Raises _ self' => I self'
    | OutOfFuel => False
    end.

Definition never_returns (I : Poly -> Prop) {A} (m : M A) : Prop :=
  forall self, I self -> exists e self', m self = Raises e self' /\ I self'.

(** The object a call leaves behind, [otherwise] standing in when the
    embedding ran out of fuel; and whether the call returned. *)
Definition object_of {A} (o : outcome A) (otherwise : Poly) : Poly :=
  match o with
  | Returns _ self => self
  | Raises _ self => self
  | OutOfFuel => otherwise
  end.

Definition after {A} (m : M A) (self : Poly) : Poly := object_of (m self) self.

Definition returned {A} (o : outcome A) : bool :=
  match o with
  | Returns _ _ => true
  | _ => false
  end.

End Object.

Arguments Returns {F A} a self.
Arguments Raises {F A} e self.
Arguments OutOfFuel {F A}.

Delimit Scope method_scope with py.
Notation "x <- c ;; k" := (bind c (fun x => k))
  (at level 61, c at next level, right associativity) : method_scope.
Notation "c ;;; k" := (bind c (fun _ => k))
  (at level 61, right associativity) : method_scope.

(** ** Concrete scalars and collaborators

    Instances of the two interfaces, for running the methods on concrete
    inputs. *)

Module Demo.

Definition lift2 {A} (op : A -> A -> A) (x y : option A) : option A :=
  match x, y with
  | Some a, Some b => Some (op a b)
  | _, _ => None
  end.

Definition zcompare (x y : option Z) : comparison :=
  match x, y with
  | Some a, Some b => Z.compare a b
  | Some _, None => Lt
  | None, Some _ => Gt
  | None, None => Eq
  end.

(** The integers among the floats, and not-a-number ([None]), which sorts
    last.  Sum, product and order are those of floating point; quotient and
    square root are, where the floating-point result is again an integer. *)
Definition ZFloat : Scalar :=
  {| flt := option Z;
     f0 := Some 0%Z;
     f1 := Some 1%Z;
     fadd := lift2 Z.add;
     fmul := lift2 Z.mul;
     fdiv := fun x y => match y with
                        | Some 0%Z => None
                        | _ => lift2 Z.div x y
                        end;
     fsqrt := option_map Z.sqrt;
     fisnan := fun x => match x with None => true | Some _ => false end;
     fcompare := zcompare;
     f_of_Z := Some;
     fround := fun x => match x with Some z => z | None => 0%Z end |}.

Definition qsqrt (q : Q) : Q := Qmake (Z.sqrt (Qnum q)) (Pos.sqrt (Qden q)).

(** [np.round] on the rationals: to the nearest integer, and to the even one
    of the two when they are equally near. *)
Definition round_half_even (a : Q) : Z :=
  let n := Qfloor a in
  match Qcompare (Qminus a (inject_Z n)) (Qmake 1 2) with
  | Lt => n
  | Eq => if Z.even n then n else (n + 1)%Z
  | Gt => (n + 1)%Z
  end.

(** The rationals in lowest terms, and not-a-number: exact arithmetic.  The
    square root is exact on quotients of squares, and rounding is that of
    [np.round]. *)
Definition QFloat : Scalar :=
  {| flt := option Q;
     f0 := Some (Qmake 0 1);
     f1 := Some (Qmake 1 1);
     fadd := lift2 (fun a b => Qred (Qplus a b));
     fmul := lift2 (fun a b => Qred (Qmult a b));
     fdiv := fun x y => match y with
                        | Some b => if Qeq_bool b (Qmake 0 1) then None
                                    else lift2 (fun a b => Qred (Qdiv a b)) x y
                        | None => None
                        end;
     fsqrt := option_map (fun a => Qred (qsqrt a));
     fisnan := fun x => match x with None => true | Some _ => false end;
     fcompare := fun x y => match x, y with
                            | Some a, Some b => Qcompare a b
                            | Some _, None => Lt
                            | None, Some _ => Gt
                            | None, None => Eq
                            end;
     f_of_Z := fun z => Some (Qmake z 1);
     fround := fun x => match x with
                        | Some a => round_half_even a
                        | None => 0%Z
                        end |}.

(** The rationals that can be divided by. *)
Definition regular (s : option Q) : Prop :=
  match s with
  | Some a => Qeq_bool a (Qmake 0 1) = false
  | None => False
  end.

Section Collaborators.
Context {F : Scalar}.

Fixpoint power (x : flt) (k : nat) : flt :=
  match k with
  | O => f1
  | S k' => fmul x (power x k')
  end.

Definition flatten (x : points_arg) : list flt :=
  match x with
  | Stack a => concat (data a)
  | Column v => v
  end.

(** The monomials [x^k] for [k] up to the order asked for, with their first
    and second derivatives. *)
Definition monomial_tables (x : points_arg) (order : Z) : tables :=
  let xs := flatten x in
  let ks := seq 0 (Z.to_nat order + 1) in
  let table (f : nat -> flt -> flt) := mk_nd (length xs) (map (fun k => map (f k) xs) ks) in
  (table (fun k x => power x k),
   table (fun k x => fmul (f_of_Z (Z.of_nat k)) (power x (k - 1))),
   table (fun k x => fmul (f_of_Z (Z.of_nat (k * (k - 1)))) (power x (k - 2)))).

Definition monomial (order : Z) : Param :=
  {| order := order; _get_orthogonal_polynomial := monomial_tables |}.

(** Every multi-index below the given orders. *)
Fixpoint tensor_indices (orders : list Z) : list (list Z) :=
  match orders with
  | [] => [[]]
  | o :: os =>
      flat_map (fun k => map (cons (Z.of_nat k)) (tensor_indices os))
               (seq 0 (Z.to_nat o + 1))
  end.

Definition tensor_basis (basis_type : string) (orders : list Z) : Basis :=
  {| basis_type := basis_type;
     orders := orders;
     elements := mk_nd (length orders) (tensor_indices orders) |}.

(** The normal equations of a design with orthonormal columns: [A.T b]. *)
Definition projection : solver_fn :=
  fun A b _ =>
    match np.dot (np.transpose A) b with
    | Ok c => c
    | Raise _ => mk_nd 1 []
    end.

(** Collaborators around a given design generator: the generator hands back
    the points it is given, with unit weights, and its own [design]
    otherwise; the solver projects; the selector keeps the first rows; a
    basis is a tensor basis and is pruned from the end. *)
Definition externals (design : string -> Quadrature_t) : Externals :=
  {| Solver := fun _ _ => projection;
     Subsampling := fun _ _ m => map Z.of_nat (seq 0 (Z.to_nat m));
     Quadrature := fun _ _ points mesh =>
                     match points with
                     | Some x => {| q_points := x;
                                    q_weights := repeat f1 (shape0 x);
                                    q_list := [];
                                    sparse_weights := [] |}
                     | None => design mesh
                     end;
     Basis_new := tensor_basis;
     set_orders := fun orders b => tensor_basis (basis_type b) orders;
     prune := fun n b =>
                with_elements
                  (mk_nd (shape1 (elements b))
                         (firstn (cardinality b - Z.to_nat n) (data (elements b))))
                  b;
     matrix_rank := fun a => Z.of_nat (Nat.min (shape0 a) (shape1 a)) |}.

End Collaborators.

End Demo.

(** ** Example objects *)

Module Examples.

#[local] Existing Instance Demo.ZFloat.

Definition column (l : list Z) : ndarray flt := mk_nd 1 (map (fun z => [Some z]) l).

(** Four points on a line, with unit weights. *)
Definition line : Quadrature_t :=
  {| q_points := column [0; 1; 2; 3]%Z;
     q_weights := [Some 1; Some 1; Some 1; Some 1]%Z;
     q_list := [];
     sparse_weights := [] |}.

#[local] Instance line_externals : Externals := Demo.externals (fun _ => line).

Definition unset_basis : Basis :=
  {| basis_type := "tensor-grid"; orders := []; elements := mk_nd 0 [] |}.

(** [Poly(Parameter(order=2), Basis('tensor-grid'), method='least-squares')] *)
Definition construction : outcome unit :=
  __init__ (Parameters [Demo.monomial 2]) unset_basis (Some "least-squares"%string)
           None None.

Definition nothing : Poly :=
  initial_attributes (Parameters []) unset_basis None None None.

(** The object of [construction] when its constructor reaches
    [_set_points_and_weights]. *)
Definition before_design : Poly :=
  after (mesh_of_method ;;; override_defaults ;;; _set_solver ;;;
         _set_subsampling_algorithm)%py
    (set_highest_order (Some 2%Z)
       (initial_attributes (Parameters [Demo.monomial 2]) unset_basis
          (Some "least-squares"%string) None None)).

Definition constructed : Poly := object_of construction nothing.

(** A basis on the line, a basis on the plane, and points of each. *)
Definition line_basis : Basis := Demo.tensor_basis "tensor-grid" [2]%Z.

Definition plane_basis : Basis := Demo.tensor_basis "tensor-grid" [1; 2]%Z.

Definition plane_points : ndarray flt :=
  mk_nd 2 [[Some 1; Some 2]; [Some 3; Some 4]]%Z.

(** A sub-grid of two points of the line, and a sub-grid of one point with
    a global design that is not in increasing order. *)
Definition two_point_tensor : Tensor :=
  {| t_points := column [0; 2]%Z;
     t_weights := [Some 1; Some 1]%Z;
     t_basis := Demo.tensor_basis "tensor-grid" [1]%Z |}.

Definition one_point_tensor : Tensor :=
  {| t_points := column [1]%Z;
     t_weights := [Some 1]%Z;
     t_basis := Demo.tensor_basis "tensor-grid" [0]%Z |}.

Definition unsorted_design : ndarray flt := column [1; 0]%Z.

(** Sampling arguments with a mesh entry and with sample points. *)
Definition mesh_and_points : sampling_args_t :=
  {| sa_mesh := Some "monte-carlo"%string;
     sa_sampling_ratio := None;
     sa_subsampling_algorithm := None;
     sa_sample_points := Some (column [0; 1; 2]%Z);
     sa_sample_outputs := None |}.

(** A model given as a callable: the identity on the line. *)
Definition identity_model : list flt -> flt :=
  fun x => match x with
           | [a] => a
           | _ => None
           end.

(** Outputs with two columns. *)
Definition wide_outputs : ndarray flt :=
  mk_nd 2 [[Some 0; Some 0]; [Some 1; Some 1]; [Some 2; Some 4]; [Some 3; Some 9]]%Z.

(** [poly.set_model(f)], then [poly.get_mean_and_variance()] as far as the
    statistics object, then [poly._set_coefficients(c)]. *)
Definition fitted : Poly :=
  after (set_model 4 (Some (Callable identity_model)) None) constructed.

Definition with_statistics : Poly := after _set_statistics fitted.

Definition user_coefficients : ndarray flt := column [1; 1; 1]%Z.

Definition overwritten : Poly :=
  after (_set_coefficients 1 (Some user_coefficients)) with_statistics.

(** The object constructed with [sample-outputs] in its sampling
    arguments, gradients asked for. *)
Definition stored_outputs : ndarray flt := column [0; 1; 4; 9]%Z.

Definition constructed_with_outputs : Poly :=
  object_of
    (__init__ (Parameters [Demo.monomial 2]) unset_basis
              (Some "least-squares-with-gradients"%string)
              (Some {| sa_mesh := None; sa_sampling_ratio := None;
                       sa_subsampling_algorithm := None;
                       sa_sample_points := None;
                       sa_sample_outputs := Some stored_outputs |})
              None)
    nothing.

(** An array of floats from its integer entries; the parameters of the
    plane basis, and the tables [get_poly_grad] returns for them at the
    plane points. *)
Definition array (columns : nat) (rows : list (list Z)) : ndarray flt :=
  mk_nd columns (map (map Some) rows).

Definition plane_parameters : list Param := [Demo.monomial 1; Demo.monomial 2].

Definition plane_gradient_tables : list (ndarray flt) :=
  [array 2 [[0; 0]; [0; 0]; [0; 0]; [1; 1]; [2; 4]; [4; 16]]%Z;
   array 2 [[0; 0]; [1; 1]; [4; 8]; [0; 0]; [1; 3]; [4; 24]]%Z].

(** Evaluations of which two are not a number, on the object constructed
    and on the one with gradients asked for. *)
Definition nan_outputs : ndarray flt :=
  mk_nd 1 [[Some 1]; [None]; [None]; [Some 7]]%Z.

Definition with_nan : Poly :=
  after (attach_model (Some (Evaluations nan_outputs)) None) constructed.

Definition gradient_nan : Poly :=
  after (attach_model (Some (Evaluations nan_outputs))
                      (Some (GradEvaluations (column [0; 0; 0; 0]%Z))))
        constructed_with_outputs.

(** Evaluations of which one is not a number, on the object constructed,
    and the object after [_set_coefficients]. *)
Definition one_nan_outputs : ndarray flt :=
  mk_nd 1 [[Some 1]; [None]; [Some 5]; [Some 7]]%Z.

Definition with_one_nan : Poly :=
  after (attach_model (Some (Evaluations one_nan_outputs)) None) constructed.

Definition recovered : Poly := after (_set_coefficients 3 None) with_one_nan.

(** [poly.set_model(f)] again, on the object with its statistics. *)
Definition refitted : Poly :=
  after (set_model 4 (Some (Callable identity_model)) None) with_statistics.

End Examples.

(** A sparse grid on the line: the sub-grid of the point 1 with the constant
    alone, and the sub-grid of the points 0 and 2 with the constant and the
    linear term, combined with the weights -1 and 1. *)
Module SparseExamples.

#[local] Existing Instance Demo.ZFloat.

Definition inner_tensor : Tensor :=
  {| t_points := Examples.column [1]%Z;
     t_weights := [Some 1]%Z;
     t_basis := Demo.tensor_basis "tensor-grid" [0]%Z |}.

Definition outer_tensor : Tensor :=
  {| t_points := Examples.column [0; 2]%Z;
     t_weights := [Some 1; Some 1]%Z;
     t_basis := Demo.tensor_basis "tensor-grid" [1]%Z |}.

Definition sparse_line : Quadrature_t :=
  {| q_points := Examples.column [0; 1; 2]%Z;
     q_weights := [Some 1; Some 1; Some 1]%Z;
     q_list := [inner_tensor; outer_tensor];
     sparse_weights := [Some (-1); Some 1]%Z |}.

#[local] Instance sparse_externals : Externals := Demo.externals (fun _ => sparse_line).

Definition sparse_basis : Basis :=
  {| basis_type := "sparse-grid"; orders := []; elements := mk_nd 0 [] |}.

(** [Poly(Parameter(order=1), Basis('sparse-grid'), method='numerical-integration')],
    and the object when [set_model(f)] reaches [_set_coefficients]. *)
Definition constructed : Poly :=
  object_of (__init__ (Parameters [Demo.monomial 1]) sparse_basis
                      (Some "numerical-integration"%string) None None)
            Examples.nothing.

Definition attached : Poly :=
  after (attach_model (Some (Callable Examples.identity_model)) None ;;;
         assign (set_statistics_object None))%py constructed.

Definition fitted : Poly := after (_set_coefficients 1 None) attached.

End SparseExamples.

(** The corners of the unit square, with gradients asked for. *)
Module PlaneExamples.

#[local] Existing Instance Demo.ZFloat.

Definition grid : ndarray flt :=
  mk_nd 2 [[Some 0; Some 0]; [Some 0; Some 1]; [Some 1; Some 0]; [Some 1; Some 1]]%Z.

Definition plane : Quadrature_t :=
  {| q_points := grid;
     q_weights := [Some 1; Some 1; Some 1; Some 1]%Z;
     q_list := [];
     sparse_weights := [] |}.

#[local] Instance plane_externals : Externals := Demo.externals (fun _ => plane).

Definition bilinear : list Param := [Demo.monomial 1; Demo.monomial 1].

(** [Poly([Parameter(order=1), Parameter(order=1)], Basis('tensor-grid'),
    method='least-squares-with-gradients')] *)
Definition constructed : Poly :=
  object_of (__init__ (Parameters bilinear) Examples.unset_basis
                      (Some "least-squares-with-gradients"%string) None None)
            Examples.nothing.

(** The model [x + 2 y], its gradient, and both at the corners. *)
Definition model (x : list flt) : flt :=
  match x with
  | [a; b] => fadd a (fmul (Some 2%Z) b)
  | _ => None
  end.

Definition model_grads (x : list flt) : list flt := [Some 1; Some 2]%Z.

Definition evaluations : ndarray flt := evaluate_model grid model.

Definition gradients : ndarray flt := mk_nd 2 (repeat [Some 1; Some 2]%Z 4).

Definition fitted : Poly :=
  after (set_model 2 (Some (Evaluations evaluations))
                   (Some (GradEvaluations gradients)))
        constructed.

End PlaneExamples.

(** The same line with rational weights, for the subsampled designs. *)
Module RationalExamples.

#[local] Existing Instance Demo.QFloat.

Definition q (n d : Z) : flt := Some (Qred (Qmake n (Z.to_pos d))).

Definition column (l : list Z) : ndarray flt := mk_nd 1 (map (fun z => [q z 1]) l).

(** Four points on a line, each with weight 1/4. *)
Definition line : Quadrature_t :=
  {| q_points := column [0; 1; 2; 3]%Z;
     q_weights := [q 1 4; q 1 4; q 1 4; q 1 4];
     q_list := [];
     sparse_weights := [] |}.

#[local] Instance line_externals : Externals := Demo.externals (fun _ => line).

(** Before [_set_points_and_weights]: a quadratic basis on the line, the
    subsampling algorithm ['qr'] and the given sampling ratio. *)
Definition before_design (ratio : flt) : Poly :=
  let self :=
    initial_attributes (Parameters [Demo.monomial 2]) Examples.unset_basis
      (Some "least-squares"%string)
      (Some {| sa_mesh := None; sa_sampling_ratio := Some ratio;
               sa_subsampling_algorithm := Some "qr"%string;
               sa_sample_points := None; sa_sample_outputs := None |})
      None in
  after (mesh_of_method ;;; override_defaults ;;; _set_solver ;;;
         _set_subsampling_algorithm)%py (set_highest_order (Some 2%Z) self).

(** The design after subsampling, with the sampling ratios 1/3 and 2/3, and
    with the sampling ratio 1/10, for which [int(np.round(0.3))] points are
    asked of the selector. *)
Definition one_point : Poly := after _set_points_and_weights (before_design (q 1 3)).

Definition two_points : Poly := after _set_points_and_weights (before_design (q 2 3)).

Definition no_points : Poly := after _set_points_and_weights (before_design (q 1 10)).

End RationalExamples.

(** * Properties *)

(** ** Results *)

Lemma rmap_length {A B} (f : A -> result B) (l : list A) (ys : list B) :
  rmap f l = Ok ys -> length ys = length l.
Proof.
  revert ys; induction l as [|x l IH]; simpl; intros ys H.
  - inversion H; reflexivity.
  - destruct (f x) as [y|e]; simpl in H; [|discriminate].
    destruct (rmap f l) as [ys'|e]; simpl in H; [|discriminate].
    inversion H; subst; simpl; f_equal; apply IH; reflexivity.
Qed.

Lemma rmap_Forall2 {A B} (f : A -> result B) (l : list A) (ys : list B) :
  rmap f l = Ok ys -> Forall2 (fun x y => f x = Ok y) l ys.
Proof.
  revert ys; induction l as [|x l IH]; simpl; intros ys H.
  - inversion H; constructor.
  - destruct (f x) as [y|e] eqn:Hx; simpl in H; [|discriminate].
    destruct (rmap f l) as [ys'|e]; simpl in H; [|discriminate].
    inversion H; subst; constructor; auto.
Qed.

Lemma rmap_ok {A B} (f : A -> result B) (g : A -> B) (l : list A) :
  (forall x, In x l -> f x = Ok (g x)) -> rmap f l = Ok (map g l).
Proof.
  induction l as [|x l IH]; simpl; intros H; [reflexivity|].
  rewrite (H x (or_introl eq_refl)); simpl.
  rewrite IH by (intros; apply H; right; assumption); reflexivity.
Qed.

(** ** [np.unique] *)

Section UniqueFacts.
Context {A : Type} {cmp : A -> A -> comparison} {L : CmpLaws cmp}.

#[local] Abbreviation rcmp := (np.row_compare cmp).
#[local] Abbreviation row_lt := (np.row_lt cmp).
#[local] Abbreviation occurrences := (np.occurrences cmp).

Lemma row_compare_eq (r s : list A) : rcmp r s = Eq -> r = s.
Proof.
  revert s; induction r as [|x r IH]; intros [|y s]; simpl; try discriminate; auto.
  destruct (cmp x y) eqn:Hxy; try discriminate.
  intros H; apply cmp_eq in Hxy; subst; f_equal; auto.
Qed.

Lemma row_compare_refl (r : list A) : rcmp r r = Eq.
Proof.
  induction r as [|x r IH]; simpl; [reflexivity|].
  rewrite cmp_refl; assumption.
Qed.

Lemma row_compare_antisym (r s : list A) : rcmp r s = CompOpp (rcmp s r).
Proof.
  revert s; induction r as [|x r IH]; intros [|y s]; simpl; auto.
  rewrite (cmp_antisym x y).
  destruct (cmp y x); simpl; auto.
Qed.

Lemma row_compare_trans (r s t : list A) :
  rcmp r s = Lt -> rcmp s t = Lt -> rcmp r t = Lt.
Proof.
  revert s t; induction r as [|x r IH]; intros [|y s] [|z t]; simpl;
    try discriminate; auto.
  destruct (cmp x y) eqn:Hxy; try discriminate;
    destruct (cmp y z) eqn:Hyz; try discriminate; intros H1 H2.
  - apply cmp_eq in Hxy; apply cmp_eq in Hyz; subst.
    rewrite cmp_refl; eauto.
  - apply cmp_eq in Hxy; subst; rewrite Hyz; reflexivity.
  - apply cmp_eq in Hyz; subst; rewrite Hxy; reflexivity.
  - rewrite (cmp_trans _ _ _ Hxy Hyz); reflexivity.
Qed.

#[local] Instance row_laws : CmpLaws rcmp.
Proof.
  constructor.
  - exact row_compare_eq.
  - exact row_compare_refl.
  - exact row_compare_antisym.
  - exact row_compare_trans.
Qed.

Lemma row_eqb_eq (r s : list A) : np.row_eqb cmp r s = true <-> r = s.
Proof.
  unfold np.row_eqb; split.
  - destruct (rcmp r s) eqn:H; try discriminate; intros _.
    apply row_compare_eq; assumption.
  - intros ->; rewrite row_compare_refl; reflexivity.
Qed.

Lemma row_gt_lt (r s : list A) : rcmp r s = Gt -> row_lt s r.
Proof.
  unfold np.row_lt; rewrite (row_compare_antisym s r); intros ->; reflexivity.
Qed.

Lemma row_lt_gt (r s : list A) : row_lt r s -> rcmp s r = Gt.
Proof.
  unfold np.row_lt; rewrite (row_compare_antisym s r); intros ->; reflexivity.
Qed.

Lemma row_lt_irrefl (r : list A) : ~ row_lt r r.
Proof. unfold np.row_lt; rewrite row_compare_refl; discriminate. Qed.

Lemma insert_count_keys (r : list A) (l : list (list A * nat)) (x : list A) :
  In x (map fst (np.insert_count cmp r l)) <-> x = r \/ In x (map fst l).
Proof.
  induction l as [|[r' c] l IH]; simpl.
  - intuition auto.
  - destruct (rcmp r r') eqn:H; simpl.
    + apply row_compare_eq in H; subst; intuition auto.
    + intuition auto.
    + rewrite IH; intuition auto.
Qed.

Lemma insert_count_sorted (r : list A) (l : list (list A * nat)) :
  StronglySorted row_lt (map fst l) ->
  StronglySorted row_lt (map fst (np.insert_count cmp r l)).
Proof.
  induction l as [|[r' c] l IH]; simpl; intros Hs.
  - repeat constructor.
  - inversion Hs as [|? ? Hs' Hall]; subst.
    destruct (rcmp r r') eqn:H; simpl.
    + constructor; assumption.
    + constructor; [constructor; assumption|].
      constructor; [exact H|].
      rewrite Forall_forall in *; intros y Hy.
      eapply row_compare_trans; [exact H|apply Hall; assumption].
    + constructor; [apply IH; assumption|].
      rewrite Forall_forall in *; intros y Hy.
      apply insert_count_keys in Hy; destruct Hy as [->|Hy].
      * apply row_gt_lt; assumption.
      * apply Hall; assumption.
Qed.

Lemma unique_counts_sorted (rows : list (list A)) :
  StronglySorted row_lt (map fst (np.unique_counts cmp rows)).
Proof.
  induction rows as [|r rows IH]; simpl; [constructor|].
  apply insert_count_sorted; assumption.
Qed.

Lemma unique_counts_keys (rows : list (list A)) (x : list A) :
  In x (map fst (np.unique_counts cmp rows)) <-> In x rows.
Proof.
  induction rows as [|r rows IH]; simpl; [reflexivity|].
  rewrite insert_count_keys, IH; intuition auto.
Qed.

Lemma sorted_NoDup (l : list (list A)) : StronglySorted row_lt l -> NoDup l.
Proof.
  induction 1 as [|x l Hs IH Hall]; constructor; auto.
  intros Hin; rewrite Forall_forall in Hall.
  exact (row_lt_irrefl (Hall _ Hin)).
Qed.

(** A sorted table of counts in which the row [t] occurs gets that row's
    count raised, and nothing else changes. *)
Lemma insert_count_present (t : list A) (G : list (list A)) (c : list A -> nat) :
  StronglySorted row_lt G -> In t G ->
  np.insert_count cmp t (map (fun g => (g, c g)) G)
  = map (fun g => (g, if np.row_eqb cmp g t then S (c g) else c g)) G.
Proof.
  induction 1 as [|g G Hs IH Hall]; simpl; [contradiction|].
  rewrite Forall_forall in Hall.
  intros [->|Hin].
  - rewrite row_compare_refl.
    unfold np.row_eqb at 1; rewrite row_compare_refl.
    f_equal.
    apply map_ext_in; intros g Hg.
    destruct (np.row_eqb cmp g t) eqn:E; [|reflexivity].
    apply row_eqb_eq in E; subst.
    destruct (row_lt_irrefl (Hall _ Hg)).
  - rewrite (row_lt_gt (Hall _ Hin)).
    unfold np.row_eqb at 1; rewrite (Hall _ Hin).
    f_equal; apply IH; assumption.
Qed.

Lemma unique_counts_sorted_input (G : list (list A)) :
  StronglySorted row_lt G ->
  np.unique_counts cmp G = map (fun g => (g, 1)) G.
Proof.
  induction 1 as [|g G Hs IH Hall]; simpl; [reflexivity|].
  fold (np.unique_counts cmp G); rewrite IH.
  destruct G as [|g' G]; simpl; [reflexivity|].
  inversion Hall as [|? ? Hlt _]; subst.
  unfold np.row_lt in Hlt; rewrite Hlt; reflexivity.
Qed.

(** Stacking rows [T] taken from a sorted [G] on top of [G]: every row of
    [G] is counted once more than it occurs in [T]. *)
Lemma unique_counts_stacked (T G : list (list A)) :
  StronglySorted row_lt G -> incl T G ->
  np.unique_counts cmp (T ++ G)
  = map (fun g => (g, S (occurrences g T))) G.
Proof.
  intros Hs; induction T as [|t T IH]; intros Hincl.
  - simpl; apply unique_counts_sorted_input; assumption.
  - simpl; fold (np.unique_counts cmp (T ++ G)).
    rewrite IH by (intros x Hx; apply Hincl; right; assumption).
    rewrite insert_count_present;
      [|assumption|apply Hincl; left; reflexivity].
    apply map_ext; intros g; unfold np.occurrences; simpl.
    destruct (np.row_eqb cmp g t); reflexivity.
Qed.

End UniqueFacts.

(** ** Evaluator calls of the basis primitives *)

Section Requests.
Context {F : Scalar}.

Lemma lbind_ok {A B} (m : logged A) (k : A -> logged B) (b : B) :
  fst (lbind m k) = Ok b ->
  exists a, fst m = Ok a /\ fst (k a) = Ok b /\ snd (lbind m k) = snd m ++ snd (k a).
Proof.
  destruct m as [[a|e] l]; simpl; [|discriminate].
  destruct (k a) as [r l'] eqn:Hk; simpl; intros ->.
  exists a; rewrite Hk; auto.
Qed.

Lemma lift_ok {A} (r : result A) (a : A) :
  fst (lift r) = Ok a -> r = Ok a.
Proof. exact (fun H => H). Qed.

Lemma lfold_silent {A B} (f : A -> B -> logged A) (l : list B) (a : A) :
  (forall acc x, snd (f acc x) = []) -> snd (lfold f l a) = [].
Proof.
  intros Hf; revert a; induction l as [|x l IH]; intros a; cbn [lfold]; [reflexivity|].
  unfold lbind; specialize (Hf a x).
  destruct (f a x) as [[a'|e] l0]; cbn [snd] in *; subst; [|reflexivity].
  specialize (IH a'); destruct (lfold f l a') as [r l']; cbn [snd] in *.
  subst; reflexivity.
Qed.

Lemma lmap_silent {A B} (f : A -> logged B) (l : list A) :
  (forall x, snd (f x) = []) -> snd (lmap f l) = [].
Proof.
  intros Hf; induction l as [|x l IH]; cbn [lmap]; [reflexivity|].
  unfold lbind; specialize (Hf x).
  destruct (f x) as [[y|e] l0]; cbn [snd] in *; subst; [|reflexivity].
  destruct (lmap f l) as [[ys|e] l']; cbn [snd] in *; subst; reflexivity.
Qed.

(** The loop that fills the tables asks parameter [i] for the largest
    exponent of column [i] plus [extra], once, in the order of the
    dimensions. *)
Lemma orthogonal_tables_calls (ps : list Param) (x : ndarray flt)
    (basis : ndarray Z) (extra : Z) (ts : list tables) :
  fst (orthogonal_tables ps x basis extra) = Ok ts ->
  exists ms, largest_exponents basis = Ok ms /\
    snd (orthogonal_tables ps x basis extra)
    = combine (seq 0 (shape1 basis)) (map (fun m => (m + extra)%Z) ms).
Proof.
  unfold orthogonal_tables, largest_exponents.
  generalize (seq 0 (shape1 basis)) as l.
  intros l; revert ts; induction l as [|i l IH]; intros ts; cbn [lmap rmap].
  - intros _; exists []; auto.
  - intros H.
    apply lbind_ok in H; destruct H as (t & Ht & H & Hlog); rewrite Hlog.
    apply lbind_ok in H; destruct H as (ts' & Hts & _ & Hlog'); rewrite Hlog'.
    destruct (IH _ Hts) as (ms & Hms & Hcalls); rewrite Hms, Hcalls.
    apply lbind_ok in Ht; destruct Ht as (col & _ & Ht & Hl1); rewrite Hl1.
    apply lbind_ok in Ht; destruct Ht as (bcol & Hb & Ht & Hl2); rewrite Hl2.
    apply lbind_ok in Ht; destruct Ht as (m & Hm & Ht & Hl3); rewrite Hl3.
    apply lift_ok in Hb; apply lift_ok in Hm; rewrite Hb; cbn [rbind]; rewrite Hm.
    exists (m :: ms); split; [reflexivity|].
    unfold call_orthogonal_polynomial in *.
    destruct (nth_error ps i); cbn in *; [rewrite app_nil_r; reflexivity|discriminate].
Qed.

Lemma univariate_calls (ps : list Param) (x : ndarray flt) (basis : ndarray Z)
    {A} (pick : tables -> A) (a : A) :
  let run := lbind (lift (np.max (concat (data basis))))
               (fun m => lbind (call_orthogonal_polynomial ps 0 (Stack x) m)
                               (fun t => lret (pick t))) in
  fst run = Ok a ->
  exists m, np.max (concat (data basis)) = Ok m /\ snd run = [(0, m)].
Proof.
  intros run H; subst run.
  apply lbind_ok in H; destruct H as (m & Hm & H & Hlog); rewrite Hlog.
  apply lift_ok in Hm; exists m; split; [assumption|].
  apply lbind_ok in H; destruct H as (t & Ht & _ & Hlog'); rewrite Hlog'.
  unfold call_orthogonal_polynomial in *.
  destruct (nth_error ps 0); cbn in *; [reflexivity|discriminate].
Qed.

Lemma map_add_0 (ms : list Z) : map (fun m => (m + 0)%Z) ms = ms.
Proof.
  rewrite <- (map_id ms) at 2; apply map_ext; intros; lia.
Qed.

Lemma get_poly_calls (ps : list Param) (b : Basis) (x : ndarray flt)
    (P : ndarray flt) :
  fst (get_poly ps b x None) = Ok P ->
  if shape1 (elements b) =? 1
  then exists m, np.max (concat (data (elements b))) = Ok m /\
                 snd (get_poly ps b x None) = [(0, m)]
  else exists ms, largest_exponents (elements b) = Ok ms /\
                  snd (get_poly ps b x None)
                  = combine (seq 0 (shape1 (elements b))) ms.
Proof.
  unfold get_poly.
  destruct (shape1 (elements b) =? 1).
  - apply univariate_calls.
  - intros H.
    apply lbind_ok in H; destruct H as (p & Hp & _ & Hlog); rewrite Hlog.
    destruct (orthogonal_tables_calls _ _ _ _ Hp) as (ms & Hms & Hcalls).
    exists ms; split; [assumption|].
    rewrite Hcalls, map_add_0, lfold_silent, app_nil_r; [reflexivity|].
    intros acc k; destruct (nth_error p k); reflexivity.
Qed.

Lemma get_poly_grad_calls (ps : list Param) (b : Basis) (x : ndarray flt)
    (d : option (list nat)) (R : derivative_tables) :
  fst (get_poly_grad ps b x d) = Ok R ->
  if shape1 (elements b) =? 1
  then exists m, np.max (concat (data (elements b))) = Ok m /\
                 snd (get_poly_grad ps b x d) = [(0, m)]
  else exists ms, largest_exponents (elements b) = Ok ms /\
                  snd (get_poly_grad ps b x d)
                  = combine (seq 0 (shape1 (elements b))) ms.
Proof.
  unfold get_poly_grad.
  destruct (shape1 (elements b) =? 1).
  - apply univariate_calls.
  - intros H.
    apply lbind_ok in H; destruct H as (p & Hp & H & Hlog); rewrite Hlog.
    destruct (orthogonal_tables_calls _ _ _ _ Hp) as (ms & Hms & Hcalls).
    exists ms; split; [assumption|].
    apply lbind_ok in H; destruct H as (R' & _ & _ & Hlog'); rewrite Hlog'.
    rewrite Hcalls, map_add_0, lmap_silent, app_nil_r; [reflexivity|].
    intros v; destruct (negb _); [reflexivity|].
    apply lfold_silent; intros acc k; destruct (nth_error p k); reflexivity.
Qed.

Lemma get_poly_hess_calls (ps : list Param) (b : Basis) (x : ndarray flt)
    (H : derivative_tables) :
  fst (get_poly_hess ps b x) = Ok H ->
  if shape1 (elements b) =? 1
  then exists m, np.max (concat (data (elements b))) = Ok m /\
                 snd (get_poly_hess ps b x) = [(0, m)]
  else exists ms, largest_exponents (elements b) = Ok ms /\
                  snd (get_poly_hess ps b x)
                  = combine (seq 0 (shape1 (elements b)))
                            (map (fun m => (m + 1)%Z) ms).
Proof.
  unfold get_poly_hess.
  destruct (shape1 (elements b) =? 1).
  - apply univariate_calls.
  - intros E.
    apply lbind_ok in E; destruct E as (p & Hp & E & Hlog); rewrite Hlog.
    destruct (orthogonal_tables_calls _ _ _ _ Hp) as (ms & Hms & Hcalls).
    exists ms; split; [assumption|].
    apply lbind_ok in E; destruct E as (R' & _ & _ & Hlog'); rewrite Hlog'.
    rewrite Hcalls; cbn [lift lret snd]; rewrite !app_nil_r; reflexivity.
Qed.

End Requests.

(** ** Method calls: what a call leaves as it found it *)

Section Frames.
Context {F : Scalar} {X : Externals}.

(** [m] keeps [I]: from a state in [I] it ends, returning or raising, in a
    state in [I]. *)
Definition keeps (I : Poly -> Prop) {A} (m : M A) : Prop :=
  forall self, I self ->
    match m self with
    | Returns _ self' => I self'
    | Raises _ self' => I self'
    | OutOfFuel => True
    end.

Lemma keeps_ret I {A} (a : A) : keeps I (ret a).
Proof. intros self H; exact H. Qed.

Lemma keeps_raise I {A} (e : exn) : keeps I (raise e : M A).
Proof. intros self H; exact H. Qed.

Lemma keeps_read I {A} (f : Poly -> A) : keeps I (read f).
Proof. intros self H; exact H. Qed.

Lemma keeps_attr I {A} (f : Poly -> option A) : keeps I (attr f).
Proof. intros self H; unfold attr; destruct (f self); exact H. Qed.

Lemma keeps_pure I {A} (r : result A) : keeps I (pure r).
Proof. intros self H; unfold pure; destruct r; exact H. Qed.

Lemma keeps_evaluated I {A} (r : logged A) : keeps I (evaluated r).
Proof. apply keeps_pure. Qed.

Lemma keeps_assign (I : Poly -> Prop) (f : Poly -> Poly) :
  (forall self, I self -> I (f self)) -> keeps I (assign f).
Proof. intros Hf self H; apply Hf; exact H. Qed.

Lemma keeps_bind I {A B} (m : M A) (k : A -> M B) :
  keeps I m -> (forall a, keeps I (k a)) -> keeps I (bind m k).
Proof.
  intros Hm Hk self H; unfold bind.
  specialize (Hm self H); destruct (m self) as [a self'|e self'|]; auto.
  apply Hk; exact Hm.
Qed.

Lemma keeps_bind_raise I {A B} (e : exn) (k : A -> M B) :
  keeps I (bind (raise e) k).
Proof. intros self H; exact H. Qed.

Lemma keeps_for_each I {A} (l : list A) (body : A -> M unit) :
  (forall x, keeps I (body x)) -> keeps I (for_each l body).
Proof.
  intros Hb; induction l as [|x l IH]; simpl.
  - apply keeps_ret.
  - apply keeps_bind; auto.
Qed.

Lemma keeps_if I {A} (c : bool) (m1 m2 : M A) :
  keeps I m1 -> keeps I m2 -> keeps I (if c then m1 else m2).
Proof. destruct c; auto. Qed.

Lemma keeps_if_in I {A} (entry : option A) (body : A -> M unit) :
  (forall v, keeps I (body v)) -> keeps I (if_in entry body).
Proof. intros Hb; destruct entry; simpl; [apply Hb|apply keeps_ret]. Qed.

End Frames.

(** Walks through a method body, leaving the attribute assignments. *)
Ltac frame_step :=
  match goal with
  | |- keeps _ (bind (raise _) _) => apply keeps_bind_raise
  | |- keeps _ (ret _) => apply keeps_ret
  | |- keeps _ (raise _) => apply keeps_raise
  | |- keeps _ (read _) => apply keeps_read
  | |- keeps _ (attr _) => apply keeps_attr
  | |- keeps _ (pure _) => apply keeps_pure
  | |- keeps _ (evaluated _) => apply keeps_evaluated
  | |- keeps _ (bind _ _) => apply keeps_bind; [|intros ?]
  | |- keeps _ (if_in _ _) => apply keeps_if_in; intros ?
  | |- keeps _ (for_each _ _) => apply keeps_for_each; intros ?
  | |- keeps _ (print _) => unfold print
  | |- keeps _ (if _ then _ else _) => apply keeps_if
  | |- keeps _ (match ?x with _ => _ end) => destruct x
  | |- keeps _ (assign _) => apply keeps_assign; intros ? ?; cbn; try assumption
  end.

Ltac frame := repeat first [progress cbv zeta | frame_step].

(** Runs a method body in a hypothesis, a case for every way each step can
    end. *)
Ltac exec_step H :=
  match type of H with
  | context [match ?x with _ => _ end] =>
      lazymatch x with
      | context [match _ with _ => _ end] => fail
      | _ => destruct x eqn:?; try discriminate H
      end
  end.

Ltac exec H := repeat (cbn beta iota in H; exec_step H).

Section FrameFacts.
Context {F : Scalar} {X : Externals}.

Lemma keeps_print I (line : string) :
  (forall self out, I self -> I (set_stdout out self)) -> keeps I (print line).
Proof. intros H; apply keeps_assign; intros self Hs; apply H; exact Hs. Qed.

(** Nothing but [set_model]'s own gradient block assigns the flattened
    gradient evaluations. *)
Lemma _set_solver_keeps_gradients v :
  keeps (fun self => _gradient_evaluations self = v) _set_solver.
Proof. unfold _set_solver; frame. Qed.

Lemma _set_points_and_weights_keeps_gradients v :
  keeps (fun self => _gradient_evaluations self = v) _set_points_and_weights.
Proof. unfold _set_points_and_weights, retain_design; frame. Qed.

Lemma solve_coefficients_keeps_gradients v :
  keeps (fun self => _gradient_evaluations self = v) solve_coefficients.
Proof. unfold solve_coefficients; frame. Qed.

End FrameFacts.

(** ** Attaching a model *)

Section ModelAttachment.
Context {F : Scalar} {X : Externals}.

Lemma set_model_S (fuel : nat) model model_grads :
  set_model (S fuel) model model_grads
  = bind (attach_model model model_grads)
         (fun _ => bind (assign (set_statistics_object None))
                        (fun _ => _set_coefficients fuel None)).
Proof. reflexivity. Qed.

Lemma _set_coefficients_S (fuel : nat) :
  _set_coefficients (S fuel) None
  = bind (attr _model_evaluations)
         (fun model_evaluations =>
            let indices_with_nans := np.argwhere_isnan_rows model_evaluations in
            bind (if negb (length indices_with_nans =? 0)
                  then drop_nans model_evaluations indices_with_nans
                         (fun outputs => set_model fuel (Some (Evaluations outputs)) None)
                  else ret tt)
                 (fun _ => solve_coefficients)).
Proof. reflexivity. Qed.

Lemma _set_coefficients_user (fuel : nat) (c : ndarray flt) :
  _set_coefficients (S fuel) (Some c) = assign (set_coefficients (Some c)).
Proof. reflexivity. Qed.

(** Without a gradient argument the calls never reach the assignment of
    [_gradient_evaluations]. *)
Lemma attach_model_keeps_gradients v model :
  keeps (fun self => _gradient_evaluations self = v) (attach_model model None).
Proof. unfold attach_model; frame. Qed.

Lemma drop_nans_keeps_gradients v y idx (again : ndarray flt -> M unit) :
  (forall o, keeps (fun self => _gradient_evaluations self = v) (again o)) ->
  keeps (fun self => _gradient_evaluations self = v) (drop_nans y idx again).
Proof.
  intros H; unfold drop_nans; frame; auto.
  - apply _set_solver_keeps_gradients.
  - apply _set_points_and_weights_keeps_gradients.
Qed.

Lemma fit_keeps_gradients v (fuel : nat) :
  (forall model, keeps (fun self => _gradient_evaluations self = v)
                       (set_model fuel model None)) /\
  (forall c, keeps (fun self => _gradient_evaluations self = v)
                   (_set_coefficients fuel c)).
Proof.
  induction fuel as [|fuel [IHm IHc]].
  - split; intros ? self H; exact I.
  - split.
    + intros model; rewrite set_model_S; frame; auto.
      apply attach_model_keeps_gradients.
    + intros [c|].
      * rewrite _set_coefficients_user; frame.
      * rewrite _set_coefficients_S; frame.
        -- apply drop_nans_keeps_gradients; intros o; apply IHm.
        -- apply solve_coefficients_keeps_gradients.
Qed.

(** [set_model] leaves no statistics object behind. *)
Lemma _set_solver_keeps_no_statistics :
  keeps (fun self => statistics_object self = None) _set_solver.
Proof. unfold _set_solver; frame. Qed.

Lemma _set_points_and_weights_keeps_no_statistics :
  keeps (fun self => statistics_object self = None) _set_points_and_weights.
Proof. unfold _set_points_and_weights, retain_design; frame. Qed.

Lemma solve_coefficients_keeps_no_statistics :
  keeps (fun self => statistics_object self = None) solve_coefficients.
Proof. unfold solve_coefficients; frame. Qed.

Lemma attach_model_keeps_no_statistics model model_grads :
  keeps (fun self => statistics_object self = None) (attach_model model model_grads).
Proof. unfold attach_model, set_gradient_evaluations; frame. Qed.

Lemma fit_keeps_no_statistics (fuel : nat) :
  (forall model model_grads,
      keeps (fun self => statistics_object self = None)
            (set_model fuel model model_grads)) /\
  (forall c, keeps (fun self => statistics_object self = None)
                   (_set_coefficients fuel c)).
Proof.
  induction fuel as [|fuel [IHm IHc]].
  - split; intros; intros self H; exact I.
  - split.
    + intros model model_grads; rewrite set_model_S; frame; auto.
      apply attach_model_keeps_no_statistics.
    + intros [c|].
      * rewrite _set_coefficients_user; frame.
      * rewrite _set_coefficients_S; frame.
        -- unfold drop_nans; frame; auto.
           ++ apply _set_solver_keeps_no_statistics.
           ++ apply _set_points_and_weights_keeps_no_statistics.
        -- apply solve_coefficients_keeps_no_statistics.
Qed.

(** Whatever the model, the gradients and the path taken -- stored
    outputs, a callable, evaluations, the recovery from evaluations that are
    not a number -- a call of [set_model] that returns leaves the object
    without a statistics object: statistics are built again from the new
    coefficients. *)
Lemma set_model_clears_statistics (fuel : nat) model model_grads self self' :
  set_model fuel model model_grads self = Returns tt self' ->
  statistics_object self' = None.
Proof.
  destruct fuel as [|fuel]; [discriminate|].
  rewrite set_model_S; unfold bind at 1.
  destruct (attach_model model model_grads self) as [[] s1|e s1|]; try discriminate.
  unfold bind, assign.
  pose proof (proj2 (fit_keeps_no_statistics fuel) None
                (set_statistics_object None s1) eq_refl) as H.
  intros E; rewrite E in H; exact H.
Qed.

End ModelAttachment.

Section ModelAttachmentClaims.
Context {F : Scalar} {X : Externals}.

(** C7.  Given evaluations whose number of columns is not 1, every call of
    [set_model] raises and leaves the object as it found it, so that no
    coefficients are computed from those evaluations.  What is raised is
    never the [ValueError] that line 348 names: without a design the
    comparison of the rows with those of the design raises an
    AttributeError, with a design of another number of rows the assertion
    fails, and with a design of as many rows the column check raises the
    tuple of line 348, which Python 3 reports as a TypeError. *)
Theorem set_model_rejects_wide_outputs (fuel : nat) (y : ndarray flt)
    (model_grads : option grads_arg) (self : Poly) :
  shape1 y <> 1 ->
  set_model (S fuel) (Some (Evaluations y)) model_grads self
  = Raises match _quadrature_points self with
           | None => AttributeError
           | Some points =>
               if shape0 y =? shape0 points then RaisedTuple else AssertionError
           end
           self.
Proof.
  intros Hy; rewrite set_model_S.
  unfold bind, attach_model, read, attr, bind.
  destruct (outputs self); destruct (_quadrature_points self) as [points|];
    try reflexivity;
    (destruct (shape0 y =? shape0 points); cbn; [|reflexivity];
     destruct (shape1 y =? 1) eqn:E; [apply Nat.eqb_eq in E; contradiction|reflexivity]).
Qed.

(** C10.  With stored outputs and no model argument, [set_model] takes the
    stored outputs as they are for the model evaluations and goes straight
    to the coefficient solve: it compares neither their rows with the design
    nor their columns with 1, and whatever the gradient mode and the
    gradient argument, the call ends with [_gradient_evaluations] as it
    found it.  When the stored outputs hold no not-a-number the call is the
    solve on the stored outputs. *)
Theorem stored_outputs_adopted (fuel : nat) (model_grads : option grads_arg)
    (self : Poly) (out : ndarray flt) :
  outputs self = Some out ->
  let adopted := set_statistics_object None (set__model_evaluations (Some out) self) in
  set_model (S (S fuel)) None model_grads self = _set_coefficients (S fuel) None adopted
  /\ match set_model (S (S fuel)) None model_grads self with
     | Returns _ self' | Raises _ self' =>
         _gradient_evaluations self' = _gradient_evaluations self
     | OutOfFuel => True
     end
  /\ (np.argwhere_isnan_rows out = [] ->
      set_model (S (S fuel)) None model_grads self = solve_coefficients adopted).
Proof.
  intros Ho adopted.
  assert (E : set_model (S (S fuel)) None model_grads self
              = _set_coefficients (S fuel) None adopted).
  { rewrite set_model_S; unfold bind at 1, attach_model, bind at 1, read.
    rewrite Ho; reflexivity. }
  split; [exact E|split].
  - rewrite E.
    exact (proj2 (fit_keeps_gradients (_gradient_evaluations self) (S fuel))
                 None adopted eq_refl).
  - intros Hn; rewrite E, _set_coefficients_S.
    unfold bind at 1, attr; cbn [_model_evaluations adopted set_statistics_object
                                 set__model_evaluations].
    rewrite Hn; reflexivity.
Qed.

(** The early return of [_set_coefficients]: the coefficients are replaced
    and nothing else is. *)
Lemma _set_coefficients_user_defined (fuel : nat) (c : ndarray flt) (self : Poly) :
  _set_coefficients (S fuel) (Some c) self = Returns tt (set_coefficients (Some c) self)
  /\ statistics_object (set_coefficients (Some c) self) = statistics_object self.
Proof. split; reflexivity. Qed.

End ModelAttachmentClaims.

Section ModelAttachmentExamples.
Import Examples.
#[local] Existing Instance Demo.ZFloat.
#[local] Existing Instance line_externals.

Lemma set_model_rejects_wide_outputs_witness :
  shape1 wide_outputs <> 1
  /\ _quadrature_points constructed = Some (column [0; 1; 2; 3]%Z)
  /\ shape0 wide_outputs = 4
  /\ set_model 1 (Some (Evaluations wide_outputs)) None constructed
     = Raises RaisedTuple constructed.
Proof.
  split; [vm_compute; lia|].
  split; [reflexivity|].
  split; [reflexivity|].
  apply (set_model_rejects_wide_outputs 0 wide_outputs None constructed).
  vm_compute; lia.
Defined.

Lemma stored_outputs_adopted_witness :
  outputs constructed_with_outputs = Some stored_outputs
  /\ gradient_flag constructed_with_outputs = 1
  /\ set_model 2 None None constructed_with_outputs
     = solve_coefficients
         (set_statistics_object None
            (set__model_evaluations (Some stored_outputs) constructed_with_outputs)).
Proof.
  split; [vm_compute; reflexivity|].
  split; [vm_compute; reflexivity|].
  apply (stored_outputs_adopted 0 None constructed_with_outputs (out := stored_outputs)).
  - vm_compute; reflexivity.
  - vm_compute; reflexivity.
Defined.

(** C9.  The object of the example was fitted, and its statistics object
    built from the fitted coefficients 6, 14, 36; [_set_coefficients] with
    coefficients of the caller's then stores 1, 1, 1 and returns, and the
    statistics object of the old coefficients is still there. *)
Theorem user_defined_coefficients_keep_statistics :
  option_map stat_coefficients (statistics_object with_statistics)
  = Some (column [6; 14; 36]%Z)
  /\ coefficients overwritten = Some (column [1; 1; 1]%Z)
  /\ option_map stat_coefficients (statistics_object overwritten)
     = Some (column [6; 14; 36]%Z).
Proof. repeat split; vm_compute; reflexivity. Qed.

End ModelAttachmentExamples.


(** ** The design and its matrix *)

Section Design.
Context {F : Scalar} {X : Externals}.

(** Sums of quotients, in exact arithmetic. *)
Lemma sum_of_quotients (regular : flt -> Prop) (E : ExactDivision regular)
    (ws : list flt) (s a : flt) :
  fold_left fadd (map (fun w => fdiv w s) ws) (fdiv a s)
  = fdiv (fold_left fadd ws a) s.
Proof.
  revert a; induction ws as [|w ws IH]; intros a; simpl; [reflexivity|].
  rewrite <- div_add; apply IH.
Qed.

Lemma normalised_sum (regular : flt -> Prop) (E : ExactDivision regular)
    (ws : list flt) :
  regular (np.sum ws) ->
  np.sum (map (fun w => fdiv w (np.sum ws)) ws) = f1.
Proof.
  intros Hr; unfold np.sum at 1.
  rewrite <- (div_zero _ Hr) at 1.
  rewrite (sum_of_quotients E); apply div_self; exact Hr.
Qed.

Lemma int_round_ok (x : flt) (m : Z) : int_round x = Ok m -> m = fround x.
Proof. unfold int_round; destruct (fisnan x); congruence. Qed.

(** The outcome of [_set_points_and_weights], read off its text. *)
Lemma _set_points_and_weights_returns (self self' : Poly) (me : string) :
  mesh self = Some me ->
  _set_points_and_weights self = Returns tt self' ->
  let q := Quadrature (parameters self) (basis self) (inputs self) me in
  exists P A,
    fst (get_poly (parameters self) (basis self) (q_points q) None) = Ok P
    /\ weighted_basis P (q_weights q) = Ok A
    /\ self_A self' = Some A
    /\ quadrature self' = Some q
    /\ parameters self' = parameters self
    /\ basis self' = basis self
    /\ match subsampling_algorithm_name self with
       | Some _ =>
           exists select points_z weights_z,
             subsampling_algorithm_function self = Some select
             /\ let z := select A (fround (fmul (sampling_ratio self)
                                              (f_of_Z (Z.of_nat (shape1 A))))) in
                np.take_rows (q_points q) z = Ok points_z
                /\ np.take (q_weights q) z = Ok weights_z
                /\ _quadrature_points self' = Some points_z
                /\ _quadrature_weights self'
                   = Some (map (fun w => fdiv w (np.sum weights_z)) weights_z)
       | None =>
           _quadrature_points self' = Some (q_points q)
           /\ _quadrature_weights self' = Some (q_weights q)
       end.
Proof.
  intros Hm H q.
  unfold _set_points_and_weights, retain_design in H.
  unfold bind at 1, attr in H; rewrite Hm in H.
  unfold bind, read, assign, evaluated, pure, attr in H; cbn in H.
  fold q in H.
  exec H.
  all: try match goal with
           | E : int_round _ = Ok _ |- _ => apply int_round_ok in E; subst
           end.
  all: inversion H; subst self'; clear H; cbn in *.
  all: do 2 eexists; repeat split; eauto.
  do 3 eexists; repeat split; eauto.
Qed.

(** C2 (amended).  After [_set_points_and_weights] the stored matrix [A] is
    the square-root-weighted basis evaluation of the design the generator
    returned, with or without a subsampling algorithm; without one that
    design is the design the object holds, and [A] is its matrix. *)
Theorem design_matrix_of_generated_design (self self' : Poly) (me : string) :
  mesh self = Some me ->
  _set_points_and_weights self = Returns tt self' ->
  let q := Quadrature (parameters self) (basis self) (inputs self) me in
  exists P A,
    fst (get_poly (parameters self) (basis self) (q_points q) None) = Ok P
    /\ weighted_basis P (q_weights q) = Ok A
    /\ self_A self' = Some A
    /\ (subsampling_algorithm_name self = None ->
        _quadrature_points self' = Some (q_points q)
        /\ _quadrature_weights self' = Some (q_weights q)
        /\ final_design_matrix self' = Ok A).
Proof.
  intros Hm H q.
  destruct (_set_points_and_weights_returns self Hm H)
    as (P & A & HP & HA & HsA & _ & Hps & Hb & Hrest).
  exists P, A; do 3 (split; [assumption|]).
  intros Hn; rewrite Hn in Hrest; destruct Hrest as [Hp Hw].
  do 2 (split; [assumption|]).
  unfold final_design_matrix; rewrite Hp, Hw, Hps, Hb; cbn [of_option rbind].
  unfold q in *; rewrite HP; exact HA.
Qed.

(** C6 (amended).  With a subsampling algorithm the retained points are the generated
    points at the indices [z] the selector returns, and the retained weights
    are the generated weights at [z], each divided by their sum: in exact
    arithmetic, and with a sum that can be divided by, they add up to one.
    Without a subsampling algorithm points and weights are kept as the
    generator returned them. *)
Theorem retained_design (self self' : Poly) (me : string) :
  mesh self = Some me ->
  _set_points_and_weights self = Returns tt self' ->
  let q := Quadrature (parameters self) (basis self) (inputs self) me in
  match subsampling_algorithm_name self with
  | Some _ =>
      exists A select points_z weights_z,
        self_A self' = Some A
        /\ subsampling_algorithm_function self = Some select
        /\ let z := select A (fround (fmul (sampling_ratio self)
                                         (f_of_Z (Z.of_nat (shape1 A))))) in
           np.take_rows (q_points q) z = Ok points_z
           /\ np.take (q_weights q) z = Ok weights_z
           /\ _quadrature_points self' = Some points_z
           /\ _quadrature_weights self'
              = Some (map (fun w => fdiv w (np.sum weights_z)) weights_z)
           /\ (forall regular, ExactDivision regular ->
               regular (np.sum weights_z) ->
               np.sum (map (fun w => fdiv w (np.sum weights_z)) weights_z) = f1)
  | None =>
      _quadrature_points self' = Some (q_points q)
      /\ _quadrature_weights self' = Some (q_weights q)
  end.
Proof.
  intros Hm H q.
  destruct (_set_points_and_weights_returns self Hm H)
    as (P & A & HP & HA & HsA & _ & _ & _ & Hrest).
  destruct (subsampling_algorithm_name self); [|exact Hrest].
  destruct Hrest as (select & points_z & weights_z & Hs & Hp & Hw & Hqp & Hqw).
  exists A, select, points_z, weights_z; do 2 (split; [assumption|]).
  cbv zeta; do 4 (split; [assumption|]).
  intros regular E Hr; apply (normalised_sum E); exact Hr.
Qed.

End Design.

Section DesignExamples.

Lemma QFloat_exact : @ExactDivision Demo.QFloat Demo.regular.
Proof.
  constructor.
  - intros a b [s|]; [|destruct a, b; reflexivity].
    cbv [fdiv fadd Demo.QFloat Demo.lift2].
    destruct (Qeq_bool s (Qmake 0 1)) eqn:Hs;
      [destruct a, b; reflexivity|].
    destruct a as [a|], b as [b|]; try reflexivity.
    f_equal; apply Qred_complete.
    rewrite !Qred_correct.
    apply Qeq_bool_neq in Hs; field; exact Hs.
  - intros [s|] Hs; [|destruct Hs].
    cbv [fdiv f0 Demo.QFloat Demo.lift2 Demo.regular] in *; rewrite Hs.
    reflexivity.
  - intros [s|] Hs; [|destruct Hs].
    cbv [fdiv f1 Demo.QFloat Demo.lift2 Demo.regular] in *; rewrite Hs; f_equal.
    apply Qeq_bool_neq in Hs.
    change (Qmake 1 1) with (Qred (Qmake 1 1)); apply Qred_complete.
    field; exact Hs.
Qed.

Import RationalExamples.
#[local] Existing Instance Demo.QFloat.
#[local] Existing Instance line_externals.

(** C2, as stated, fails: with the subsampling algorithm ['qr'] and the
    sampling ratio 1/3 one point of four is kept, with weight 1; the stored
    [A] has the four rows of the generated design, and the matrix of the
    design the object holds has one. *)
Lemma design_matrix_counterexample :
  returned (_set_points_and_weights (before_design (q 1 3))) = true
  /\ _quadrature_points one_point = Some (column [0%Z])
  /\ _quadrature_weights one_point = Some [q 1 1]
  /\ ~ (forall A, self_A one_point = Some A -> final_design_matrix one_point = Ok A).
Proof.
  split; [vm_compute; reflexivity|].
  split; [vm_compute; reflexivity|].
  split; [vm_compute; reflexivity|].
  intros H.
  assert (E : self_A one_point
              = Some (mk_nd 3 [[q 1 2; q 0 1; q 0 1]; [q 1 2; q 1 2; q 1 2];
                               [q 1 2; q 1 1; q 2 1]; [q 1 2; q 3 2; q 9 2]]))
    by (vm_compute; reflexivity).
  specialize (H _ E); vm_compute in H; discriminate H.
Qed.

(** C6, as stated, fails: with the subsampling algorithm ['qr'] and the
    sampling ratio 1/10 on a basis of three terms the selector is asked for
    [int(np.round(0.3))] points, none; the call returns with no point and no
    weight retained, and the retained weights add up to zero, not to one. *)
Lemma retained_design_counterexample :
  subsampling_algorithm_name (before_design (q 1 10)) = Some "qr"%string
  /\ returned (_set_points_and_weights (before_design (q 1 10))) = true
  /\ _quadrature_points no_points = Some (column [])
  /\ _quadrature_weights no_points = Some []
  /\ ~ (forall w, _quadrature_weights no_points = Some w -> np.sum w = f1).
Proof.
  split; [vm_compute; reflexivity|].
  split; [vm_compute; reflexivity|].
  split; [vm_compute; reflexivity|].
  assert (E : _quadrature_weights no_points = Some []) by (vm_compute; reflexivity).
  split; [exact E|].
  intros H; specialize (H _ E); vm_compute in H; discriminate H.
Qed.

Lemma retained_design_witness :
  mesh (before_design (q 2 3)) = Some "tensor-grid"%string
  /\ _set_points_and_weights (before_design (q 2 3)) = Returns tt two_points
  /\ _quadrature_points two_points = Some (column [0; 1]%Z)
  /\ exists w, _quadrature_weights two_points = Some w /\ np.sum w = f1.
Proof.
  assert (Hm : mesh (before_design (q 2 3)) = Some "tensor-grid"%string)
    by (vm_compute; reflexivity).
  assert (Hr : _set_points_and_weights (before_design (q 2 3)) = Returns tt two_points)
    by (vm_compute; reflexivity).
  split; [exact Hm|]; split; [exact Hr|].
  pose proof (retained_design (before_design (q 2 3)) Hm Hr) as T.
  assert (Hn : subsampling_algorithm_name (before_design (q 2 3)) = Some "qr"%string)
    by (vm_compute; reflexivity).
  rewrite Hn in T.
  destruct T as (A & select & points_z & weights_z & HA & Hs & Hp & Hw & Hqp & Hqw & Hsum).
  vm_compute in HA; injection HA as <-.
  vm_compute in Hs; injection Hs as <-.
  vm_compute in Hp; injection Hp as <-.
  vm_compute in Hw; injection Hw as <-.
  split; [exact Hqp|].
  eexists; split; [exact Hqw|].
  apply (Hsum Demo.regular QFloat_exact); vm_compute; reflexivity.
Defined.

End DesignExamples.

Section DesignExamplesZ.
Import Examples.
#[local] Existing Instance Demo.ZFloat.
#[local] Existing Instance line_externals.

Lemma design_matrix_of_generated_design_witness :
  mesh before_design = Some "tensor-grid"%string
  /\ _set_points_and_weights before_design = Returns tt constructed
  /\ exists A, self_A constructed = Some A /\ final_design_matrix constructed = Ok A.
Proof.
  assert (Hm : mesh before_design = Some "tensor-grid"%string)
    by (vm_compute; reflexivity).
  assert (Hr : _set_points_and_weights before_design = Returns tt constructed)
    by (vm_compute; reflexivity).
  split; [exact Hm|]; split; [exact Hr|].
  destruct (design_matrix_of_generated_design before_design Hm Hr)
    as (P & A & _ & _ & HA & Hd).
  exists A; split; [exact HA|].
  apply Hd; vm_compute; reflexivity.
Defined.

End DesignExamplesZ.

(** ** What the basis primitives ask of the evaluators *)

(** C8 (amended).  For a basis of more than one dimension [get_poly_hess]
    asks the evaluator of every dimension for the largest exponent of that
    dimension plus one, where [get_poly] and [get_poly_grad] ask for the
    largest exponent; for a basis of one dimension all three ask the one
    evaluator for the largest exponent. *)
Theorem hessian_requests {F : Scalar} (ps : list Param) (b : Basis)
    (x : ndarray flt) (d : option (list nat)) (P : ndarray flt)
    (R H : derivative_tables) :
  fst (get_poly ps b x None) = Ok P ->
  fst (get_poly_grad ps b x d) = Ok R ->
  fst (get_poly_hess ps b x) = Ok H ->
  if shape1 (elements b) =? 1
  then exists m, np.max (concat (data (elements b))) = Ok m
                 /\ snd (get_poly ps b x None) = [(0, m)]
                 /\ snd (get_poly_grad ps b x d) = [(0, m)]
                 /\ snd (get_poly_hess ps b x) = [(0, m)]
  else exists ms, largest_exponents (elements b) = Ok ms
                  /\ snd (get_poly ps b x None)
                     = combine (seq 0 (shape1 (elements b))) ms
                  /\ snd (get_poly_grad ps b x d)
                     = combine (seq 0 (shape1 (elements b))) ms
                  /\ snd (get_poly_hess ps b x)
                     = combine (seq 0 (shape1 (elements b)))
                               (map (fun m => (m + 1)%Z) ms).
Proof.
  intros HP HR HH.
  apply get_poly_calls in HP; apply get_poly_grad_calls in HR;
    apply get_poly_hess_calls in HH.
  destruct (shape1 (elements b) =? 1).
  - destruct HP as (m & Hm & HP), HR as (m1 & Hm1 & HR), HH as (m2 & Hm2 & HH).
    rewrite Hm in Hm1, Hm2; injection Hm1 as <-; injection Hm2 as <-.
    exists m; auto.
  - destruct HP as (ms & Hm & HP), HR as (m1 & Hm1 & HR), HH as (m2 & Hm2 & HH).
    rewrite Hm in Hm1, Hm2; injection Hm1 as <-; injection Hm2 as <-.
    exists ms; auto.
Qed.

Section RequestExamples.
Import Examples.
#[local] Existing Instance Demo.ZFloat.

Lemma hessian_requests_witness :
  snd (get_poly [Demo.monomial 1; Demo.monomial 2] plane_basis plane_points None)
  = [(0, 1%Z); (1, 2%Z)]
  /\ snd (get_poly_hess [Demo.monomial 1; Demo.monomial 2] plane_basis plane_points)
     = [(0, 2%Z); (1, 3%Z)].
Proof.
  edestruct (hessian_requests [Demo.monomial 1; Demo.monomial 2] plane_basis
               plane_points None) as (ms & Hms & HP & _ & HH);
    [vm_compute; reflexivity ..|].
  vm_compute in Hms; injection Hms as <-.
  split; [exact HP|exact HH].
Defined.

(** C8, as stated, fails on the line: the largest exponent of the basis
    0, 1, 2 is 2, and [get_poly_hess] asks the evaluator for order 2. *)
Lemma hessian_univariate_counterexample :
  snd (get_poly_hess [Demo.monomial 2] line_basis (column [1; 2; 3]%Z)) = [(0, 2%Z)]
  /\ ~ hessian_asks_one_more [Demo.monomial 2] line_basis (column [1; 2; 3]%Z).
Proof.
  split; [vm_compute; reflexivity|].
  intros H.
  destruct (H 0 2%Z) as (ms & m & Hms & Hm & Ho); [vm_compute; auto|].
  vm_compute in Hms; injection Hms as <-.
  injection Hm as <-; discriminate Ho.
Qed.

End RequestExamples.

(** ** Construction *)

Section Construction.
Context {F : Scalar} {X : Externals}.

Lemma np_max_cons (z : Z) (l : list Z) : exists m, np.max (z :: l) = Ok m.
Proof. eexists; reflexivity. Qed.

(** The three calls that end the constructor assign the solver, the
    subsampling function, the quadrature and the design, and leave what was
    resolved before them alone. *)
Lemma construct_collaborators (self : Poly) :
  match (_set_solver ;;; _set_subsampling_algorithm ;;; _set_points_and_weights)%py self with
  | Returns _ self' | Raises _ self' =>
      mesh self' = mesh self
      /\ inputs self' = inputs self
      /\ gradient_flag self' = gradient_flag self
      /\ solver self' = Some (Solver (method self) (solver_args self))
      /\ subsampling_algorithm_function self'
         = Some (Subsampling (subsampling_algorithm_name self))
      /\ (forall me, mesh self = Some me ->
          quadrature self'
          = Some (Quadrature (parameters self) (basis self) (inputs self) me))
  | OutOfFuel => False
  end.
Proof.
  unfold _set_solver, _set_subsampling_algorithm, _set_points_and_weights, retain_design.
  unfold bind, read, assign, attr, evaluated, pure; cbn.
  destruct (mesh self) as [me|] eqn:Hm; cbn.
  2: { repeat split; try reflexivity; try assumption; discriminate. }
  repeat match goal with
         | |- context [match ?x with _ => _ end] =>
             lazymatch x with
             | context [match _ with _ => _ end] => fail
             | _ => destruct x eqn:?; cbn
             end
         end.
  all: repeat split; try reflexivity; try assumption.
  all: intros me' E; injection E as <-; reflexivity.
Qed.

(** Lines 88-108, whatever follows them: the defaults of the method, then
    the entries of the sampling arguments. *)
Lemma resolve_then (K : M unit) (self : Poly) (m : string) :
  method self = Some m ->
  exists resolved,
    (mesh_of_method ;;; override_defaults ;;; K)%py self = K resolved
    /\ mesh resolved
       = keep (resolved_mesh (basis_type (basis self)) m (sampling_args self)) (mesh self)
    /\ gradient_flag resolved
       = (if String.eqb m "least-squares-with-gradients" then 1 else gradient_flag self)
    /\ inputs resolved = keep (entry (sampling_args self) sa_sample_points) (inputs self)
    /\ outputs resolved = keep (entry (sampling_args self) sa_sample_outputs) (outputs self)
    /\ sampling_ratio resolved
       = match entry (sampling_args self) sa_sampling_ratio with
         | Some ratio => ratio
         | None => sampling_ratio self
         end
    /\ subsampling_algorithm_name resolved
       = keep (entry (sampling_args self) sa_subsampling_algorithm)
              (subsampling_algorithm_name self)
    /\ solver resolved = solver self
    /\ subsampling_algorithm_function resolved = subsampling_algorithm_function self
    /\ quadrature resolved = quadrature self
    /\ _quadrature_points resolved = _quadrature_points self
    /\ parameters resolved = parameters self
    /\ basis resolved = basis self
    /\ method resolved = method self
    /\ solver_args resolved = solver_args self.
Proof.
  intros Hm.
  unfold mesh_of_method, override_defaults, bind, read, assign, if_in, ret, py_eq,
    resolved_mesh, method_mesh, entry, keep.
  rewrite Hm.
  repeat match goal with
         | |- context [String.eqb m ?s] =>
             let E := fresh "E" in
             destruct (String.eqb m s) eqn:E;
             [apply String.eqb_eq in E; subst m|]
         end.
  all: cbn.
  all: destruct (sampling_args self) as [[am ar an ap ao]|]; cbn.
  all: try (destruct am, ar, an, ap, ao; cbn).
  all: (eexists; split; [reflexivity|]; cbn; repeat split;
        first [reflexivity|assumption]).
Qed.

(** C5.  With a method given, the constructor first settles the mesh --
    the method's own, replaced by a mesh entry of the sampling arguments,
    replaced by user-defined when sample points are given, which are stored
    -- with the sampling ratio, the subsampling algorithm and the gradient
    mode; at that point no solver, subsampling function or quadrature has
    been built, and the three calls that build them work from what was
    settled. *)
Theorem construction_resolves_mesh (params : parameters_arg) (basis0 : Basis)
    (method0 : string) (args : option sampling_args_t)
    (solver_args0 : option solver_args_t) :
  let self0 := initial_attributes params basis0 (Some method0) args solver_args0 in
  parameters_order self0 <> [] ->
  exists resolved,
    __init__ params basis0 (Some method0) args solver_args0
    = (_set_solver ;;; _set_subsampling_algorithm ;;; _set_points_and_weights)%py resolved
    /\ solver resolved = None
    /\ subsampling_algorithm_function resolved = None
    /\ quadrature resolved = None
    /\ _quadrature_points resolved = None
    /\ mesh resolved = resolved_mesh (basis_type (basis self0)) method0 args
    /\ gradient_flag resolved
       = (if String.eqb method0 "least-squares-with-gradients" then 1 else 0)
    /\ inputs resolved = entry args sa_sample_points
    /\ outputs resolved = entry args sa_sample_outputs
    /\ sampling_ratio resolved
       = match entry args sa_sampling_ratio with
         | Some ratio => ratio
         | None => f1
         end
    /\ subsampling_algorithm_name resolved = entry args sa_subsampling_algorithm
    /\ match __init__ params basis0 (Some method0) args solver_args0 with
       | Returns _ self | Raises _ self =>
           mesh self = mesh resolved
           /\ inputs self = inputs resolved
           /\ solver self = Some (Solver (Some method0) solver_args0)
           /\ subsampling_algorithm_function self
              = Some (Subsampling (entry args sa_subsampling_algorithm))
           /\ (forall me, mesh resolved = Some me ->
               quadrature self
               = Some (Quadrature (parameters self0) (basis self0)
                                  (inputs resolved) me))
       | OutOfFuel => False
       end.

Proof.
  intros self0 Hne.
  assert (Hmax : exists hi, np.max (parameters_order self0) = Ok hi).
  { destruct (parameters_order self0); [contradiction|eexists; reflexivity]. }
  destruct Hmax as [hi Hhi].
  assert (E0 : __init__ params basis0 (Some method0) args solver_args0
               = (mesh_of_method ;;; override_defaults ;;; _set_solver ;;;
                  _set_subsampling_algorithm ;;; _set_points_and_weights)%py
                   (set_highest_order (Some hi) self0)).
  { unfold __init__; fold self0.
    change (map order match params with
                      | OneParameter p => [p]
                      | Parameters ps => ps
                      end) with (parameters_order self0).
    unfold bind at 1, pure at 1; rewrite Hhi; reflexivity. }
  destruct (resolve_then
              (_set_solver ;;; _set_subsampling_algorithm ;;; _set_points_and_weights)%py
              (set_highest_order (Some hi) self0) (m := method0) eq_refl)
    as (resolved & E & Hmesh & Hg & Hi & Ho & Hr & Hn & Hs & Hf & Hq & Hp
        & Hps & Hb & Hmeth & Hsa).
  cbn in Hmesh, Hg, Hi, Ho, Hr, Hn, Hs, Hf, Hq, Hp, Hps, Hb, Hmeth, Hsa.
  unfold keep in *.
  exists resolved; rewrite E0, E.
  split; [reflexivity|].
  do 4 (split; [assumption|]).
  split; [rewrite Hmesh; destruct (resolved_mesh _ _ _); reflexivity|].
  split; [assumption|].
  split; [rewrite Hi; destruct (entry args sa_sample_points); reflexivity|].
  split; [rewrite Ho; destruct (entry args sa_sample_outputs); reflexivity|].
  split; [assumption|].
  split; [rewrite Hn; destruct (entry args sa_subsampling_algorithm); reflexivity|].
  pose proof (construct_collaborators resolved) as CC.
  destruct ((_set_solver ;;; _set_subsampling_algorithm ;;; _set_points_and_weights)%py
              resolved) as [[] self|e self|]; [| |exact CC].
  all: destruct CC as (C1 & C2 & _ & C4 & C5 & C6).
  all: rewrite Hmeth, Hsa in C4; rewrite Hn in C5; rewrite Hps, Hb in C6.
  all: repeat split; try assumption.
  all: rewrite C5; destruct (entry args sa_subsampling_algorithm); reflexivity.
Qed.

End Construction.

Section ConstructionExamples.
Import Examples.
#[local] Existing Instance Demo.ZFloat.
#[local] Existing Instance line_externals.

Lemma construction_resolves_mesh_witness :
  parameters_order
    (initial_attributes (Parameters [Demo.monomial 2]) unset_basis
       (Some "least-squares-with-gradients"%string) (Some mesh_and_points) None)
  <> []
  /\ mesh (object_of (__init__ (Parameters [Demo.monomial 2]) unset_basis
                               (Some "least-squares-with-gradients"%string)
                               (Some mesh_and_points) None)
                     nothing)
     = Some "user-defined"%string
  /\ inputs (object_of (__init__ (Parameters [Demo.monomial 2]) unset_basis
                                 (Some "least-squares-with-gradients"%string)
                                 (Some mesh_and_points) None)
                       nothing)
     = Some (column [0; 1; 2]%Z).
Proof.
  assert (H : parameters_order
                (initial_attributes (Parameters [Demo.monomial 2]) unset_basis
                   (Some "least-squares-with-gradients"%string)
                   (Some mesh_and_points) None) <> [])
    by (vm_compute; discriminate).
  split; [exact H|].
  destruct (construction_resolves_mesh (Parameters [Demo.monomial 2]) unset_basis
              "least-squares-with-gradients" (Some mesh_and_points) None H)
    as (resolved & _ & _ & _ & _ & _ & Hmesh & _ & Hi & _ & _ & _ & Hfinal).
  unfold object_of.
  destruct (__init__ (Parameters [Demo.monomial 2]) unset_basis
                     (Some "least-squares-with-gradients"%string)
                     (Some mesh_and_points) None) as [[] self|e self|];
    [| |destruct Hfinal].
  all: destruct Hfinal as (Hm & Hin & _); rewrite Hm, Hin, Hmesh, Hi.
  all: split; vm_compute; reflexivity.
Defined.

End ConstructionExamples.

(** ** The right-hand side of a sub-grid *)

Section Positions.
Context {A : Type}.

(** Positions of a list, paired with its entries. *)
Lemma in_combine_seq (l : list A) (a i : nat) (x : A) :
  In (i, x) (combine (seq a (length l)) l) <-> a <= i /\ nth_error l (i - a) = Some x.
Proof.
  revert a; induction l as [|y l IH]; intros a; simpl.
  - split; [contradiction|]. intros [_ H]; destruct (i - a); discriminate.
  - rewrite IH; split.
    + intros [E|[Hle H]].
      * injection E as <- <-; rewrite Nat.sub_diag; split; [lia|reflexivity].
      * split; [lia|]. replace (i - a) with (S (i - S a)) by lia; exact H.
    + intros [Hle H].
      destruct (Nat.eq_dec i a) as [->|Hne].
      * rewrite Nat.sub_diag in H; injection H as <-; left; reflexivity.
      * right; split; [lia|].
        replace (i - a) with (S (i - S a)) in H by lia; exact H.
Qed.

Lemma positions_in (f : A -> bool) (l : list A) (i : nat) :
  In i (map fst (filter (fun p => f (snd p)) (combine (seq 0 (length l)) l)))
  <-> exists x, nth_error l i = Some x /\ f x = true.
Proof.
  rewrite in_map_iff; split.
  - intros ([j x] & <- & H); apply filter_In in H; destruct H as [H Hf].
    apply in_combine_seq in H; destruct H as [_ H].
    rewrite Nat.sub_0_r in H; exists x; auto.
  - intros (x & H & Hf); exists (i, x); split; [reflexivity|].
    apply filter_In; split; [|exact Hf].
    apply in_combine_seq; rewrite Nat.sub_0_r; split; [lia|exact H].
Qed.

Lemma positions_length (f : A -> bool) (l : list A) (a : nat) :
  length (filter (fun p => f (snd p)) (combine (seq a (length l)) l))
  = length (filter f l).
Proof.
  revert a; induction l as [|x l IH]; intros a; simpl; [reflexivity|].
  destruct (f x); simpl; rewrite IH; reflexivity.
Qed.

Lemma positions_sorted (f : A -> bool) (l : list A) (a : nat) :
  StronglySorted lt
    (map fst (filter (fun p => f (snd p)) (combine (seq a (length l)) l))).
Proof.
  revert a; induction l as [|x l IH]; intros a; simpl; [constructor|].
  destruct (f x); simpl; [|apply IH].
  constructor; [apply IH|].
  apply Forall_forall; intros i Hi.
  apply in_map_iff in Hi; destruct Hi as ([j y] & <- & H).
  apply filter_In in H; destruct H as [H _].
  apply in_combine_seq in H; simpl; lia.
Qed.

End Positions.

Section SparseRhs.
Context {F : Scalar} {L : CmpLaws fcompare}.

#[local] Existing Instance row_laws.

Lemma occurrences_NoDup (g : list flt) (T : list (list flt)) :
  NoDup T ->
  np.occurrences fcompare g T = 1 <-> In g T.
Proof.
  unfold np.occurrences.
  induction 1 as [|t T Hnin HT IH]; simpl.
  - split; [discriminate|contradiction].
  - destruct (np.row_eqb fcompare g t) eqn:E; simpl.
    + apply row_eqb_eq in E; subst t; split; [auto|intros _].
      f_equal.
      destruct (filter (np.row_eqb fcompare g) T) as [|x l] eqn:Hf; [reflexivity|].
      assert (Hx : In x (filter (np.row_eqb fcompare g) T)) by (rewrite Hf; left; reflexivity).
      apply filter_In in Hx; destruct Hx as [Hx Hxe].
      apply row_eqb_eq in Hxe; subst x; contradiction.
    + rewrite IH; split; [auto|].
      intros [->|H]; [|exact H].
      rewrite (proj2 (row_eqb_eq g g) eq_refl) in E; discriminate.
Qed.

Lemma filter_map_swap {A B} (f : B -> bool) (g : A -> B) (l : list A) :
  filter f (map g l) = map g (filter (fun x => f (g x)) l).
Proof.
  induction l as [|x l IH]; simpl; [reflexivity|].
  destruct (f (g x)); simpl; rewrite IH; reflexivity.
Qed.

Lemma item_of_nat {A} (l : list A) (i : nat) :
  np.item l (Z.of_nat i) = of_option IndexError (nth_error l i).
Proof.
  unfold np.item.
  destruct (Z.of_nat i <? 0)%Z eqn:E; [apply Z.ltb_lt in E; lia|].
  rewrite Nat2Z.id; reflexivity.
Qed.

Lemma take_of_nat {A} (l : list A) (idx : list nat) :
  Forall (fun i => i < length l) idx ->
  exists rows, np.take l (map Z.of_nat idx) = Ok rows
               /\ Forall2 (fun i y => nth_error l i = Some y) idx rows.
Proof.
  unfold np.take; induction 1 as [|i idx Hi _ IH]; simpl.
  - exists []; split; [reflexivity|constructor].
  - destruct IH as (rows & -> & Hrows).
    rewrite item_of_nat.
    destruct (nth_error l i) as [y|] eqn:Hy;
      [|apply nth_error_None in Hy; lia].
    exists (y :: rows); split; [reflexivity|constructor; assumption].
Qed.

(** Where the rows of a sorted global design that lie in the sub-grid are:
    lines 405-406 on a global design in lexicographic order that holds the
    points of the sub-grid. *)
Lemma shared_rows_sorted (T G : ndarray flt) :
  shape1 T = shape1 G ->
  StronglySorted (np.row_lt fcompare) (data G) ->
  NoDup (data T) ->
  incl (data T) (data G) ->
  exists indices,
    shared_rows T G = Ok (map Z.of_nat indices)
    /\ (forall i, In i indices <->
                  exists g, nth_error (data G) i = Some g /\ In g (data T))
    /\ StronglySorted lt indices
    /\ length indices = shape0 T.
Proof.
  intros Hshape Hsorted Hnodup Hincl.
  unfold shared_rows, np.vstack.
  rewrite Hshape, Nat.eqb_refl; cbn [rbind data].
  rewrite (unique_counts_stacked Hsorted Hincl), !map_map; cbn [snd].
  set (count := fun g => S (np.occurrences fcompare g (data T))).
  set (counts := map count (data G)).
  exists (map fst (filter (fun p => snd p =? 2)
                          (combine (seq 0 (length counts)) counts))).
  split; [rewrite map_map; reflexivity|].
  assert (Hcount : forall g, (count g =? 2) = true <-> In g (data T)).
  { intros g; unfold count; rewrite Nat.eqb_eq, <- (occurrences_NoDup g Hnodup); lia. }
  split; [|split].
  - intros i; rewrite (positions_in (fun c => c =? 2)).
    unfold counts; split.
    + intros (c & Hc & E).
      rewrite nth_error_map in Hc.
      destruct (nth_error (data G) i) as [g|]; [|discriminate].
      injection Hc as <-; exists g; split; [reflexivity|apply Hcount; exact E].
    + intros (g & Hg & Hin); exists (count g); split.
      * rewrite nth_error_map, Hg; reflexivity.
      * apply Hcount; exact Hin.
  - apply (positions_sorted (fun c => c =? 2)).
  - rewrite length_map, (positions_length (fun c => c =? 2)).
    unfold counts; clear counts.
    rewrite filter_map_swap, length_map.
    unfold shape0; apply Permutation_length, NoDup_Permutation.
    + apply NoDup_filter, (sorted_NoDup Hsorted).
    + exact Hnodup.
    + intros g; rewrite filter_In, Hcount; split; [tauto|].
      intros H; split; [apply Hincl|]; exact H.
Qed.


End SparseRhs.

Section SparseRhsExamples.
Import Examples.
#[local] Existing Instance Demo.ZFloat.

Lemma ZFloat_order : CmpLaws Demo.zcompare.
Proof.
  constructor.
  - intros [x|] [y|]; simpl; try discriminate; [|reflexivity].
    intros H; apply Z.compare_eq in H; subst; reflexivity.
  - intros [x|]; simpl; [apply Z.compare_refl|reflexivity].
  - intros [x|] [y|]; simpl; try reflexivity; apply Z.compare_antisym.
  - intros [x|] [y|] [z|]; simpl; try discriminate; try reflexivity.
    rewrite !Z.compare_lt_iff; lia.
Qed.



End SparseRhsExamples.

(** ** The sparse-grid fit *)

Section Stacks.
Context {F : Scalar} {X : Externals}.

Lemma delete_last_aux {A} (rows : list (list A)) (g : list A) (a : nat) :
  map snd (filter (fun p => negb (existsb (Nat.eqb (fst p)) [a + length rows]))
                  (combine (seq a (length (rows ++ [g]))) (rows ++ [g])))
  = rows.
Proof.
  revert a; induction rows as [|r rows IH]; intros a; simpl.
  - rewrite Nat.add_0_r, Nat.eqb_refl; reflexivity.
  - destruct (a =? a + S (length rows)) eqn:E; [apply Nat.eqb_eq in E; lia|].
    simpl; f_equal.
    replace (a + S (length rows)) with (S a + length rows) by lia.
    apply IH.
Qed.

Lemma delete_last_row {A} (d : nat) (rows : list (list A)) (g : list A) :
  np.delete_rows (mk_nd d (rows ++ [g])) [shape0 (mk_nd d (rows ++ [g])) - 1]
  = Ok (mk_nd d rows).
Proof.
  unfold np.delete_rows, np.without_rows, shape0; cbn [data shape1 forallb].
  rewrite length_app; cbn [length].
  replace (length rows + 1 - 1) with (0 + length rows) by lia.
  destruct (0 + length rows <? length rows + 1) eqn:E;
    [|apply Nat.ltb_ge in E; lia].
  cbn [andb]; f_equal; f_equal.
  rewrite <- (delete_last_aux rows g 0) at 3.
  rewrite length_app; reflexivity.
Qed.

Lemma delete_last_item {A} (l : list A) (g : A) :
  np.delete_item (l ++ [g]) (length l) = Ok l.
Proof.
  unfold np.delete_item.
  rewrite length_app; cbn [length].
  destruct (length l <? length l + 1) eqn:E; [|apply Nat.ltb_ge in E; lia].
  rewrite firstn_app, firstn_all, Nat.sub_diag; cbn [firstn].
  rewrite skipn_app, skipn_all2 by lia.
  replace (S (length l) - length l) with 1 by lia; cbn [skipn].
  rewrite !app_nil_r; reflexivity.
Qed.

Lemma concat_singletons {A} (rows : list (list A)) :
  Forall (fun r => length r = 1) rows -> length (concat rows) = length rows.
Proof.
  induction 1 as [|r rows Hr _ IH]; simpl; [reflexivity|].
  rewrite length_app, Hr, IH; reflexivity.
Qed.

(** The terms of a unique multi-index: the coefficients stacked against
    rows equal to it, in the order of the stack. *)
Lemma sum_matching_aux (u : list Z) (rows : list (list Z)) (flat : list flt)
    (a : nat) (total : flt) :
  a + length rows <= length flat ->
  fold_left
    (fun total jrow =>
       rbind total (fun total =>
         if np.row_eqb Z.compare u (snd jrow)
         then rbind (of_option IndexError (nth_error flat (fst jrow)))
                    (fun c => Ok (fadd total c))
         else Ok total))
    (combine (seq a (length rows)) rows) (Ok total)
  = Ok (fold_left fadd
          (map snd (filter (fun t => np.row_eqb Z.compare u (fst t))
                           (combine rows (skipn a flat))))
          total).
Proof.
  revert a total; induction rows as [|r rows IH]; intros a total Hlen; simpl.
  - reflexivity.
  - simpl in Hlen.
    destruct (skipn a flat) as [|c rest] eqn:Hs.
    { assert (length (skipn a flat) = 0) by (rewrite Hs; reflexivity).
      rewrite length_skipn in H; lia. }
    assert (Hc : nth_error flat a = Some c).
    { rewrite <- (firstn_skipn a flat), Hs.
      rewrite nth_error_app2; rewrite length_firstn; [|lia].
      replace (a - Nat.min a (length flat)) with 0 by lia; reflexivity. }
    assert (Hrest : skipn (S a) flat = rest).
    { replace (S a) with (1 + a) by lia.
      rewrite <- skipn_skipn, Hs; reflexivity. }
    simpl.
    destruct (np.row_eqb Z.compare u r); simpl.
    + rewrite Hc; simpl; rewrite IH by lia; rewrite Hrest; reflexivity.
    + rewrite IH by lia; rewrite Hrest; reflexivity.
Qed.

Lemma sum_matching_ok (u : list Z) (rows : list (list Z)) (flat : list flt) :
  length rows <= length flat ->
  sum_matching u rows flat
  = Ok (np.sum (map snd (filter (fun t => np.row_eqb Z.compare u (fst t))
                                (combine rows flat)))).
Proof.
  intros H; unfold sum_matching, np.sum.
  exact (sum_matching_aux u rows flat 0 f0 H).
Qed.

End Stacks.

Section SparseFit.
Context {F : Scalar} {X : Externals}.

Lemma Z_order : CmpLaws Z.compare.
Proof.
  constructor.
  - intros x y; apply Z.compare_eq.
  - apply Z.compare_refl.
  - intros x y; apply Z.compare_antisym.
  - intros x y z; rewrite !Z.compare_lt_iff; lia.
Qed.

Lemma vstack_ok {A} (a b c : ndarray A) :
  np.vstack a b = Ok c ->
  shape1 a = shape1 b /\ shape1 c = shape1 b /\ data c = data a ++ data b.
Proof.
  unfold np.vstack; destruct (shape1 a =? shape1 b) eqn:E; [|discriminate].
  apply Nat.eqb_eq in E; intros H; injection H as <-; cbn; auto.
Qed.

(** The loop over the sub-grids: the stacks it ends with. *)
Lemma sparse_stack_ok (self : Poly) (solver0 : solver_fn) (q : Quadrature_t)
    (pts evals : ndarray flt) (tensors : list Tensor) (counter : nat)
    (c0 : ndarray flt) (m0 : ndarray Z) (c : ndarray flt) (m : ndarray Z) :
  sparse_stack self solver0 q pts evals tensors counter c0 m0 = Ok (c, m) ->
  exists locals,
    Forall2 (fun ct local =>
               sparse_tensor self solver0 q pts evals (fst ct) (snd ct) = Ok local)
            (combine (seq counter (length tensors)) tensors) locals
    /\ Forall (fun local => shape1 (fst local) = shape1 c0) locals
    /\ shape1 c = shape1 c0
    /\ shape1 m = shape1 m0
    /\ data c = concat (rev (map (fun l => data (fst l)) locals)) ++ data c0
    /\ data m = concat (rev (map (fun l => data (snd l)) locals)) ++ data m0.
Proof.
  revert counter c0 m0; induction tensors as [|t tensors IH]; intros counter c0 m0.
  - cbn; intros H; injection H as <- <-; exists []; cbn; repeat split; constructor.
  - cbn [sparse_stack length seq combine].
    destruct (sparse_tensor self solver0 q pts evals counter t) as [local|e] eqn:Hl;
      [|discriminate].
    cbn [rbind].
    destruct (np.vstack (fst local) c0) as [c1|e] eqn:Hc; [|discriminate].
    destruct (np.vstack (snd local) m0) as [m1|e] eqn:Hm; [|discriminate].
    cbn [rbind]; rewrite Nat.add_1_r; intros H.
    destruct (IH _ _ _ H) as (locals & HF & Hs & Hc1 & Hm1 & Hdc & Hdm).
    apply vstack_ok in Hc; destruct Hc as (Hc_s & Hc_s' & Hc_d).
    apply vstack_ok in Hm; destruct Hm as (Hm_s & Hm_s' & Hm_d).
    exists (local :: locals); repeat split.
    + constructor; assumption.
    + constructor; [assumption|].
      eapply Forall_impl; [|exact Hs]; cbn; intros; congruence.
    + congruence.
    + congruence.
    + rewrite Hdc, Hc_d; cbn [map rev]; rewrite concat_app; cbn.
      rewrite app_nil_r, <- app_assoc; reflexivity.
    + rewrite Hdm, Hm_d; cbn [map rev]; rewrite concat_app; cbn.
      rewrite app_nil_r, <- app_assoc; reflexivity.
Qed.

Lemma sparse_tensor_indices (self : Poly) (solver0 : solver_fn) (q : Quadrature_t)
    (pts evals : ndarray flt) (counter : nat) (t : Tensor)
    (local : ndarray flt * ndarray Z) :
  sparse_tensor self solver0 q pts evals counter t = Ok local ->
  snd local = elements (t_basis t).
Proof.
  unfold sparse_tensor; intros H.
  repeat match type of H with
         | rbind ?r _ = _ => destruct r; cbn [rbind] in H; [|discriminate H]
         end.
  injection H as <-; reflexivity.
Qed.

Lemma Forall2_positions {A B} (Q : nat * A -> B -> Prop) (R : A -> B -> Prop)
    (l : list A) (ys : list B) (a : nat) :
  (forall ct y, Q ct y -> R (snd ct) y) ->
  Forall2 Q (combine (seq a (length l)) l) ys -> Forall2 R l ys.
Proof.
  intros HQ; revert a ys; induction l as [|x l IH]; intros a ys H; cbn in H.
  - inversion H; constructor.
  - inversion H; subst; constructor; [exact (HQ _ _ H2)|eauto].
Qed.

Lemma Forall2_exists_iff {A B} (R : A -> B -> Prop) (P : A -> Prop) (Q : B -> Prop)
    (l : list A) (ys : list B) :
  Forall2 R l ys -> (forall x y, R x y -> (P x <-> Q y)) ->
  (exists x, In x l /\ P x) <-> (exists y, In y ys /\ Q y).
Proof.
  intros H HR; induction H as [|x y l ys Hxy _ IH].
  - split; intros (? & [] & _).
  - split.
    + intros (x' & [<-|Hin] & Hp).
      * exists y; split; [left; reflexivity|apply (HR _ _ Hxy); exact Hp].
      * destruct (proj1 IH (ex_intro _ x' (conj Hin Hp))) as (y' & Hy & Hq).
        exists y'; split; [right|]; assumption.
    + intros (y' & [<-|Hin] & Hq).
      * exists x; split; [left; reflexivity|apply (HR _ _ Hxy); exact Hq].
      * destruct (proj2 IH (ex_intro _ y' (conj Hin Hq))) as (x' & Hx & Hp).
        exists x'; split; [right|]; assumption.
Qed.

Lemma combine_concat {A B C} (f : A -> list B) (g : A -> list C) (l : list A) :
  Forall (fun x => length (f x) = length (g x)) l ->
  combine (concat (map f l)) (concat (map g l))
  = concat (map (fun x => combine (f x) (g x)) l).
Proof.
  induction 1 as [|x l Hx _ IH]; cbn; [reflexivity|].
  rewrite <- IH.
  generalize (concat (map f l)) (concat (map g l)).
  revert Hx; generalize (f x) (g x); intros u; induction u as [|b u IHu];
    intros [|c v] Hx k1 k2; cbn in *; try discriminate; [reflexivity|].
  f_equal; apply IHu; lia.
Qed.

Lemma concat_concat_map {A} (ll : list (list (list A))) :
  concat (concat ll) = concat (map (@concat A) ll).
Proof.
  induction ll as [|l ll IH]; cbn; [reflexivity|].
  rewrite concat_app, IH; reflexivity.
Qed.

End SparseFit.

Section SparseFitMain.
Context {F : Scalar} {X : Externals}.

#[local] Existing Instance Z_order.

Lemma Forall2_in_r {A B} (R : A -> B -> Prop) (l : list A) (ys : list B) (y : B) :
  Forall2 R l ys -> In y ys -> exists x, In x l /\ R x y.
Proof.
  induction 1 as [|x y' l ys Hxy _ IH]; intros Hin; [destruct Hin|].
  destruct Hin as [<-|Hin].
  - exists x; split; [left; reflexivity|exact Hxy].
  - destruct (IH Hin) as (x' & Hx & Hr); exists x'; split; [right|]; assumption.
Qed.

(** Lines 414-421 on the stacks of the loop. *)
Lemma sparse_combine_ok (locals : list (ndarray flt * ndarray Z))
    (c : ndarray flt) (m : ndarray Z) (g0 : flt) (gm : list Z)
    (final : ndarray flt * ndarray Z) :
  Forall (fun local => shape1 (fst local) = 1 /\ well_shaped (fst local)
                       /\ shape0 (fst local) = shape0 (snd local)) locals ->
  data c = concat (rev (map (fun l => data (fst l)) locals)) ++ [[g0]] ->
  data m = concat (rev (map (fun l => data (snd l)) locals)) ++ [gm] ->
  sparse_combine c m = Ok final ->
  let rows := concat (rev (map (fun l => data (snd l)) locals)) in
  snd final = mk_nd (shape1 m) (map fst (np.unique_counts Z.compare rows))
  /\ fst final
     = mk_nd 1 (map (fun u => [combined u (stacked_terms locals)])
                    (map fst (np.unique_counts Z.compare rows))).
Proof.
  intros Hlocals Hc Hm H rows.
  unfold sparse_combine in H.
  destruct m as [d dm]; cbn [data shape1] in *; subst dm.
  fold rows in H; rewrite delete_last_row in H; cbn [rbind] in H.
  set (stack := concat (rev (map (fun l => data (fst l)) locals))) in *.
  assert (Hsingle : Forall (fun r => length r = 1) stack).
  { unfold stack; apply Forall_concat, Forall_rev, Forall_map.
    eapply Forall_impl; [|exact Hlocals]; intros l (Hs & Hw & _).
    unfold well_shaped in Hw; rewrite Hs in Hw; exact Hw. }
  assert (Hflat : np.delete_item (concat (data c)) (shape0 c - 1) = Ok (concat stack)).
  { unfold shape0; rewrite Hc, concat_app, length_app; cbn [concat length app].
    replace (length stack + 1 - 1) with (length (concat stack))
      by (rewrite (concat_singletons Hsingle); lia).
    apply delete_last_item. }
  rewrite Hflat in H; cbn [rbind] in H.
  assert (Hlen : length rows = length (concat stack)).
  { rewrite (concat_singletons Hsingle); unfold rows, stack.
    rewrite !length_concat, <- !map_rev, !map_map.
    f_equal; apply map_ext_in; intros l Hl.
    apply in_rev in Hl; rewrite Forall_forall in Hlocals.
    destruct (Hlocals _ Hl) as (_ & _ & E); symmetry; exact E. }
  assert (Hterms : combine rows (concat stack) = stacked_terms locals).
  { unfold rows, stack, stacked_terms.
    rewrite concat_concat_map, <- !map_rev, !map_map.
    apply combine_concat, Forall_forall; intros l Hl.
    apply in_rev in Hl; rewrite Forall_forall in Hlocals.
    destruct (Hlocals _ Hl) as (Hs & Hw & E).
    unfold well_shaped in Hw; rewrite Hs in Hw.
    rewrite (concat_singletons Hw); symmetry; exact E. }
  cbn [np.unique data shape1] in H.
  erewrite rmap_ok in H.
  - cbn [rbind] in H; injection H as <-; split; reflexivity.
  - intros u _; cbn beta.
    rewrite sum_matching_ok by lia; cbn [rbind].
    rewrite Hterms; reflexivity.
Qed.

(** C4.  After a sparse-grid fit the multi-indices of the basis are the
    multi-indices of the sub-grids, each once, in increasing order; the
    coefficient in the row of a multi-index is the sum of the scaled local
    coefficients of every sub-grid that has that multi-index; and there are
    as many coefficients as the basis has rows.  The local solves are taken
    to return a column with one coefficient for each multi-index of their
    sub-grid. *)
Theorem sparse_fit_combines (fuel : nat) (self self' : Poly) (q : Quadrature_t)
    (solver0 : solver_fn) (pts evals : ndarray flt) :
  mesh self = Some "sparse-grid"%string ->
  _model_evaluations self = Some evals ->
  np.argwhere_isnan_rows evals = [] ->
  quadrature self = Some q ->
  solver self = Some solver0 ->
  _quadrature_points self = Some pts ->
  (forall counter tensor local,
      In (counter, tensor) (combine (seq 0 (length (q_list q))) (q_list q)) ->
      sparse_tensor self solver0 q pts evals counter tensor = Ok local ->
      well_shaped (fst local) /\ shape0 (fst local) = shape0 (snd local)) ->
  _set_coefficients (S fuel) None self = Returns tt self' ->
  exists locals,
    Forall2 (fun ct local =>
               sparse_tensor self solver0 q pts evals (fst ct) (snd ct) = Ok local)
            (combine (seq 0 (length (q_list q))) (q_list q)) locals
    /\ StronglySorted (np.row_lt Z.compare) (data (elements (basis self')))
    /\ NoDup (data (elements (basis self')))
    /\ (forall r, In r (data (elements (basis self'))) <->
                  exists tensor, In tensor (q_list q)
                                 /\ In r (data (elements (t_basis tensor))))
    /\ coefficients self'
       = Some (mk_nd 1 (map (fun u => [combined u (stacked_terms locals)])
                            (data (elements (basis self')))))
    /\ (forall c, coefficients self' = Some c -> shape0 c = cardinality (basis self')).
Proof.
  intros Hmesh Hevals Hnan Hq Hs Hp Hsolve H.
  rewrite _set_coefficients_S in H.
  unfold bind at 1, attr at 1 in H; rewrite Hevals in H.
  cbv zeta in H; rewrite Hnan in H; cbn [length Nat.eqb negb] in H.
  unfold bind at 1, ret in H.
  unfold solve_coefficients in H.
  unfold bind at 1, attr at 1 in H; rewrite Hmesh in H.
  rewrite String.eqb_refl in H.
  unfold bind, read, attr, pure, assign in H.
  rewrite Hq, Hs, Hp, Hevals in H.
  destruct (sparse_stack self solver0 q pts evals (q_list q) 0 _ _)
    as [[c m]|e] eqn:Hstack; [|discriminate H].
  cbn [fst snd] in H.
  destruct (sparse_combine c m) as [final|e] eqn:Hcombine; [|discriminate H].
  injection H as <-.
  destruct (sparse_stack_ok _ _ _ _ _ _ _ _ _ Hstack)
    as (locals & HF & Hshape & Hc1 & Hm1 & Hdc & Hdm).
  cbn [shape1 data] in Hshape, Hc1, Hm1, Hdc, Hdm.
  assert (Hlocals : Forall (fun local => shape1 (fst local) = 1
                                         /\ well_shaped (fst local)
                                         /\ shape0 (fst local) = shape0 (snd local))
                           locals).
  { apply Forall_forall; intros local Hl.
    rewrite Forall_forall in Hshape; split; [apply Hshape; exact Hl|].
    eapply Forall2_in_r in Hl; [|exact HF].
    destruct Hl as ([counter tensor] & Hin & Hct); exact (Hsolve _ _ _ Hin Hct). }
  eapply sparse_combine_ok in Hcombine; [|exact Hlocals|exact Hdc|exact Hdm].
  destruct Hcombine as [Hidx Hcoef].
  assert (HF' : Forall2 (fun t local => snd local = elements (t_basis t))
                        (q_list q) locals).
  { eapply Forall2_positions; cycle 1; [exact HF|].
    intros ct y Hy; cbn beta in *; eapply sparse_tensor_indices; exact Hy. }
  exists locals; cbn; rewrite Hidx, Hcoef; cbn [data shape1].
  split; [exact HF|].
  split; [apply unique_counts_sorted|].
  split; [apply sorted_NoDup, unique_counts_sorted|].
  split; [|split; [reflexivity|]].
  - intros r; rewrite unique_counts_keys, in_concat.
    assert (Hiff : (exists t, In t (q_list q) /\ In r (data (elements (t_basis t))))
                   <-> (exists local, In local locals /\ In r (data (snd local)))).
    { eapply Forall2_exists_iff; [exact HF'|].
      intros t local E; cbn beta; rewrite E; reflexivity. }
    rewrite Hiff; split.
    + intros (l & Hl & Hr).
      apply in_rev, in_map_iff in Hl; destruct Hl as (local & <- & Hin).
      exists local; auto.
    + intros (local & Hin & Hr).
      exists (data (snd local)); split; [|exact Hr].
      apply -> in_rev; apply in_map_iff; exists local; auto.
  - intros c' E; injection E as <-.
    unfold shape0, cardinality, shape0; cbn; rewrite !length_map; reflexivity.
Qed.

End SparseFitMain.

Section SparseFitExamples.
Import SparseExamples.
#[local] Existing Instance Demo.ZFloat.
#[local] Existing Instance sparse_externals.

Lemma sparse_fit_combines_witness :
  mesh attached = Some "sparse-grid"%string
  /\ _set_coefficients 1 None attached = Returns tt fitted
  /\ elements (basis fitted) = mk_nd 1 [[0%Z]; [1%Z]]
  /\ coefficients fitted = Some (Examples.column [1; 4]%Z)
  /\ (forall c, coefficients fitted = Some c -> shape0 c = cardinality (basis fitted)).
Proof.
  assert (Hm : mesh attached = Some "sparse-grid"%string) by reflexivity.
  assert (Hr : _set_coefficients 1 None attached = Returns tt fitted)
    by reflexivity.
  split; [exact Hm|]; split; [exact Hr|].
  split; [reflexivity|]; split; [reflexivity|].
  destruct (sparse_fit_combines 0 attached (self' := fitted) (q := sparse_line)
              (solver0 := Demo.projection)
              (pts := Examples.column [0; 1; 2]%Z)
              (evals := Examples.column [0; 1; 2]%Z) Hm)
    as (locals & _ & _ & _ & _ & _ & Hlen);
    [first [reflexivity
           |intros counter tensor local [E|[E|[]]] Hlocal; injection E as <- <-;
            vm_compute in Hlocal; injection Hlocal as <-;
            (split; [repeat constructor|reflexivity])] ..
    |exact Hlen].
Defined.

End SparseFitExamples.

(** ** Evaluations that are not a number *)

Section NanRows.
Context {F : Scalar}.

Lemma has_nan_filter (row : list flt) :
  np.has_nan row = false <-> filter fisnan row = [].
Proof.
  unfold np.has_nan; induction row as [|x row IH]; simpl; [tauto|].
  destruct (fisnan x); simpl; [split; discriminate|exact IH].
Qed.

Lemma argwhere_in (y : ndarray flt) (i : nat) :
  In i (np.argwhere_isnan_rows y)
  <-> exists row, nth_error (data y) i = Some row /\ np.has_nan row = true.
Proof.
  unfold np.argwhere_isnan_rows, shape0; rewrite in_flat_map; split.
  - intros ([j row] & Hin & Hi); cbn [fst snd] in Hi.
    apply in_map_iff in Hi; destruct Hi as (x & <- & Hx).
    apply in_combine_seq in Hin; destruct Hin as [_ Hin].
    rewrite Nat.sub_0_r in Hin; exists row; split; [exact Hin|].
    destruct (np.has_nan row) eqn:E; [reflexivity|].
    apply has_nan_filter in E; rewrite E in Hx; destruct Hx.
  - intros (row & Hrow & Hn); exists (i, row); split.
    + apply in_combine_seq; rewrite Nat.sub_0_r; split; [lia|exact Hrow].
    + cbn [fst snd].
      destruct (filter fisnan row) as [|x l] eqn:E.
      * apply has_nan_filter in E; congruence.
      * left; reflexivity.
Qed.

Lemma argwhere_bound (y : ndarray flt) :
  forallb (fun i => i <? shape0 y) (np.argwhere_isnan_rows y) = true.
Proof.
  apply forallb_forall; intros i Hi.
  apply argwhere_in in Hi; destruct Hi as (row & Hrow & _).
  apply Nat.ltb_lt, nth_error_Some; unfold shape0; congruence.
Qed.

(** Dropping the rows [np.argwhere] names keeps the rows without a
    not-a-number. *)
Lemma without_nan_rows (y : ndarray flt) :
  data (np.without_rows y (np.argwhere_isnan_rows y))
  = filter (fun row => negb (np.has_nan row)) (data y).
Proof.
  unfold np.without_rows; cbn [data].
  rewrite (filter_ext_in
             (fun p => negb (existsb (Nat.eqb (fst p)) (np.argwhere_isnan_rows y)))
             (fun p => negb (np.has_nan (snd p)))).
  - unfold shape0; generalize 0 as a.
    induction (data y) as [|row rows IH]; intros a; simpl; [reflexivity|].
    destruct (np.has_nan row); simpl; rewrite IH; reflexivity.
  - intros [i row] Hin; cbn [fst snd]; f_equal.
    apply in_combine_seq in Hin; destruct Hin as [_ Hin].
    rewrite Nat.sub_0_r in Hin.
    destruct (np.has_nan row) eqn:E.
    + apply existsb_exists; exists i; split; [|apply Nat.eqb_refl].
      apply argwhere_in; exists row; auto.
    + destruct (existsb _ _) eqn:E'; [|reflexivity].
      apply existsb_exists in E'; destruct E' as (j & Hj & Hij).
      apply Nat.eqb_eq in Hij; subst j.
      apply argwhere_in in Hj; destruct Hj as (row' & Hrow' & Hn); congruence.
Qed.

Lemma argwhere_of_clean (rows : list (list flt)) (d : nat) :
  Forall (fun row => np.has_nan row = false) rows ->
  np.argwhere_isnan_rows (mk_nd d rows) = [].
Proof.
  intros H; unfold np.argwhere_isnan_rows, shape0; cbn [data]; generalize 0 as a.
  induction H as [|row rows Hrow _ IH]; intros a; simpl; [reflexivity|].
  apply has_nan_filter in Hrow; rewrite Hrow; simpl; apply IH.
Qed.

Lemma argwhere_after_delete (y : ndarray flt) :
  np.argwhere_isnan_rows (np.without_rows y (np.argwhere_isnan_rows y)) = [].
Proof.
  pose proof (without_nan_rows y) as H.
  destruct (np.without_rows y (np.argwhere_isnan_rows y)) as [d rows]; cbn in H; subst.
  apply argwhere_of_clean, Forall_forall; intros row Hrow.
  apply filter_In in Hrow; destruct Hrow as [_ Hrow].
  destruct (np.has_nan row); [discriminate|reflexivity].
Qed.

(** The number of rows that remain depends on the number of rows and on the
    positions dropped alone. *)
Lemma without_rows_count {A B} (a : ndarray A) (b : ndarray B) (idx : list nat) :
  shape0 a = shape0 b ->
  shape0 (np.without_rows a idx) = shape0 (np.without_rows b idx).
Proof.
  unfold np.without_rows, shape0; cbn [data]; intros E; rewrite !length_map, E.
  assert (G : forall {C} (l : list C) (s : nat),
             length (filter (fun p => negb (existsb (Nat.eqb (fst p)) idx))
                            (combine (seq s (length l)) l))
             = length (filter (fun i => negb (existsb (Nat.eqb i) idx))
                              (seq s (length l)))).
  { intros C l; induction l as [|x l IH]; intros s; simpl; [reflexivity|].
    destruct (negb _); simpl; rewrite IH; reflexivity. }
  rewrite G, <- E, <- G; reflexivity.
Qed.

(** In a column of evaluations every not-a-number is a row of its own. *)
Lemma nan_rows_count (y : ndarray flt) :
  well_shaped y -> shape1 y = 1 ->
  shape0 (np.without_rows y (np.argwhere_isnan_rows y))
  + length (np.argwhere_isnan_rows y) = shape0 y.
Proof.
  intros Hw Hs; unfold shape0 at 1; rewrite without_nan_rows.
  unfold well_shaped in Hw; rewrite Hs in Hw.
  unfold np.argwhere_isnan_rows, shape0; generalize 0 as a.
  induction Hw as [|row rows Hrow _ IH]; intros a; simpl; [reflexivity|].
  rewrite length_app, length_map.
  destruct row as [|x [|? ?]]; try discriminate Hrow.
  specialize (IH (S a)); unfold np.has_nan in *; simpl.
  destruct (fisnan x); simpl in *; lia.
Qed.

End NanRows.

(** ** Recovery from evaluations that are not a number *)

Section Recovery.
Context {F : Scalar} {X : Externals}.

Lemma delete_nan_rows {A} (a : ndarray A) (y : ndarray flt) :
  shape0 a = shape0 y ->
  np.delete_rows a (np.argwhere_isnan_rows y)
  = Ok (np.without_rows a (np.argwhere_isnan_rows y)).
Proof.
  intros E; unfold np.delete_rows; rewrite E, argwhere_bound; reflexivity.
Qed.

Lemma solve_standard (s : Poly) (me : string) (sv : solver_fn)
    (pts : ndarray flt) (w : list flt) (y P A b : ndarray flt) :
  mesh s = Some me ->
  String.eqb me "sparse-grid" = false ->
  _quadrature_points s = Some pts ->
  _quadrature_weights s = Some w ->
  _model_evaluations s = Some y ->
  gradient_flag s = 0 ->
  solver s = Some sv ->
  fst (get_poly (parameters s) (basis s) pts None) = Ok P ->
  weighted_basis P w = Ok A ->
  np.dot (np.diag (map fsqrt w)) y = Ok b ->
  solve_coefficients s = Returns tt (set_coefficients (Some (sv A b None)) s).
Proof.
  intros Hm Hne Hp Hw Hy Hg Hs HP HA Hb.
  unfold solve_coefficients, bind, attr, read, evaluated, pure, assign.
  rewrite Hm, Hne, Hp, HP, Hw.
  unfold weighted_basis in HA; rewrite HA, Hy, Hb, Hg; cbn.
  rewrite Hs; reflexivity.
Qed.

Lemma attach_evaluations (s : Poly) (y : ndarray flt) (g : option grads_arg)
    (pts : ndarray flt) :
  _quadrature_points s = Some pts ->
  shape0 y = shape0 pts ->
  shape1 y = 1 ->
  gradient_flag s = 0 ->
  attach_model (Some (Evaluations y)) g s
  = Returns tt (set__model_evaluations (Some y) s).
Proof.
  intros Hp H0 H1 Hg.
  unfold attach_model, bind, attr, read, assign.
  destruct (outputs s); rewrite Hp, H0, Nat.eqb_refl; cbn;
    rewrite H1; cbn; rewrite Hg; reflexivity.
Qed.

Lemma design_without_subsampling (s : Poly) (me : string) (P A : ndarray flt) :
  mesh s = Some me ->
  subsampling_algorithm_name s = None ->
  let q := Quadrature (parameters s) (basis s) (inputs s) me in
  fst (get_poly (parameters s) (basis s) (q_points q) None) = Ok P ->
  weighted_basis P (q_weights q) = Ok A ->
  _set_points_and_weights s
  = Returns tt
      (set_self_A (Some A)
         (set__quadrature_weights (Some (q_weights q))
            (set__quadrature_points (Some (q_points q))
               (set_quadrature (Some q) s)))).
Proof.
  intros Hm Hn q HP HA.
  unfold _set_points_and_weights, retain_design, bind, attr, read, assign,
    evaluated, pure.
  rewrite Hm; cbn; rewrite Hn; fold q; rewrite HP, HA; reflexivity.
Qed.

#[local] Opaque nan_warning least_squares_notice _set_points_and_weights
  solve_coefficients set_model attach_model.

(** C3 (amended).  Evaluations in a column of which some are not a number,
    no gradients asked for: [_set_coefficients] prints its two lines, drops those
    evaluations with their points, keeps what is left as the inputs and the
    outputs, turns to least squares on a user-defined mesh without
    subsampling, builds the design again and sets the model again, which
    leaves no statistics object.  The basis is pruned only when it has more
    terms than evaluations are left, by the excess and the number of
    dimensions; with a basis that loses as many terms as [prune] is asked
    for that leaves the number of evaluations minus the number of dimensions.
    A basis with no more terms than evaluations are left stays as it is. *)
Theorem nan_recovery (fuel : nat) (self : Poly) (y pts P A b : ndarray flt) :
  _model_evaluations self = Some y ->
  _quadrature_points self = Some pts ->
  well_shaped y ->
  shape1 y = 1 ->
  shape0 pts = shape0 y ->
  gradient_flag self = 0 ->
  let idx := np.argwhere_isnan_rows y in
  let k := length idx in
  let n := shape0 y in
  0 < k ->
  let inputs' := np.without_rows pts idx in
  let outputs' := np.without_rows y idx in
  let excess := (Z.of_nat (cardinality (basis self)) - Z.of_nat (n - k))%Z in
  let basis' := if (0 <? excess)%Z
                then prune (excess + Z.of_nat (dimensions self))%Z (basis self)
                else basis self in
  let q := Quadrature (parameters self) basis' (Some inputs') "user-defined" in
  q_points q = inputs' ->
  (forall z, (0 <= z <= Z.of_nat (cardinality (basis self)))%Z ->
             Z.of_nat (cardinality (prune z (basis self)))
             = (Z.of_nat (cardinality (basis self)) - z)%Z) ->
  fst (get_poly (parameters self) basis' inputs' None) = Ok P ->
  weighted_basis P (q_weights q) = Ok A ->
  np.dot (np.diag (map fsqrt (q_weights q))) outputs' = Ok b ->
  exists self',
    _set_coefficients (S (S (S fuel))) None self = Returns tt self'
    /\ stdout self' = stdout self ++ [nan_warning k n; least_squares_notice]
    /\ _quadrature_points self' = Some inputs'
    /\ shape0 inputs' = n - k
    /\ inputs self' = Some inputs'
    /\ outputs self' = Some outputs'
    /\ _model_evaluations self' = Some outputs'
    /\ np.argwhere_isnan_rows outputs' = []
    /\ mesh self' = Some "user-defined"%string
    /\ method self' = Some "least-squares"%string
    /\ subsampling_algorithm_name self' = None
    /\ solver self' = Some (Solver (Some "least-squares"%string) (solver_args self))
    /\ quadrature self' = Some q
    /\ statistics_object self' = None
    /\ basis self' = basis'
    /\ (cardinality (basis self) <= n - k -> basis self' = basis self)
    /\ (n - k < cardinality (basis self) -> dimensions self <= n - k ->
        cardinality (basis self') = n - k - dimensions self)
    /\ coefficients self'
       = Some (Solver (Some "least-squares"%string) (solver_args self) A b None).
Proof.
  intros Hy Hp Hw Hs1 Hs0 Hg idx k n Hk inputs' outputs' excess basis' q Hq Hprune HP HA Hb.
  assert (Hcount : shape0 outputs' = n - k).
  { pose proof (nan_rows_count Hw Hs1) as E; fold idx k n outputs' in E; lia. }
  assert (Hcount' : shape0 inputs' = n - k).
  { rewrite <- Hcount; apply without_rows_count; exact Hs0. }
  assert (Hclean : np.argwhere_isnan_rows outputs' = [])
    by apply argwhere_after_delete.
  assert (Hcol : shape1 outputs' = 1) by exact Hs1.
  pose proof (delete_nan_rows pts y Hs0) as D1; fold idx inputs' in D1.
  pose proof (delete_nan_rows y y eq_refl) as D2; fold idx outputs' in D2.
  assert (Hnz : negb (length idx =? 0) = true)
    by (fold k; destruct k; [lia|reflexivity]).
  assert (Hwq : weighted_basis P (q_weights q) = Ok A) by exact HA.
  rewrite _set_coefficients_S.
  unfold bind at 1, attr at 1; rewrite Hy; cbv zeta; fold idx.
  rewrite Hnz.
  clearbody inputs' outputs' idx.
  unfold bind at 1.
  unfold drop_nans, bind, print, assign, attr, pure, read, _set_solver, ret; cbn.
  rewrite Hp, D1, D2; cbn.
  rewrite Hcount; fold excess.
  set (s5 := set_subsampling_algorithm_name None _).
  match goal with
  | |- context [match ?c s5 with _ => _ end] =>
      assert (Hs6 : c s5 = Returns tt (set_basis basis' s5))
        by (unfold basis'; destruct (0 <? excess)%Z; reflexivity);
      rewrite Hs6; clear Hs6
  end.
  set (s8 := set_solver _ _).
  pose proof (@design_without_subsampling s8 "user-defined"%string P A) as E8.
  cbn in E8; fold q in E8; rewrite Hq in E8.
  specialize (E8 eq_refl eq_refl HP HA).
  rewrite E8; clear E8.
  set (s9 := set_self_A _ _).
  rewrite set_model_S; unfold bind at 1.
  rewrite (@attach_evaluations s9 outputs' None inputs');
    [|reflexivity|lia|exact Hcol|exact Hg].
  unfold bind at 1, assign.
  set (s11 := set_statistics_object None _).
  assert (Hsolve : forall s, _quadrature_points s = Some inputs' ->
                             _quadrature_weights s = Some (q_weights q) ->
                             _model_evaluations s = Some outputs' ->
                             mesh s = Some "user-defined"%string ->
                             gradient_flag s = 0 ->
                             parameters s = parameters self ->
                             basis s = basis' ->
                             solver s = Some (Solver (Some "least-squares"%string)
                                                     (solver_args self)) ->
                             solve_coefficients s
                             = Returns tt
                                 (set_coefficients
                                    (Some (Solver (Some "least-squares"%string)
                                                  (solver_args self) A b None)) s)).
  { intros s E1 E2 E3 E4 E5 E6 E7 E8'.
    apply (@solve_standard s "user-defined"%string _ inputs'
             (q_weights q) outputs' P A b);
      try assumption; try reflexivity.
    rewrite E6, E7; exact HP. }
  rewrite _set_coefficients_S.
  unfold bind at 1, attr at 1.
  replace (_model_evaluations s11) with (Some outputs') by reflexivity.
  cbv zeta; rewrite Hclean; cbn [length Nat.eqb negb].
  unfold bind at 1, ret.
  rewrite (Hsolve s11) by (try reflexivity; exact Hg).
  rewrite Hsolve by (try reflexivity; exact Hg).
  eexists; split; [reflexivity|].
  cbn.
  split; [rewrite <- app_assoc; reflexivity|].
  do 13 (split; [first [reflexivity | exact Hcount']|]).
  split; [|split; [|reflexivity]].
  - intros Hle; unfold basis'.
    replace (0 <? excess)%Z with false; [reflexivity|].
    symmetry; apply Z.ltb_ge; unfold excess; lia.
  - intros Hlt Hd; unfold basis'.
    replace (0 <? excess)%Z with true
      by (symmetry; apply Z.ltb_lt; unfold excess; lia).
    apply Nat2Z.inj; rewrite Hprune by (unfold excess; lia).
    unfold excess; lia.
Qed.

#[local] Transparent nan_warning least_squares_notice _set_points_and_weights
  solve_coefficients set_model attach_model.

End Recovery.

(** ** How the calls end *)

Section Endings.
Context {F : Scalar} {X : Externals}.

Lemma ends_ret I {A} (a : A) : ends I (ret a).
Proof. intros self H; exact H. Qed.

Lemma ends_raise I {A} (e : exn) : ends I (raise e : M A).
Proof. intros self H; exact H. Qed.

Lemma ends_read I {A} (f : Poly -> A) : ends I (read f).
Proof. intros self H; exact H. Qed.

Lemma ends_attr I {A} (f : Poly -> option A) : ends I (attr f).
Proof. intros self H; unfold attr; destruct (f self); exact H. Qed.

Lemma ends_pure I {A} (r : result A) : ends I (pure r).
Proof. intros self H; unfold pure; destruct r; exact H. Qed.

Lemma ends_evaluated I {A} (r : logged A) : ends I (evaluated r).
Proof. apply ends_pure. Qed.

Lemma ends_assign (I : Poly -> Prop) (f : Poly -> Poly) :
  (forall self, I self -> I (f self)) -> ends I (assign f).
Proof. intros Hf self H; apply Hf; exact H. Qed.

Lemma ends_bind I {A B} (m : M A) (k : A -> M B) :
  ends I m -> (forall a, ends I (k a)) -> ends I (bind m k).
Proof.
  intros Hm Hk self H; unfold bind.
  specialize (Hm self H); destruct (m self) as [a self'|e self'|]; auto.
  apply Hk; exact Hm.
Qed.

Lemma ends_bind_raise I {A B} (e : exn) (k : A -> M B) :
  ends I (bind (raise e) k).
Proof. intros self H; exact H. Qed.

Lemma ends_for_each I {A} (l : list A) (body : A -> M unit) :
  (forall x, ends I (body x)) -> ends I (for_each l body).
Proof.
  intros Hb; induction l as [|x l IH]; simpl.
  - apply ends_ret.
  - apply ends_bind; auto.
Qed.

Lemma ends_if I {A} (c : bool) (m1 m2 : M A) :
  ends I m1 -> ends I m2 -> ends I (if c then m1 else m2).
Proof. destruct c; auto. Qed.

Lemma ends_if_in I {A} (entry : option A) (body : A -> M unit) :
  (forall v, ends I (body v)) -> ends I (if_in entry body).
Proof. intros Hb; destruct entry; simpl; [apply Hb|apply ends_ret]. Qed.

Lemma ends_keeps I {A} (m : M A) : ends I m -> keeps I m.
Proof.
  intros H self Hs; specialize (H self Hs); destruct (m self); auto.
Qed.

Lemma never_returns_raise I {A} (e : exn) : never_returns I (raise e : M A).
Proof. intros self H; exists e, self; auto. Qed.

Lemma never_returns_bind_l I {A B} (m : M A) (k : A -> M B) :
  never_returns I m -> never_returns I (bind m k).
Proof.
  intros Hm self H; destruct (Hm self H) as (e & self' & E & H').
  exists e, self'; unfold bind; rewrite E; auto.
Qed.

Lemma never_returns_bind_r I {A B} (m : M A) (k : A -> M B) :
  ends I m -> (forall a, never_returns I (k a)) -> never_returns I (bind m k).
Proof.
  intros Hm Hk self H; unfold bind.
  specialize (Hm self H); destruct (m self) as [a self'|e self'|].
  - apply Hk; exact Hm.
  - exists e, self'; auto.
  - destruct Hm.
Qed.

End Endings.

(** Walks through a method body for [ends], leaving the attribute
    assignments. *)
Ltac settle_step :=
  match goal with
  | |- ends _ (bind (raise _) _) => apply ends_bind_raise
  | |- ends _ (ret _) => apply ends_ret
  | |- ends _ (raise _) => apply ends_raise
  | |- ends _ (read _) => apply ends_read
  | |- ends _ (attr _) => apply ends_attr
  | |- ends _ (pure _) => apply ends_pure
  | |- ends _ (evaluated _) => apply ends_evaluated
  | |- ends _ (bind _ _) => apply ends_bind; [|intros ?]
  | |- ends _ (if_in _ _) => apply ends_if_in; intros ?
  | |- ends _ (for_each _ _) => apply ends_for_each; intros ?
  | |- ends _ (print _) => unfold print
  | |- ends _ (if _ then _ else _) => apply ends_if
  | |- ends _ (match ?x with _ => _ end) => destruct x
  | |- ends _ (assign _) => apply ends_assign; intros ? ?; cbn; try assumption
  end.

Ltac settle := repeat first [progress cbv zeta | settle_step].

Section MethodEndings.
Context {F : Scalar} {X : Externals}.

Lemma _set_solver_ends I :
  (forall v self, I self -> I (set_solver v self)) -> ends I _set_solver.
Proof. intros H; unfold _set_solver; settle; auto. Qed.

Lemma _set_points_and_weights_ends I :
  (forall v self, I self -> I (set_quadrature v self)) ->
  (forall v self, I self -> I (set_self_A v self)) ->
  (forall v self, I self -> I (set__quadrature_points v self)) ->
  (forall v self, I self -> I (set__quadrature_weights v self)) ->
  ends I _set_points_and_weights.
Proof.
  intros H1 H2 H3 H4; unfold _set_points_and_weights, retain_design; settle; auto.
Qed.

Lemma solve_coefficients_ends I :
  (forall v self, I self -> I (set_coefficients v self)) ->
  (forall v self, I self -> I (set_basis v self)) ->
  (forall v self, I self -> I (set_stdout v self)) ->
  ends I solve_coefficients.
Proof.
  intros H1 H2 H3; unfold solve_coefficients; settle; auto.
Qed.

Lemma attach_model_ends I model model_grads :
  (forall v self, I self -> I (set__model_evaluations v self)) ->
  (forall v self, I self -> I (set__gradient_evaluations v self)) ->
  ends I (attach_model model model_grads).
Proof.
  intros H1 H2; unfold attach_model, set_gradient_evaluations; settle; auto.
Qed.

End MethodEndings.

Section RecursionDepth.
Context {F : Scalar} {X : Externals}.

Lemma bind_ext {A B} (m : M A) (k k' : A -> M B) (self : Poly) :
  (forall a s, k a s = k' a s) -> bind m k self = bind m k' self.
Proof. intros H; unfold bind; destruct (m self); auto. Qed.

Lemma bind_pure_ext {A B} (r : result A) (k k' : A -> M B) (self : Poly) :
  (forall a, r = Ok a -> forall s, k a s = k' a s) ->
  bind (pure r) k self = bind (pure r) k' self.
Proof. intros H; destruct r; cbn; [apply H|]; reflexivity. Qed.

(** The evaluations handed to [set_model] are the ones it attaches. *)
Lemma attach_evaluations_adopted (o : ndarray flt) (g : option grads_arg)
    (s s1 : Poly) :
  attach_model (Some (Evaluations o)) g s = Returns tt s1 ->
  _model_evaluations s1 = Some o.
Proof.
  assert (K : forall gf, keeps (fun s => _model_evaluations s = Some o)
            (if gf =? 1
             then bind match g with
                       | Some (CallableGrads fungrad) =>
                           bind (attr _quadrature_points)
                                (fun points => pure (evaluate_model_gradients points fungrad))
                       | Some (GradEvaluations g) => ret g
                       | None => raise AttributeError
                       end set_gradient_evaluations
             else ret tt)).
  { intros gf; unfold set_gradient_evaluations; frame. }
  unfold attach_model, bind at 1, read.
  intros H.
  assert (H' : bind (bind (attr _quadrature_points)
                          (fun points => if shape0 o =? shape0 points then ret o
                                         else raise AssertionError))
                 (fun y => bind (if shape1 y =? 1 then ret tt else raise RaisedTuple)
                   (fun _ => bind (assign (set__model_evaluations (Some y)))
                     (fun _ => bind (read gradient_flag)
                       (fun gf => if gf =? 1
                          then bind match g with
                                    | Some (CallableGrads fungrad) =>
                                        bind (attr _quadrature_points)
                                             (fun points => pure (evaluate_model_gradients points fungrad))
                                    | Some (GradEvaluations g) => ret g
                                    | None => raise AttributeError
                                    end set_gradient_evaluations
                          else ret tt)))) s = Returns tt s1).
  { destruct (outputs s); exact H. }
  clear H; revert H'.
  unfold bind at 1 2, attr at 1.
  destruct (_quadrature_points s) as [pts|]; [|discriminate].
  destruct (shape0 o =? shape0 pts); [|discriminate].
  unfold ret at 1, bind at 1.
  destruct (shape1 o =? 1); [|discriminate].
  unfold ret at 1, bind at 1, assign at 1, bind at 1, read at 1.
  intros H.
  pose proof (K (gradient_flag (set__model_evaluations (Some o) s))
                (set__model_evaluations (Some o) s) eq_refl) as K'.
  rewrite H in K'; exact K'.
Qed.

(** The evaluations without a not-a-number go straight to the solve. *)
Lemma _set_coefficients_clean (fuel : nat) (s : Poly) (o : ndarray flt) :
  _model_evaluations s = Some o ->
  np.argwhere_isnan_rows o = [] ->
  _set_coefficients (S fuel) None s = solve_coefficients s.
Proof.
  intros Ho Hn; rewrite _set_coefficients_S.
  unfold bind at 1, attr; rewrite Ho; cbv zeta; rewrite Hn; reflexivity.
Qed.

Lemma set_model_clean (fuel : nat) (o : ndarray flt) (g : option grads_arg)
    (s : Poly) :
  np.argwhere_isnan_rows o = [] ->
  set_model (S (S fuel)) (Some (Evaluations o)) g s = refit o g s.
Proof.
  intros Hn; rewrite set_model_S; unfold refit, bind at 1 3.
  destruct (attach_model (Some (Evaluations o)) g s) as [[] s1|e s1|] eqn:E;
    try reflexivity.
  unfold bind, assign.
  apply _set_coefficients_clean with (o := o); [|exact Hn].
  apply attach_evaluations_adopted in E; exact E.
Qed.

Lemma drop_nans_again (y : ndarray flt) (idx : list nat)
    (again again' : ndarray flt -> M unit) (s : Poly) :
  (forall s', again (np.without_rows y idx) s' = again' (np.without_rows y idx) s') ->
  drop_nans y idx again s = drop_nans y idx again' s.
Proof.
  intros H; unfold drop_nans.
  do 5 (apply bind_ext; intros ? ?).
  apply bind_pure_ext; intros o Ho ?.
  unfold np.delete_rows in Ho.
  destruct (forallb _ idx); [injection Ho as <-|discriminate].
  do 9 (apply bind_ext; intros ? ?).
  apply H.
Qed.

Lemma _set_coefficients_fit_once (fuel : nat) (s : Poly) :
  _set_coefficients (S (S (S fuel))) None s = fit_once s.
Proof.
  rewrite _set_coefficients_S; unfold fit_once.
  apply bind_ext; intros y s1; cbv zeta.
  destruct (negb _); [|reflexivity].
  unfold bind.
  rewrite (@drop_nans_again y (np.argwhere_isnan_rows y)
             (fun outputs => set_model (S (S fuel)) (Some (Evaluations outputs)) None)
             (fun outputs => refit outputs None)); [reflexivity|].
  intros s'; apply set_model_clean, argwhere_after_delete.
Qed.

Lemma refit_ends (o : ndarray flt) (g : option grads_arg) :
  ends (fun _ => True) (refit o g).
Proof.
  unfold refit; settle.
  - apply attach_model_ends; auto.
  - apply solve_coefficients_ends; auto.
Qed.

Lemma fit_once_ends : ends (fun _ => True) fit_once.
Proof.
  unfold fit_once, drop_nans; settle.
  - apply _set_solver_ends; auto.
  - apply _set_points_and_weights_ends; auto.
  - apply refit_ends.
  - apply solve_coefficients_ends; auto.
Qed.

(** The calls between [set_model] and [_set_coefficients] go two deep at
    most: the evaluations that [_set_coefficients] hands back to [set_model]
    hold no not-a-number, so that the second [_set_coefficients] goes
    straight to the solve.  Whatever the arguments and the object,
    [set_model] returns or raises. *)
Theorem fit_recursion_depth (fuel : nat) (model : option model_arg)
    (model_grads : option grads_arg) (self : Poly) :
  set_model (4 + fuel) model model_grads self = set_model 4 model model_grads self
  /\ set_model 4 model model_grads self <> OutOfFuel
  /\ _set_coefficients (3 + fuel) None self = _set_coefficients 3 None self.
Proof.
  assert (E : forall f s, _set_coefficients (3 + f) None s = _set_coefficients 3 None s).
  { intros f s; change (3 + f) with (S (S (S f))).
    rewrite (_set_coefficients_fit_once f), (_set_coefficients_fit_once 0); reflexivity. }
  split; [|split; [|apply E]].
  - change (4 + fuel) with (S (3 + fuel)); change 4 with (S 3).
    rewrite !set_model_S.
    do 2 (apply bind_ext; intros ? ?); apply E.
  - change 4 with (S 3); rewrite set_model_S.
    assert (H : ends (fun _ => True)
                  (bind (attach_model model model_grads)
                     (fun _ => bind (assign (set_statistics_object None))
                                    (fun _ => _set_coefficients 3 None)))).
    { settle.
      - apply attach_model_ends; auto.
      - intros s _; rewrite (_set_coefficients_fit_once 0).
        apply fit_once_ends; exact I. }
    specialize (H self I); intros E'; rewrite E' in H; exact H.
Qed.

End RecursionDepth.

Section GradientRecovery.
Context {F : Scalar} {X : Externals}.

(** In gradient mode [set_model] needs gradients. *)
Lemma attach_without_gradients (o : ndarray flt) (c : option (ndarray flt)) :
  never_returns (fun s => gradient_flag s = 1 /\ coefficients s = c)
                (attach_model (Some (Evaluations o)) None).
Proof.
  intros s [Hg Hc].
  unfold attach_model, bind, read, attr, assign, ret, raise.
  destruct (outputs s), (_quadrature_points s) as [pts|];
    try (exists AttributeError, s; auto; fail);
    (destruct (shape0 o =? shape0 pts); [|exists AssertionError, s; auto]);
    (destruct (shape1 o =? 1); [|exists RaisedTuple, s; auto]);
    cbn; rewrite Hg; cbn; eexists _, _; split; try reflexivity; cbn; auto.
Qed.

Lemma drop_nans_without_gradients (fuel : nat) (y : ndarray flt) (idx : list nat)
    (c : option (ndarray flt)) :
  never_returns (fun s => gradient_flag s = 1 /\ coefficients s = c)
    (drop_nans y idx
       (fun outputs => set_model (S fuel) (Some (Evaluations outputs)) None)).
Proof.
  unfold drop_nans.
  do 15 (apply never_returns_bind_r;
         [settle;
          first [apply _set_solver_ends|apply _set_points_and_weights_ends]; auto
         |intros ?]).
  rewrite set_model_S; apply never_returns_bind_l, attach_without_gradients.
Qed.

(** With gradients asked for, the recovery from evaluations that are not a
    number does not complete: [_set_coefficients] hands the evaluations
    that remain back to [set_model] without gradients.  The call raises,
    and the coefficients are the ones it found. *)
Theorem nan_recovery_needs_gradients (fuel : nat) (self : Poly) (y : ndarray flt) :
  _model_evaluations self = Some y ->
  np.argwhere_isnan_rows y <> [] ->
  gradient_flag self = 1 ->
  exists e self',
    _set_coefficients (S (S fuel)) None self = Raises e self'
    /\ gradient_flag self' = 1
    /\ coefficients self' = coefficients self.
Proof.
  intros Hy Hn Hg; rewrite _set_coefficients_S.
  unfold bind at 1, attr at 1; rewrite Hy; cbv zeta.
  destruct (np.argwhere_isnan_rows y) as [|i idx] eqn:E; [contradiction|].
  cbn [length Nat.eqb negb]; rewrite <- E; clear E Hn.
  destruct (never_returns_bind_l (fun _ => solve_coefficients)
              (drop_nans_without_gradients fuel y (np.argwhere_isnan_rows y)
                 (c := coefficients self))
              self (conj Hg eq_refl)) as (e & self' & E & Hg' & Hc).
  exists e, self'; auto.
Qed.

End GradientRecovery.

Section UnivariateGradients.
Context {F : Scalar} {X : Externals}.

(** For a basis of one dimension [get_poly_grad] hands back the table of
    the evaluator, and [cell2matrix] takes its first row for an array of two
    dimensions. *)
Lemma univariate_gradient_solve (s : Poly) :
  gradient_flag s = 1 ->
  shape1 (elements (basis s)) = 1 ->
  mesh s <> Some "sparse-grid"%string ->
  exists e, solve_coefficients s = Raises e s.
Proof.
  intros Hg Hd Hm.
  unfold solve_coefficients, bind, attr, read, evaluated, pure, assign.
  destruct (mesh s) as [me|]; [|eauto].
  destruct (String.eqb_spec me "sparse-grid"); [subst; contradiction|].
  destruct (_quadrature_points s) as [pts|]; [|eauto].
  destruct (fst (get_poly _ _ _ _)); [|eauto].
  destruct (_quadrature_weights s) as [w|]; [|eauto].
  destruct (np.dot _ _); [|eauto].
  destruct (_model_evaluations s) as [y|]; [|eauto].
  destruct (np.dot _ _); [|eauto].
  rewrite Hg; cbn [Nat.eqb].
  unfold get_poly_grad; rewrite Hd; cbn [Nat.eqb].
  destruct (np.max _) as [m|]; cbn; [|eauto].
  unfold call_orthogonal_polynomial.
  destruct (nth_error (parameters s) 0); cbn; [|eauto].
  destruct (data (tbl_dp _)); cbn; eauto.
Qed.

(** With gradients asked for and a basis of one dimension, no call of
    [set_model] completes, whatever the model and the gradients: the call
    raises, at the solve if not before, and computes no coefficients. *)
Theorem univariate_gradient_fit_raises (fuel : nat) (model : option model_arg)
    (model_grads : option grads_arg) (self : Poly) :
  gradient_flag self = 1 ->
  shape1 (elements (basis self)) = 1 ->
  mesh self <> Some "sparse-grid"%string ->
  exists e self',
    set_model (S (S (S fuel))) model model_grads self = Raises e self'
    /\ coefficients self' = coefficients self.
Proof.
  intros Hg Hd Hm; rewrite set_model_S.
  set (I := fun s => gradient_flag s = 1 /\ basis s = basis self
                     /\ mesh s = mesh self /\ coefficients s = coefficients self).
  assert (HI : I self) by (unfold I; auto).
  assert (Ha : ends I (attach_model model model_grads))
    by (apply attach_model_ends; unfold I; auto).
  specialize (Ha self HI); unfold bind at 1.
  destruct (attach_model model model_grads self) as [[] s1|e s1|];
    [|exists e, s1; split; [reflexivity|apply Ha]|destruct Ha].
  unfold bind at 1, assign.
  set (s := set_statistics_object None s1).
  assert (Hs : I s) by exact Ha; clearbody s; clear Ha s1.
  destruct Hs as (Hg' & Hb & Hm' & Hc).
  destruct (_model_evaluations s) as [y|] eqn:Hy.
  - destruct (np.argwhere_isnan_rows y) as [|i idx] eqn:Hn.
    + rewrite (_set_coefficients_clean _ _ Hy Hn).
      destruct (@univariate_gradient_solve s) as (e & E); try congruence.
      exists e, s; auto.
    + destruct (never_returns_bind_l (fun _ => solve_coefficients)
                  (drop_nans_without_gradients fuel y (i :: idx)
                     (c := coefficients s))
                  s (conj Hg' eq_refl)) as (e & s' & E & Hg'' & Hc').
      exists e, s'; split; [|congruence].
      rewrite _set_coefficients_S.
      unfold bind at 1, attr at 1; rewrite Hy; cbv zeta; rewrite Hn.
      exact E.
  - exists AttributeError, s; split; [|exact Hc].
    rewrite _set_coefficients_S; unfold bind, attr; rewrite Hy; reflexivity.
Qed.

End UnivariateGradients.

(** ** Shapes of the basis evaluations *)

Section Shapes.
Context {F : Scalar}.

Lemma full_shape {A} (x : A) (r c : nat) : has_shape r c (np.full x r c).
Proof.
  unfold has_shape, np.full, shape0, well_shaped; cbn.
  rewrite repeat_length; repeat split.
  apply Forall_forall; intros row Hrow.
  apply repeat_spec in Hrow; subst; apply repeat_length.
Qed.

Lemma zip_row_length (op : flt -> flt -> flt) (a b t : list flt) :
  np.zip_row op a b = Ok t -> length t = length a.
Proof.
  unfold np.zip_row; destruct (length a =? length b) eqn:E.
  - intros H; injection H as <-.
    apply Nat.eqb_eq in E.
    rewrite length_map, length_combine; lia.
  - destruct b as [|x [|? ?]]; try discriminate.
    intros H; injection H as <-; apply length_map.
Qed.

Lemma mul_rows_lengths (a b ts : list (list flt)) :
  np.mul_rows a b = Ok ts -> Forall2 (fun r t => length t = length r) a ts.
Proof.
  revert b ts; induction a as [|r a IH]; intros [|s b] ts; cbn; try discriminate.
  - intros H; injection H as <-; constructor.
  - destruct (np.mul_row r s) as [t|] eqn:Et; [|discriminate]; cbn.
    destruct (np.mul_rows a b) as [ts'|] eqn:Ets; [|discriminate]; cbn.
    intros H; injection H as <-; constructor; [|eapply IH; exact Ets].
    eapply zip_row_length; exact Et.
Qed.

Lemma Forall2_same_lengths {A} (c : nat) (a ts : list (list A)) :
  Forall2 (fun r t => length t = length r) a ts ->
  Forall (fun r => length r = c) a ->
  length ts = length a /\ Forall (fun t => length t = c) ts.
Proof.
  induction 1 as [|r t a ts E _ IH]; intros Ha; [auto|].
  inversion Ha as [|? ? Hr Ha']; subst.
  destruct (IH Ha') as [E1 E2]; cbn; split; [lia|].
  constructor; [lia|exact E2].
Qed.

(** [acc *= table[basis[:,k]]] keeps the shape of [acc]. *)
Lemma times_selected_shape (r c : nat) (acc table : ndarray flt) (basis : ndarray Z)
    (k : nat) (acc' : ndarray flt) :
  times_selected acc table basis k = Ok acc' ->
  has_shape r c acc -> has_shape r c acc'.
Proof.
  unfold times_selected; intros H (H0 & H1 & Hw).
  destruct (np.column basis k) as [idx|]; [|discriminate]; cbn in H.
  destruct (np.take (data table) idx) as [sel|]; [|discriminate]; cbn in H.
  destruct (np.mul_rows (data acc) sel) as [rows|] eqn:E; [|discriminate]; cbn in H.
  injection H as <-.
  apply mul_rows_lengths in E.
  destruct (Forall2_same_lengths E Hw) as [E1 E2].
  unfold has_shape, shape0, well_shaped in *; cbn; repeat split; congruence.
Qed.

Lemma lfold_invariant {A B} (Inv : A -> Prop) (f : A -> B -> logged A)
    (l : list B) (a r : A) :
  (forall acc x acc', fst (f acc x) = Ok acc' -> Inv acc -> Inv acc') ->
  Inv a -> fst (lfold f l a) = Ok r -> Inv r.
Proof.
  intros Hf; revert a; induction l as [|x l IH]; intros a Ha; cbn [lfold].
  - intros H; injection H as <-; exact Ha.
  - intros H; apply lbind_ok in H; destruct H as (a' & Ha' & H & _).
    eapply IH; [|exact H]; eapply Hf; eauto.
Qed.

Lemma lmap_Forall2 {A B} (f : A -> logged B) (l : list A) (ys : list B) :
  fst (lmap f l) = Ok ys -> Forall2 (fun x y => fst (f x) = Ok y) l ys.
Proof.
  revert ys; induction l as [|x l IH]; intros ys; cbn [lmap].
  - intros H; injection H as <-; constructor.
  - intros H; apply lbind_ok in H; destruct H as (y & Hy & H & _).
    apply lbind_ok in H; destruct H as (ys' & Hys & H & _).
    injection H as <-; constructor; auto.
Qed.

Lemma Forall2_nth_l {A B} (R : A -> B -> Prop) (l : list A) (ys : list B)
    (i : nat) (x : A) :
  Forall2 R l ys -> nth_error l i = Some x ->
  exists y, nth_error ys i = Some y /\ R x y.
Proof.
  intros H; revert i; induction H as [|x' y l ys Hxy _ IH]; intros [|i]; cbn;
    try discriminate.
  - intros E; injection E as <-; eauto.
  - apply IH.
Qed.

Lemma Forall2_length_eq {A B} (R : A -> B -> Prop) (l : list A) (ys : list B) :
  Forall2 R l ys -> length ys = length l.
Proof. induction 1; cbn; congruence. Qed.

(** The product of the tables, row by row of the basis, has the shape it
    starts with. *)
Lemma product_of_tables_shape (p : list tables) (basis : ndarray Z) (r c : nat)
    (start P : ndarray flt) :
  has_shape r c start ->
  fst (lfold (fun polynomial k =>
                match nth_error p k with
                | Some t => lift (times_selected polynomial (tbl_p t) basis k)
                | None => lift (Raise IndexError)
                end)
             (seq 0 (shape1 basis)) start) = Ok P ->
  has_shape r c P.
Proof.
  intros Hs H.
  eapply (@lfold_invariant _ _ (has_shape r c)) in H; [exact H| |exact Hs].
  intros acc k acc'; destruct (nth_error p k); [|discriminate].
  apply times_selected_shape.
Qed.

(** Past the univariate shortcut the array [get_poly] returns has a row
    for every multi-index and a column for every point, whatever the shapes
    of the tables the evaluators hand back. *)
Theorem get_poly_shape (ps : list Param) (b : Basis) (x : ndarray flt)
    (custom_multi_index : option (ndarray Z)) (P : ndarray flt) :
  let basis := match custom_multi_index with
               | None => elements b
               | Some c => c
               end in
  shape1 basis <> 1 ->
  fst (get_poly ps b x custom_multi_index) = Ok P ->
  shape0 P = shape0 basis /\ shape1 P = shape0 x /\ well_shaped P.
Proof.
  intros basis Hd; unfold get_poly; fold basis.
  apply Nat.eqb_neq in Hd; rewrite Hd; intros H.
  apply lbind_ok in H; destruct H as (p & _ & H & _).
  change (has_shape (shape0 basis) (shape0 x) P).
  eapply product_of_tables_shape; [apply full_shape|exact H].
Qed.

(** Past the univariate shortcut [get_poly_grad] returns one array for
    every dimension, each with a row for every multi-index and a column for
    every point; the array of a dimension that [dim_index] leaves out is all
    zeros. *)
Theorem get_poly_grad_directions (ps : list Param) (b : Basis) (x : ndarray flt)
    (dim_index : option (list nat)) (R : derivative_tables) :
  shape1 (elements b) <> 1 ->
  fst (get_poly_grad ps b x dim_index) = Ok R ->
  exists l,
    R = PerDirection l
    /\ length l = shape1 (elements b)
    /\ Forall (fun G => shape0 G = cardinality b /\ shape1 G = shape0 x
                        /\ well_shaped G) l
    /\ (forall v idx, dim_index = Some idx -> v < shape1 (elements b) ->
                      ~ In v idx ->
                      nth_error l v = Some (np.full f0 (cardinality b) (shape0 x))).
Proof.
  intros Hd; unfold get_poly_grad.
  apply Nat.eqb_neq in Hd; rewrite Hd; intros H.
  apply lbind_ok in H; destruct H as (p & _ & H & _).
  apply lbind_ok in H; destruct H as (l & Hl & H & _).
  injection H as <-; exists l; split; [reflexivity|].
  apply lmap_Forall2 in Hl.
  split; [rewrite (Forall2_length_eq Hl); apply length_seq|].
  split.
  - apply Forall_forall; intros G HG.
    apply Forall2_in_r with (y := G) in Hl; [|exact HG].
    destruct Hl as (v & _ & Hv).
    change (has_shape (cardinality b) (shape0 x) G).
    destruct (negb _) in Hv.
    + injection Hv as <-; apply full_shape.
    + eapply (@lfold_invariant _ _ (has_shape (cardinality b) (shape0 x))) in Hv;
        [exact Hv| |apply full_shape].
      intros acc k acc'; destruct (nth_error p k); [|discriminate].
      apply times_selected_shape.
  - intros v idx -> Hv Hnot.
    destruct (@Forall2_nth_l _ _ _ _ _ v v Hl) as (G & HG & E).
    { rewrite nth_error_seq; destruct (Nat.ltb_spec v (shape1 (elements b)));
        [reflexivity|lia]. }
    rewrite HG; f_equal.
    replace (existsb (Nat.eqb v) idx) with false in E; [injection E as <-; reflexivity|].
    symmetry; apply not_true_is_false; intros Hex.
    apply existsb_exists in Hex; destruct Hex as (u & Hu & Huv).
    apply Nat.eqb_eq in Huv; subst u; contradiction.
Qed.

End Shapes.

Section Hessian.
Context {F : Scalar}.

Lemma fold_left_ext {A B} (f g : A -> B -> A) (l : list B) (a : A) :
  (forall a x, f a x = g a x) -> fold_left f l a = fold_left g l a.
Proof.
  intros H; revert a; induction l as [|x l IH]; intros a; cbn; [reflexivity|].
  rewrite H; apply IH.
Qed.

Lemma rmap_ext {A B} (f g : A -> result B) (l : list A) :
  (forall x, f x = g x) -> rmap f l = rmap g l.
Proof.
  intros H; induction l as [|x l IH]; cbn; [reflexivity|].
  rewrite H, IH; reflexivity.
Qed.

(** The two directions of a second derivative enter the row alike. *)
Lemma hessian_row_symmetric (p : list tables) (basis_row : list Z) (w v : nat)
    (dimensions no_of_points : nat) :
  hessian_row p basis_row w v dimensions no_of_points
  = hessian_row p basis_row v w dimensions no_of_points.
Proof.
  unfold hessian_row; apply fold_left_ext; intros temp k.
  destruct temp as [temp|]; [|reflexivity]; cbn.
  destruct (nth_error p k) as [t|]; [|reflexivity]; cbn.
  destruct (nth_error basis_row k) as [e|]; [|reflexivity]; cbn.
  replace (if (k =? v) && (v =? w) then tbl_d2p t
           else if k =? v then tbl_dp t else if k =? w then tbl_dp t else tbl_p t)
    with (if (k =? w) && (w =? v) then tbl_d2p t
          else if k =? w then tbl_dp t else if k =? v then tbl_dp t else tbl_p t);
    [reflexivity|].
  destruct (Nat.eqb_spec k w), (Nat.eqb_spec k v), (Nat.eqb_spec w v),
    (Nat.eqb_spec v w); cbn; try reflexivity; lia.
Qed.

Lemma nth_error_list_prod {A B} (l : list A) (l' : list B) (i j : nat) (x : A) (y : B) :
  nth_error l i = Some x -> nth_error l' j = Some y ->
  nth_error (list_prod l l') (i * length l' + j) = Some (x, y).
Proof.
  revert i; induction l as [|a l IH]; intros [|i]; cbn; try discriminate.
  - intros E Hy; injection E as <-.
    rewrite nth_error_app1
      by (rewrite length_map; apply nth_error_Some; congruence).
    rewrite nth_error_map, Hy; reflexivity.
  - intros Hx Hy.
    rewrite nth_error_app2 by (rewrite length_map; lia).
    rewrite length_map.
    replace (length l' + i * length l' + j - length l') with (i * length l' + j) by lia.
    apply IH; assumption.
Qed.

Lemma hessian_row_length (p : list tables) (basis_row : list Z) (w v : nat)
    (dimensions no_of_points : nat) (row : list flt) :
  hessian_row p basis_row w v dimensions no_of_points = Ok row ->
  length row = no_of_points.
Proof.
  unfold hessian_row.
  assert (G : forall l (start : result (list flt)) row,
             (forall t, start = Ok t -> length t = no_of_points) ->
             fold_left
               (fun temp k =>
                  (temp <- temp ;;
                   t <- of_option IndexError (nth_error p k) ;;
                   e <- of_option IndexError (nth_error basis_row k) ;;
                   let table := if (k =? w) && (w =? v) then tbl_d2p t
                                else if k =? w then tbl_dp t
                                else if k =? v then tbl_dp t
                                else tbl_p t in
                   row <- np.item (data table) e ;;
                   np.zip_row (fun x y => fmul y x) temp row)%res)
               l start = Ok row ->
             length row = no_of_points).
  { induction l as [|k l IH]; intros start row' Hs; cbn [fold_left].
    - apply Hs.
    - apply IH; intros t Ht.
      destruct start as [temp|]; [|discriminate]; cbn in Ht.
      destruct (nth_error p k); [|discriminate]; cbn in Ht.
      destruct (nth_error basis_row k); [|discriminate]; cbn in Ht.
      destruct (np.item _ _); [|discriminate]; cbn in Ht.
      apply zip_row_length in Ht; rewrite Ht; apply Hs; reflexivity. }
  apply G; intros t E; injection E as <-; apply repeat_length.
Qed.

(** Past the univariate shortcut [get_poly_hess] returns an array for every
    pair of dimensions, the pair [(w, v)] at position [w * d + v]; each has a
    row for every multi-index and a column for every point, and the arrays
    of [(w, v)] and [(v, w)] are the same. *)
Theorem get_poly_hess_symmetric (ps : list Param) (b : Basis) (x : ndarray flt)
    (H : derivative_tables) :
  let d := shape1 (elements b) in
  d <> 1 ->
  fst (get_poly_hess ps b x) = Ok H ->
  exists l,
    H = PerDirection l
    /\ length l = d * d
    /\ Forall (fun G => shape0 G = cardinality b /\ shape1 G = shape0 x
                        /\ well_shaped G) l
    /\ (forall w v, w < d -> v < d ->
                    nth_error l (w * d + v) = nth_error l (v * d + w)).
Proof.
  intros d Hd; unfold get_poly_hess; fold d.
  apply Nat.eqb_neq in Hd; rewrite Hd; intros E.
  apply lbind_ok in E; destruct E as (p & _ & E & _).
  apply lbind_ok in E; destruct E as (l & Hl & E & _).
  injection E as <-; exists l; split; [reflexivity|].
  apply lift_ok in Hl.
  pose proof (rmap_Forall2 _ _ Hl) as HF.
  split; [rewrite (rmap_length _ _ Hl), length_prod, !length_seq; reflexivity|].
  split.
  - apply Forall_forall; intros G HG.
    apply Forall2_in_r with (y := G) in HF; [|exact HG].
    destruct HF as ([w v] & _ & E); cbn [fst snd] in E.
    destruct (rmap _ (data (elements b))) as [rows|] eqn:Hrows; [|discriminate].
    injection E as <-; unfold cardinality, shape0, well_shaped; cbn.
    split; [apply (rmap_length _ _ Hrows)|split; [reflexivity|]].
    apply Forall_forall; intros row Hrow.
    apply rmap_Forall2 in Hrows.
    apply Forall2_in_r with (y := row) in Hrows; [|exact Hrow].
    destruct Hrows as (basis_row & _ & E).
    eapply hessian_row_length; exact E.
  - assert (G : forall w v, w < d -> v < d ->
                 exists y, nth_error l (w * d + v) = Some y
                           /\ (rows <- rmap (fun basis_row =>
                                               hessian_row p basis_row w v d (shape0 x))
                                            (data (elements b)) ;;
                               Ok (mk_nd (shape0 x) rows))%res = Ok y).
    { intros w v Hw Hv.
      assert (Hn : nth_error (list_prod (seq 0 d) (seq 0 d)) (w * d + v) = Some (w, v)).
      { pose proof (@nth_error_list_prod _ _ (seq 0 d) (seq 0 d) w v w v) as Hn.
        rewrite length_seq in Hn; apply Hn; rewrite nth_error_seq;
          [destruct (Nat.ltb_spec w d)|destruct (Nat.ltb_spec v d)];
          first [reflexivity|lia]. }
      revert Hn; generalize (w * d + v) as i; intros i Hn.
      clear Hl; revert i Hn.
      induction HF as [|wv y l0 ys Hy _ IH]; intros [|i]; cbn; try discriminate.
      - intros Hn; injection Hn as ->; exists y; auto.
      - apply IH. }
    intros w v Hw Hv.
    destruct (G w v Hw Hv) as (y & Hy & Ey), (G v w Hv Hw) as (y' & Hy' & Ey').
    rewrite Hy, Hy'; f_equal.
    rewrite (rmap_ext _ (fun basis_row => hessian_row p basis_row v w d (shape0 x))) in Ey
      by (intros; apply hessian_row_symmetric).
    congruence.
Qed.

End Hessian.

(** ** Gradients of the model *)

Section Cells.
Context {F : Scalar}.

Lemma nth_error_concat_blocks {A} (blocks : list (list A)) (r i j : nat) (block : list A) :
  Forall (fun bl => length bl = r) blocks ->
  nth_error blocks i = Some block ->
  j < r ->
  nth_error (concat blocks) (i * r + j) = nth_error block j.
Proof.
  intros H; revert i; induction H as [|bl blocks Hbl _ IH]; intros [|i]; cbn;
    try discriminate.
  - intros E Hj; injection E as ->.
    apply nth_error_app1; lia.
  - intros E Hj.
    rewrite nth_error_app2 by lia.
    replace (r + i * r + j - length bl) with (i * r + j) by lia.
    apply IH; assumption.
Qed.

Lemma length_concat_blocks {A} (blocks : list (list A)) (r : nat) :
  Forall (fun bl => length bl = r) blocks ->
  length (concat blocks) = length blocks * r.
Proof.
  induction 1 as [|bl blocks Hbl _ IH]; cbn; [reflexivity|].
  rewrite length_app, IH, Hbl; reflexivity.
Qed.

(** [cell2matrix] stacks a block for every array of the list: the block of
    [G[i]] is [W G[i].T] cut to the shape of [G[0].T], so that row
    [i * rows + j] of the result is row [j] of the block [i]. *)
Theorem cell2matrix_blocks (l : list (ndarray flt)) (W G0 C : ndarray flt) :
  nth_error l 0 = Some G0 ->
  cell2matrix (PerDirection l) W = Ok C ->
  let rows := shape1 G0 in
  let cols := shape0 G0 in
  shape0 C = length l * rows
  /\ shape1 C = cols
  /\ well_shaped C
  /\ (forall i Gi j, nth_error l i = Some Gi -> j < rows ->
        exists K row,
          np.dot W (np.transpose Gi) = Ok K
          /\ nth_error (data C) (i * rows + j) = Some row
          /\ rmap (fun k => item2 K j k) (seq 0 cols) = Ok row).
Proof.
  intros H0 H rows cols; unfold cell2matrix in H; rewrite H0 in H; cbn [of_option rbind] in H.
  change (shape0 (np.transpose G0)) with (length (data (np.transpose G0))) in H.
  cbn [np.transpose data shape1] in H; rewrite length_map, length_seq in H.
  fold rows cols in H.
  destruct (rmap _ l) as [blocks|] eqn:Hb; [|discriminate]; cbn in H; injection H as <-.
  apply rmap_Forall2 in Hb.
  assert (Hlen : Forall (fun bl => length bl = rows) blocks).
  { apply Forall_forall; intros bl Hbl.
    apply Forall2_in_r with (y := bl) in Hb; [|exact Hbl].
    destruct Hb as (Gi & _ & E).
    destruct (np.dot W (np.transpose Gi)) as [K|]; [|discriminate]; cbn in E.
    rewrite (rmap_length _ _ E); apply length_seq. }
  unfold shape0, well_shaped; cbn [data shape1].
  split; [rewrite (length_concat_blocks Hlen); f_equal;
          clear - Hb; induction Hb; cbn; congruence|].
  split; [reflexivity|].
  split.
  - apply Forall_forall; intros row Hrow.
    apply in_concat in Hrow; destruct Hrow as (bl & Hbl & Hrow).
    apply Forall2_in_r with (y := bl) in Hb; [|exact Hbl].
    destruct Hb as (Gi & _ & E).
    destruct (np.dot W (np.transpose Gi)) as [K|]; [|discriminate]; cbn in E.
    apply rmap_Forall2 in E.
    apply Forall2_in_r with (y := row) in E; [|exact Hrow].
    destruct E as (j & _ & E).
    rewrite (rmap_length _ _ E); apply length_seq.
  - intros i Gi j Hi Hj.
    assert (G : exists bl, nth_error blocks i = Some bl
                /\ (K <- np.dot W (np.transpose Gi) ;;
                    rmap (fun j => rmap (fun k => item2 K j k) (seq 0 cols))
                         (seq 0 rows))%res = Ok bl).
    { clear - Hb Hi; revert i Hi.
      induction Hb as [|G bl l blocks E _ IH]; intros [|i]; cbn; try discriminate.
      - intros Hi; injection Hi as ->; eauto.
      - apply IH. }
    destruct G as (bl & Hbl & E).
    destruct (np.dot W (np.transpose Gi)) as [K|]; [|discriminate]; cbn in E.
    rewrite (nth_error_concat_blocks _ Hlen Hbl Hj).
    apply rmap_Forall2 in E.
    assert (G : exists row, nth_error bl j = Some row
                /\ rmap (fun k => item2 K j k) (seq 0 cols) = Ok row).
    { assert (Hn : nth_error (seq 0 rows) j = Some j)
        by (rewrite nth_error_seq; destruct (Nat.ltb_spec j rows); [reflexivity|lia]).
      clear - E Hn; revert Hn; generalize j at 1 3 as n.
      induction E as [|j' row js bl E _ IH]; intros [|n]; cbn; try discriminate.
      - intros Hn; injection Hn as ->; eauto.
      - apply IH. }
    destruct G as (row & Hrow & Er).
    exists K, row; auto.
Qed.

End Cells.

Section GradientEvaluations.
Context {F : Scalar} {X : Externals}.

(** [evaluate_model_gradients] takes the number of dimensions from the
    first point: without points it raises; otherwise the array has a row for
    every point and a column for every dimension, entry [(i, j)] being entry
    [j] of the gradient at point [i]. *)
Theorem evaluate_model_gradients_shape (points : ndarray flt)
    (fungrad : list flt -> list flt) (g : ndarray flt) :
  evaluate_model_gradients points fungrad = Ok g ->
  exists first,
    nth_error (data points) 0 = Some first
    /\ shape0 g = shape0 points
    /\ shape1 g = length first
    /\ well_shaped g
    /\ (forall i x j, nth_error (data points) i = Some x -> j < length first ->
          exists v, nth_error (fungrad x) j = Some v /\ item2 g i j = Ok v).
Proof.
  unfold evaluate_model_gradients.
  destruct (nth_error (data points) 0) as [first|]; [|discriminate]; cbn.
  destruct (rmap _ (data points)) as [rows|] eqn:E; [|discriminate]; cbn.
  intros H; injection H as <-; exists first; split; [reflexivity|].
  unfold shape0, well_shaped, item2; cbn [data shape1].
  split; [apply (rmap_length _ _ E)|split; [reflexivity|]].
  apply rmap_Forall2 in E; split.
  - apply Forall_forall; intros row Hrow.
    apply Forall2_in_r with (y := row) in E; [|exact Hrow].
    destruct E as (x & _ & E).
    rewrite (rmap_length _ _ E); apply length_seq.
  - intros i x j Hx Hj.
    destruct (Forall2_nth_l i E Hx) as (row & Hrow & Er).
    rewrite Hrow; cbn.
    apply rmap_Forall2 in Er.
    destruct (@Forall2_nth_l _ _ _ _ _ j j Er) as (v & Hv & Ev).
    { rewrite nth_error_seq; destruct (Nat.ltb_spec j (length first));
        [reflexivity|lia]. }
    rewrite Hv; cbn.
    destruct (nth_error (fungrad x) j) as [v'|]; [|discriminate].
    injection Ev as ->; eauto.
Qed.

End GradientEvaluations.

Section Flattening.
Context {F : Scalar} {X : Externals}.

Lemma set_row_at {A} (done rest : list (list A)) (r row : list A) :
  set_row (done ++ r :: rest) (length done) row = done ++ row :: rest.
Proof. induction done; cbn; [reflexivity|f_equal; assumption]. Qed.

Lemma nth_error_nth_ok {A} (l : list A) (i : nat) (d : A) :
  i < length l -> nth_error l i = Some (nth i l d).
Proof. intros H; apply nth_error_nth'; exact H. Qed.

Lemma item2_ok {A} (a : ndarray A) (i j : nat) (d : A) :
  i < shape0 a -> j < length (nth i (data a) []) ->
  item2 a i j = Ok (nth j (nth i (data a) []) d).
Proof.
  intros Hi Hj; unfold item2.
  rewrite (nth_error_nth_ok _ [] Hi); cbn.
  rewrite (nth_error_nth_ok _ d Hj); reflexivity.
Qed.

Lemma nth_error_combine_seq {A} (l : list A) (a i : nat) :
  nth_error (combine (seq a (length l)) l) i
  = option_map (fun x => (a + i, x)) (nth_error l i).
Proof.
  revert a i; induction l as [|x l IH]; intros a [|i]; cbn; try reflexivity.
  - rewrite Nat.add_0_r; reflexivity.
  - rewrite IH; replace (S a + i) with (a + S i) by lia; reflexivity.
Qed.

Lemma diag_item (v : list flt) (i : nat) :
  i < length v -> item2 (np.diag v) i i = Ok (nth i v f0).
Proof.
  intros Hi; unfold item2, np.diag; cbn [data].
  rewrite nth_error_map.
  assert (E : nth_error (combine (seq 0 (length v)) v) i = Some (i, nth i v f0)).
  { rewrite nth_error_combine_seq, (nth_error_nth_ok _ f0 Hi); reflexivity. }
  rewrite E; cbn.
  rewrite nth_error_map, nth_error_seq.
  destruct (Nat.ltb_spec i (length v)); [|lia]; cbn.
  rewrite Nat.eqb_refl; reflexivity.
Qed.

Lemma gradient_loop (ws : list flt) (g : ndarray flt) (l : list (nat * nat))
    (done rest : list (list flt)) (s : Poly) :
  (forall k ji, nth_error l k = Some ji ->
                fst ji * shape0 g + snd ji = length done + k) ->
  (forall ji, In ji l -> snd ji < length ws /\ snd ji < shape0 g
                         /\ fst ji < length (nth (snd ji) (data g) [])) ->
  length l <= length rest ->
  for_each l
    (fun ji =>
       let j := fst ji in
       let i := snd ji in
       let counter := j * shape0 g + i in
       bind (pure (item2 (np.diag (map fsqrt ws)) i i))
         (fun w => bind (pure (item2 g i j))
            (fun gv => bind (attr _gradient_evaluations)
               (fun evaluations =>
                  assign (set__gradient_evaluations
                            (Some (mk_nd (shape1 evaluations)
                                         (set_row (data evaluations) counter
                                                  [fmul w gv]))))))))
    (set__gradient_evaluations (Some (mk_nd 1 (done ++ rest))) s)
  = Returns tt
      (set__gradient_evaluations
         (Some (mk_nd 1 (done ++ map (fun ji => [weighted_gradient ws g ji]) l
                              ++ skipn (length l) rest))) s).
Proof.
  revert done rest; induction l as [|[j i] l IH]; intros done rest Hpos Hin Hlen.
  - reflexivity.
  - cbn [for_each]; unfold bind at 1; cbv zeta; cbn [fst snd].
    destruct (Hin (j, i) (or_introl eq_refl)) as (Hw & Hi & Hj); cbn [fst snd] in *.
    unfold bind at 1.
    rewrite diag_item by (rewrite length_map; exact Hw).
    cbn [pure]; unfold bind at 1.
    rewrite (item2_ok g f0 Hi Hj); cbn [pure].
    unfold bind at 1, attr at 1, assign at 1.
    cbn [_gradient_evaluations set__gradient_evaluations shape1 data].
    destruct rest as [|r rest]; [cbn in Hlen; lia|].
    pose proof (Hpos 0 (j, i) eq_refl) as E0; cbn [fst snd] in E0.
    rewrite E0, Nat.add_0_r, set_row_at.
    specialize (IH (done ++ [[fmul (nth i (map fsqrt ws) f0)
                                   (nth j (nth i (data g) []) f0)]]) rest).
    rewrite <- !app_assoc in IH; cbn [app] in IH.
    match goal with
    | |- ?lhs = _ => match type of IH with
                     | _ -> _ -> _ -> ?lhs' = _ => change lhs with lhs'
                     end
    end.
    rewrite IH.
    + cbn [map length skipn]; unfold weighted_gradient at 2; cbn [fst snd].
      replace (nth i (map fsqrt ws) f0) with (fsqrt (nth i ws f0)); [reflexivity|].
      rewrite (nth_indep (map fsqrt ws) f0 (fsqrt f0))
        by (rewrite length_map; exact Hw).
      symmetry; apply map_nth.
    + intros k ji Hk; rewrite (Hpos (S k) ji Hk), length_app; cbn; lia.
    + intros ji Hji; apply Hin; right; exact Hji.
    + cbn in Hlen; lia.
Qed.

Lemma list_prod_position (q p k : nat) (ji : nat * nat) :
  nth_error (list_prod (seq 0 q) (seq 0 p)) k = Some ji ->
  fst ji * p + snd ji = k /\ fst ji < q /\ snd ji < p.
Proof.
  intros H.
  assert (Hk : k < q * p).
  { assert (Hk : k < length (list_prod (seq 0 q) (seq 0 p)))
      by (apply nth_error_Some; congruence).
    rewrite length_prod, !length_seq in Hk; exact Hk. }
  assert (Hp : 0 < p) by (destruct p; [lia|lia]).
  assert (Hq : k / p < q) by (apply Nat.Div0.div_lt_upper_bound; lia).
  assert (Hr : k mod p < p) by (apply Nat.mod_upper_bound; lia).
  pose proof (@nth_error_list_prod _ _ (seq 0 q) (seq 0 p) (k / p) (k mod p)
                (k / p) (k mod p)) as E.
  rewrite length_seq in E.
  rewrite !nth_error_seq in E.
  destruct (Nat.ltb_spec (k / p) q); [|lia].
  destruct (Nat.ltb_spec (k mod p) p); [|lia].
  specialize (E eq_refl eq_refl).
  replace (k / p * p + k mod p) with k in E
    by (rewrite (Nat.div_mod_eq k p) at 1; lia).
  rewrite E in H; injection H as <-; cbn [fst snd].
  split; [rewrite (Nat.div_mod_eq k p) at 3; lia|split; assumption].
Qed.

Lemma gradient_evaluations_flat (grad_values : ndarray flt) (self : Poly)
    (weights : list flt) :
  _quadrature_weights self = Some weights ->
  shape0 grad_values <= length weights ->
  well_shaped grad_values ->
  set_gradient_evaluations grad_values self
  = Returns tt
      (set__gradient_evaluations
         (Some (mk_nd 1 (map (fun ji => [weighted_gradient weights grad_values ji])
                             (list_prod (seq 0 (shape1 grad_values))
                                        (seq 0 (shape0 grad_values))))))
         self).
Proof.
  intros Hw Hp Hg.
  set (p := shape0 grad_values) in *; set (q := shape1 grad_values).
  unfold set_gradient_evaluations; fold p q.
  unfold bind at 1, assign at 1, bind at 1, attr at 1.
  cbn [_quadrature_weights set__gradient_evaluations]; rewrite Hw.
  pose proof (@gradient_loop weights grad_values (list_prod (seq 0 q) (seq 0 p))
                [] (repeat [f0] (p * q)) self) as L.
  cbn [app length Nat.add] in L.
  rewrite skipn_all2 in L
    by (rewrite repeat_length, length_prod, !length_seq; lia).
  rewrite app_nil_r in L.
  replace (np.full f0 (p * q) 1) with (mk_nd 1 (repeat [f0] (p * q)))
    by reflexivity.
  apply L.
  - intros k ji Hk; apply list_prod_position in Hk; fold p; lia.
  - intros ji Hji; apply In_nth_error in Hji; destruct Hji as (k & Hk).
    apply list_prod_position in Hk; destruct Hk as (_ & Hj & Hi).
    fold p; split; [lia|split; [exact Hi|]].
    unfold well_shaped in Hg; rewrite Forall_forall in Hg.
    rewrite (Hg (nth (snd ji) (data grad_values) [])); [exact Hj|].
    apply nth_In; exact Hi.
  - rewrite repeat_length, length_prod, !length_seq; lia.
Qed.

(** Lines 355-362: the gradient evaluations are laid out dimension by
    dimension -- entry [j * p + i] is the derivative along dimension [j] at
    point [i] -- each multiplied by the square root of the weight of its
    point; the column has [p * q] rows. *)
Theorem gradient_evaluations_flattened (grad_values : ndarray flt) (self : Poly)
    (weights : list flt) :
  _quadrature_weights self = Some weights ->
  shape0 grad_values <= length weights ->
  well_shaped grad_values ->
  let p := shape0 grad_values in
  let q := shape1 grad_values in
  let flat := map (fun ji => [weighted_gradient weights grad_values ji])
                  (list_prod (seq 0 q) (seq 0 p)) in
  set_gradient_evaluations grad_values self
  = Returns tt (set__gradient_evaluations (Some (mk_nd 1 flat)) self)
  /\ length flat = p * q
  /\ (forall i j, i < p -> j < q ->
        nth_error flat (j * p + i)
        = Some [fmul (fsqrt (nth i weights f0))
                     (nth j (nth i (data grad_values) []) f0)]).
Proof.
  intros Hw Hp Hg p q flat.
  split; [|split].
  - apply gradient_evaluations_flat; assumption.
  - unfold flat; rewrite length_map, length_prod, !length_seq; lia.
  - intros i j Hi Hj; unfold flat.
    rewrite nth_error_map.
    pose proof (@nth_error_list_prod _ _ (seq 0 q) (seq 0 p) j i j i) as E.
    rewrite length_seq, !nth_error_seq in E.
    destruct (Nat.ltb_spec j q); [|lia]; destruct (Nat.ltb_spec i p); [|lia].
    rewrite (E eq_refl eq_refl); reflexivity.
Qed.

End Flattening.

(** ** Methods around the fit *)

Section ParameterFacts.
Context {F : Scalar} {X : Externals}.

(** [_set_parameters] replaces the parameters and generates the design
    again, from the new parameters and the basis, the inputs and the mesh
    the object has; the number of dimensions, the orders taken from the
    parameters at construction, the basis, the evaluations of the model and
    the coefficients stay as they were. *)
Theorem _set_parameters_keeps_orders (ps : list Param) (self : Poly) :
  match _set_parameters ps self with
  | Returns _ self' | Raises _ self' =>
      parameters self' = ps
      /\ dimensions self' = dimensions self
      /\ self_orders self' = self_orders self
      /\ parameters_order self' = parameters_order self
      /\ highest_order self' = highest_order self
      /\ basis self' = basis self
      /\ _model_evaluations self' = _model_evaluations self
      /\ coefficients self' = coefficients self
      /\ statistics_object self' = statistics_object self
      /\ match mesh self with
         | Some me => quadrature self'
                      = Some (Quadrature ps (basis self) (inputs self) me)
         | None => self' = set_parameters ps self
         end
  | OutOfFuel => False
  end.
Proof.
  set (I := fun s => parameters s = ps
      /\ dimensions s = dimensions self
      /\ self_orders s = self_orders self
      /\ parameters_order s = parameters_order self
      /\ highest_order s = highest_order self
      /\ basis s = basis self
      /\ _model_evaluations s = _model_evaluations self
      /\ coefficients s = coefficients self
      /\ statistics_object s = statistics_object self).
  assert (H : ends I _set_points_and_weights)
    by (apply _set_points_and_weights_ends; unfold I; auto).
  specialize (H (set_parameters ps self)).
  assert (HI : I (set_parameters ps self)) by (unfold I; cbn; auto 10).
  specialize (H HI); unfold I in H.
  unfold _set_parameters, bind at 1, assign.
  assert (Q : match mesh self with
              | Some me =>
                  match _set_points_and_weights (set_parameters ps self) with
                  | Returns _ self' | Raises _ self' =>
                      quadrature self' = Some (Quadrature ps (basis self) (inputs self) me)
                  | OutOfFuel => True
                  end
              | None => _set_points_and_weights (set_parameters ps self)
                        = Raises AttributeError (set_parameters ps self)
              end).
  { destruct (mesh self) as [me|] eqn:Hm;
      unfold _set_points_and_weights, bind at 1, attr at 1;
      cbn [mesh set_parameters]; rewrite Hm; [|reflexivity].
    unfold bind, read, assign; cbn [parameters basis inputs set_parameters].
    assert (K : keeps (fun s => quadrature s
                         = Some (Quadrature ps (basis self) (inputs self) me))
                  (retain_design (Quadrature ps (basis self) (inputs self) me)))
      by (unfold retain_design; frame).
    apply K; reflexivity. }
  destruct (mesh self) as [me|].
  - destruct (_set_points_and_weights (set_parameters ps self)) as [[] s|e s|];
      [| |exact H].
    all: destruct H as (H1 & H2 & H3 & H4 & H5 & H6 & H7 & H8 & H9); auto 11.
  - rewrite Q; cbn; auto 11.
Qed.

End ParameterFacts.

Section CallableFit.
Context {F : Scalar} {X : Externals}.

Lemma argwhere_clean_column (l : list flt) :
  Forall (fun v => fisnan v = false) l ->
  np.argwhere_isnan_rows (mk_nd 1 (map (fun v => [v]) l)) = [].
Proof.
  intros H; apply argwhere_of_clean.
  apply Forall_map; eapply Forall_impl; [|exact H].
  intros v Hv; unfold np.has_nan; cbn; rewrite Hv; reflexivity.
Qed.

(** [set_model] with a callable, no gradients asked for and a mesh other
    than a sparse grid: the model is evaluated at each point of the design,
    in the order of the design, into a column; when none of the values is
    not-a-number the statistics object is dropped and the coefficients are
    what the solver returns for the weighted basis matrix of the design and
    the weighted column.  A gradient argument is not looked at. *)
Theorem set_model_fits_callable (fuel : nat) (function : list flt -> flt)
    (model_grads : option grads_arg) (self : Poly) (me : string)
    (sv : solver_fn) (pts : ndarray flt) (w : list flt) (P A b : ndarray flt) :
  _quadrature_points self = Some pts ->
  _quadrature_weights self = Some w ->
  mesh self = Some me ->
  String.eqb me "sparse-grid" = false ->
  solver self = Some sv ->
  gradient_flag self = 0 ->
  Forall (fun x => fisnan (function x) = false) (data pts) ->
  let y := evaluate_model pts function in
  fst (get_poly (parameters self) (basis self) pts None) = Ok P ->
  weighted_basis P w = Ok A ->
  np.dot (np.diag (map fsqrt w)) y = Ok b ->
  set_model (S (S fuel)) (Some (Callable function)) model_grads self
  = Returns tt
      (set_coefficients (Some (sv A b None))
         (set_statistics_object None (set__model_evaluations (Some y) self)))
  /\ shape0 y = shape0 pts
  /\ shape1 y = 1
  /\ (forall i x, nth_error (data pts) i = Some x ->
                  nth_error (data y) i = Some [function x]).
Proof.
  intros Hp Hw Hm Hne Hs Hg Hclean y HP HA Hb.
  split; [|split; [|split]].
  - rewrite set_model_S.
    assert (Ha : attach_model (Some (Callable function)) model_grads self
                 = Returns tt (set__model_evaluations (Some y) self)).
    { unfold attach_model, bind, read, attr, assign, ret.
      destruct (outputs self); rewrite Hp; cbn; rewrite Hg; reflexivity. }
    unfold bind at 1; rewrite Ha; unfold bind at 1, assign.
    rewrite (@_set_coefficients_clean _ _ fuel _ y); [|reflexivity|].
    + apply (@solve_standard _ _ _ me sv pts w y P A b); auto.
    + unfold y, evaluate_model; rewrite <- (map_map function (fun v => [v])).
      apply argwhere_clean_column, Forall_map; exact Hclean.
  - unfold y, evaluate_model, shape0; cbn; apply length_map.
  - reflexivity.
  - intros i x Hx; unfold y, evaluate_model; cbn.
    rewrite nth_error_map, Hx; reflexivity.
Qed.

End CallableFit.

Section StatisticsFacts.
Context {F : Scalar} {X : Externals}.

(** The statistics object is built once: [_set_statistics] on an object
    that has one changes nothing, and one it builds holds the coefficients
    and the basis of the object at that moment, with Sobol' orders up to the
    highest order of the parameters or 8, whichever is less.  A further call
    leaves the object as it is. *)
Theorem statistics_built_once (self self' : Poly) :
  _set_statistics self = Returns tt self' ->
  _set_statistics self' = Returns tt self'
  /\ exists st,
       statistics_object self' = Some st
       /\ self' = set_statistics_object (Some st) self
       /\ (statistics_object self <> None -> self' = self)
       /\ (statistics_object self = None ->
           exists h,
             highest_order self = Some h
             /\ coefficients self = Some (stat_coefficients st)
             /\ stat_basis st = basis self
             /\ stat_parameters st = parameters self
             /\ stat_max_sobol_order st = Z.min h MAXIMUM_ORDER_FOR_STATS).
Proof.
  unfold _set_statistics at 1, bind at 1, read at 1.
  destruct (statistics_object self) as [st|] eqn:Hst.
  - intros E; injection E as <-; split.
    + unfold _set_statistics, bind, read; rewrite Hst; reflexivity.
    + exists st; repeat split; try assumption; try discriminate.
      destruct self; cbn in *; subst; reflexivity.
  - unfold bind, read, attr, evaluated, pure, assign, ret.
    destruct (highest_order self) as [h|] eqn:Hh; [|discriminate].
    intros E.
    assert (G : exists st, self' = set_statistics_object (Some st) self
                /\ coefficients self = Some (stat_coefficients st)
                /\ stat_basis st = basis self
                /\ stat_parameters st = parameters self
                /\ stat_max_sobol_order st = Z.min h MAXIMUM_ORDER_FOR_STATS).
    { exec E; injection E as <-; (eexists; split; [reflexivity|]); cbn;
        repeat split;
        repeat match goal with
               | H : (_ <=? _)%Z = true |- _ => apply Z.leb_le in H
               | H : (_ <=? _)%Z = false |- _ => apply Z.leb_gt in H
               end; unfold MAXIMUM_ORDER_FOR_STATS in *; try lia.
      all: destruct (Z.leb_spec h 8); lia. }
    destruct G as (st & -> & G); split.
    + reflexivity.
    + exists st; split; [reflexivity|]; split; [reflexivity|].
      split; [intros C; contradiction|].
      intros _; exists h; auto.
Qed.

End StatisticsFacts.

Section ConstructionFacts.
Context {F : Scalar} {X : Externals}.

(** Without a method the constructor prints its warning and stops: the
    sampling arguments are not read, no mesh is set and no solver, design
    or quadrature is built; every later [set_model] raises an
    AttributeError and leaves the object as it is. *)
Theorem construction_without_method (params : parameters_arg) (basis0 : Basis)
    (args : option sampling_args_t) (solver_args0 : option solver_args_t) :
  let self0 := initial_attributes params basis0 None args solver_args0 in
  parameters_order self0 <> [] ->
  exists hi,
    np.max (parameters_order self0) = Ok hi
    /\ let self := set_stdout ["WARNING: Method not declared."%string]
                     (set_highest_order (Some hi) self0) in
       __init__ params basis0 None args solver_args0 = Returns tt self
       /\ inputs self = None /\ outputs self = None /\ mesh self = None
       /\ solver self = None /\ quadrature self = None
       /\ _quadrature_points self = None
       /\ _set_points_and_weights self = Raises AttributeError self
       /\ (forall fuel model model_grads,
             set_model (S fuel) model model_grads self = Raises AttributeError self).
Proof.
  intros self0 Hne.
  destruct (parameters_order self0) as [|o os] eqn:E; [contradiction|].
  eexists; split; [reflexivity|]; cbv zeta.
  split.
  { unfold __init__; fold self0.
    change (map order match params with
                      | OneParameter p => [p]
                      | Parameters ps => ps
                      end) with (parameters_order self0).
    rewrite E; reflexivity. }
  do 6 (split; [reflexivity|]).
  split; [reflexivity|].
  intros fuel [[f|y]|] g; reflexivity.
Qed.

Lemma fold_max_bounds (l : list Z) (a : Z) :
  (a <= fold_left Z.max l a)%Z
  /\ (forall z, In z l -> (z <= fold_left Z.max l a)%Z)
  /\ (fold_left Z.max l a = a \/ In (fold_left Z.max l a) l).
Proof.
  revert a; induction l as [|x l IH]; intros a; cbn.
  - split; [lia|split; [intros z []|left; reflexivity]].
  - destruct (IH (Z.max a x)) as (H1 & H2 & H3).
    split; [lia|split].
    + intros z [<-|Hz]; [lia|apply H2; exact Hz].
    + destruct H3 as [E|Hin]; [|right; right; exact Hin].
      rewrite E; destruct (Z.max_spec a x) as [[_ ->]|[_ ->]]; auto.
Qed.

(** The constructor with a list of parameters: without parameters it raises
    a ValueError at the highest order, before it looks at the method, and
    nothing of the design is set; with parameters it gets past that line,
    and however it ends the highest order is the largest of the orders of
    the parameters, the number of dimensions is the number of parameters and
    the orders are theirs, in their order. *)
Theorem construction_highest_order (ps : list Param) (basis0 : Basis)
    (method0 : option string) (args : option sampling_args_t)
    (solver_args0 : option solver_args_t) :
  let self0 := initial_attributes (Parameters ps) basis0 method0 args solver_args0 in
  let settled self :=
    exists hi,
      highest_order self = Some hi
      /\ (forall p, In p ps -> (order p <= hi)%Z)
      /\ (exists p, In p ps /\ order p = hi)
      /\ dimensions self = length ps
      /\ parameters_order self = map order ps
      /\ self_orders self = map order ps in
  match __init__ (Parameters ps) basis0 method0 args solver_args0 with
  | Returns _ self => settled self
  | Raises e self => (ps = [] /\ e = ValueError /\ self = self0) \/ settled self
  | OutOfFuel => False
  end.
Proof.
  intros self0 settled.
  destruct ps as [|p ps]; [left; auto|].
  set (hi := fold_left Z.max (map order ps) (order p)).
  assert (Hs : forall self,
             highest_order self = Some hi /\ dimensions self = length (p :: ps)
             /\ parameters_order self = map order (p :: ps)
             /\ self_orders self = map order (p :: ps) ->
             settled self).
  { intros self (H1 & H2 & H3 & H4); exists hi.
    destruct (fold_max_bounds (map order ps) (order p)) as (B1 & B2 & B3).
    fold hi in B1, B2, B3.
    split; [exact H1|split; [|split; [|auto]]].
    - intros q [<-|Hq]; [exact B1|].
      apply B2, in_map; exact Hq.
    - destruct B3 as [E|Hin].
      + exists p; split; [left; reflexivity|symmetry; exact E].
      + apply in_map_iff in Hin; destruct Hin as (q & E & Hq).
        exists q; split; [right; exact Hq|exact E]. }
  set (I := fun self => highest_order self = Some hi
                         /\ dimensions self = length (p :: ps)
                         /\ parameters_order self = map order (p :: ps)
                         /\ self_orders self = map order (p :: ps)).
  set (K := match method0 with
            | Some _ =>
                (mesh_of_method ;;; override_defaults ;;; _set_solver ;;;
                 _set_subsampling_algorithm ;;; _set_points_and_weights)%py
            | None => print "WARNING: Method not declared."
            end).
  assert (E : __init__ (Parameters (p :: ps)) basis0 method0 args solver_args0
              = K (set_highest_order (Some hi) self0)) by reflexivity.
  rewrite E; clear E.
  assert (HI : I (set_highest_order (Some hi) self0)) by (unfold I; cbn; auto).
  assert (H : ends I K).
  { unfold I, K; destruct method0 as [m|].
    - unfold mesh_of_method, override_defaults, _set_subsampling_algorithm; settle.
      + apply _set_solver_ends; auto.
      + apply _set_points_and_weights_ends; auto.
    - settle. }
  specialize (H _ HI).
  destruct (K (set_highest_order (Some hi) self0)) as [[] self|e self|];
    [apply Hs; exact H|right; apply Hs; exact H|exact H].
Qed.

End ConstructionFacts.

Section GradientFit.
Context {F : Scalar} {X : Externals}.

(** [set_model] with evaluations and a matrix of gradients, gradients asked
    for and a mesh other than a sparse grid: the gradients are flattened
    and weighted, the blocks of the weighted derivatives of the basis are
    stacked under the weighted basis matrix for the rank alone, and the
    solver is handed the basis matrix, the weighted evaluations, the blocks
    and the flattened gradients.  The rank and the number of unknowns are
    printed, and the warning when the rank is below that number. *)
Theorem set_model_fits_gradients (fuel : nat) (self : Poly)
    (y g : ndarray flt) (me : string) (sv : solver_fn)
    (pts : ndarray flt) (w : list flt) (P A b C G : ndarray flt)
    (dP : derivative_tables) :
  _quadrature_points self = Some pts ->
  _quadrature_weights self = Some w ->
  mesh self = Some me ->
  String.eqb me "sparse-grid" = false ->
  solver self = Some sv ->
  gradient_flag self = 1 ->
  shape0 y = shape0 pts ->
  shape1 y = 1 ->
  np.argwhere_isnan_rows y = [] ->
  shape0 g <= length w ->
  well_shaped g ->
  fst (get_poly (parameters self) (basis self) pts None) = Ok P ->
  weighted_basis P w = Ok A ->
  np.dot (np.diag (map fsqrt w)) y = Ok b ->
  fst (get_poly_grad (parameters self) (basis self) pts None) = Ok dP ->
  cell2matrix dP (np.diag (map fsqrt w)) = Ok C ->
  np.vstack A C = Ok G ->
  let d := mk_nd 1 (map (fun ji => [weighted_gradient w g ji])
                        (list_prod (seq 0 (shape1 g)) (seq 0 (shape0 g)))) in
  let r := matrix_rank G in
  let n := shape1 A in
  exists self',
    set_model (S (S fuel)) (Some (Evaluations y)) (Some (GradEvaluations g)) self
    = Returns tt self'
    /\ _model_evaluations self' = Some y
    /\ _gradient_evaluations self' = Some d
    /\ statistics_object self' = None
    /\ coefficients self' = Some (sv A b (Some (C, d)))
    /\ stdout self'
       = stdout self ++ [rank_notice r; unknowns_notice n]
                     ++ (if (r <? Z.of_nat n)%Z then [samples_warning] else [])
    /\ shape0 G = shape0 A + shape0 C.
Proof.
  intros Hp Hw Hm Hne Hs Hg Hy0 Hy1 Hclean Hgw Hgs HP HA Hb HdP HC HG d r n.
  pose proof (@gradient_evaluations_flat _ g
                (set__model_evaluations (Some y) self) w Hw Hgw Hgs) as Hflat.
  fold d in Hflat.
  assert (Ha : attach_model (Some (Evaluations y)) (Some (GradEvaluations g)) self
               = Returns tt (set__gradient_evaluations (Some d)
                               (set__model_evaluations (Some y) self))).
  { unfold attach_model; unfold bind at 1, read at 1.
    assert (E : forall k : ndarray flt -> M unit,
               bind (bind (attr _quadrature_points)
                          (fun points => if shape0 y =? shape0 points then ret y
                                         else raise AssertionError)) k self
               = k y self).
    { intros k; unfold bind, attr; rewrite Hp, Hy0, Nat.eqb_refl; reflexivity. }
    destruct (outputs self); rewrite E; rewrite Hy1; cbn [Nat.eqb];
      unfold bind at 1, ret at 1, bind at 1, assign at 1, bind at 1, read at 1;
      cbn [gradient_flag set__model_evaluations]; rewrite Hg; cbn [Nat.eqb];
      unfold bind at 1, ret at 1; exact Hflat. }
  rewrite set_model_S; unfold bind at 1; rewrite Ha; unfold bind at 1, assign.
  set (s2 := set_statistics_object None _).
  rewrite (@_set_coefficients_clean _ _ fuel s2 y); [|reflexivity|exact Hclean].
  unfold solve_coefficients, bind, attr, read, evaluated, pure, assign, print.
  subst s2; unfold weighted_basis in HA.
  cbn [mesh set_statistics_object set__gradient_evaluations set__model_evaluations].
  rewrite Hm, Hne.
  cbn [set_statistics_object set__gradient_evaluations set__model_evaluations
       parameters basis _quadrature_points].
  rewrite Hp, HP.
  cbn [set_statistics_object set__gradient_evaluations set__model_evaluations
       _quadrature_weights].
  rewrite Hw, HA.
  cbn [set_statistics_object set__gradient_evaluations set__model_evaluations
       _model_evaluations].
  rewrite Hb.
  cbn [set_statistics_object set__gradient_evaluations set__model_evaluations
       gradient_flag].
  rewrite Hg; cbn [Nat.eqb].
  rewrite HdP, HC, HG; fold r n.
  assert (H0 : shape0 G = shape0 A + shape0 C).
  { unfold np.vstack in HG; destruct (shape1 A =? shape1 C); [|discriminate].
    injection HG as <-; unfold shape0; cbn; apply length_app. }
  unfold assign, ret.
  destruct (r <? Z.of_nat n)%Z;
    cbn [set_statistics_object set__gradient_evaluations set__model_evaluations
         set_stdout solver _gradient_evaluations];
    rewrite Hs;
    (eexists; split; [reflexivity|]);
    cbn [set_statistics_object set__gradient_evaluations set__model_evaluations
         set_stdout set_coefficients _model_evaluations _gradient_evaluations
         statistics_object coefficients stdout];
    unfold rank_notice, unknowns_notice, samples_warning;
    rewrite <- ?app_assoc; cbn [app];
    repeat split; try reflexivity; exact H0.
Qed.

End GradientFit.

Section Polyfit.
Context {F : Scalar} {X : Externals}.

Lemma dot_shape (a b r : ndarray flt) :
  np.dot a b = Ok r ->
  shape0 r = shape0 a /\ shape1 r = shape1 b /\ shape1 a = shape0 b.
Proof.
  unfold np.dot; destruct (shape1 a =? shape0 b) eqn:E; [|discriminate].
  intros H; injection H as <-; apply Nat.eqb_eq in E.
  unfold shape0 at 1; cbn [data shape1]; rewrite length_map; auto.
Qed.

Lemma transpose_shape {A} (a : ndarray A) :
  shape0 (np.transpose a) = shape1 a /\ shape1 (np.transpose a) = shape0 a.
Proof.
  unfold np.transpose, shape0 at 1; cbn [data shape1].
  rewrite length_map, length_seq; auto.
Qed.

Lemma reshape_column_ok {A} (a col : ndarray A) (n : nat) :
  np.reshape_column a n = Ok col ->
  length (concat (data a)) = n /\ shape0 col = n /\ shape1 col = 1.
Proof.
  unfold np.reshape_column; destruct (length (concat (data a)) =? n) eqn:E; [|discriminate].
  intros H; injection H as <-; apply Nat.eqb_eq in E.
  unfold shape0; cbn [data shape1]; rewrite length_map; auto.
Qed.

(** [get_polyfit] reads the object and leaves it as it is; the values come
    as a column, one row for each column of the basis evaluation, and there
    are as many coefficients as the basis evaluation has rows.  Past the
    univariate shortcut that is a row for every point, and the number of
    coefficients is the cardinality of the basis. *)
Theorem get_polyfit_shape (stack_of_points : ndarray flt) (self self' : Poly)
    (values : ndarray flt) :
  get_polyfit stack_of_points self = Returns values self' ->
  self' = self
  /\ shape1 values = 1
  /\ exists c P,
       coefficients self = Some c
       /\ fst (get_poly (parameters self) (basis self) stack_of_points None) = Ok P
       /\ length (concat (data c)) = shape0 c
       /\ shape0 P = shape0 c
       /\ shape0 values = shape1 P
       /\ (shape1 (elements (basis self)) <> 1 ->
           shape0 values = shape0 stack_of_points
           /\ shape0 c = cardinality (basis self)).
Proof.
  unfold get_polyfit, bind, attr, read, evaluated, pure.
  destruct (coefficients self) as [c|]; [|discriminate].
  destruct (fst (get_poly _ _ _ _)) as [P|] eqn:HP; [|discriminate].
  destruct (np.reshape_column c (shape0 c)) as [col|] eqn:Hc; [|discriminate].
  destruct (np.dot (np.transpose P) col) as [r|] eqn:Hd; [|discriminate].
  intros E; injection E as <- <-.
  apply reshape_column_ok in Hc; destruct Hc as (Hc1 & Hc2 & Hc3).
  apply dot_shape in Hd; destruct Hd as (Hd1 & Hd2 & Hd3).
  destruct (transpose_shape P) as (Ht1 & Ht2).
  split; [reflexivity|split; [congruence|]].
  exists c, P; do 5 (split; [congruence|]).
  intros Hd; apply Nat.eqb_neq in Hd.
  unfold get_poly in HP; rewrite Hd in HP.
  apply lbind_ok in HP; destruct HP as (p & _ & HP & _).
  eapply product_of_tables_shape in HP; [|apply full_shape].
  destruct HP as (E0 & E1 & _); unfold cardinality; split; congruence.
Qed.

End Polyfit.

(** ** Examples *)

Section LineExamples.
Import Examples.
#[local] Existing Instance Demo.ZFloat.
#[local] Existing Instance line_externals.

Lemma demo_prune_cardinality (design : string -> Quadrature_t) (z : Z) (b : Basis) :
  (0 <= z <= Z.of_nat (cardinality b))%Z ->
  Z.of_nat (cardinality (@prune _ (Demo.externals design) z b))
  = (Z.of_nat (cardinality b) - z)%Z.
Proof.
  intros H; unfold cardinality, shape0 in *; cbn.
  rewrite length_firstn; unfold cardinality, shape0; lia.
Qed.

(** C3, as stated, fails: of the four evaluations one is not a number, and
    the basis of the line has three terms, more than the 4 - 1 - 1 the claim
    allows after the recovery; three terms are no more than the three
    evaluations left, so the basis is not pruned and keeps its three terms. *)
Lemma nan_recovery_counterexample :
  _model_evaluations with_one_nan = Some one_nan_outputs
  /\ np.argwhere_isnan_rows one_nan_outputs = [1]
  /\ dimensions with_one_nan = 1
  /\ cardinality (basis with_one_nan) = 3
  /\ returned (_set_coefficients 3 None with_one_nan) = true
  /\ _quadrature_points recovered = Some (column [0; 2; 3]%Z)
  /\ outputs recovered = Some (column [1; 5; 7]%Z)
  /\ cardinality (basis recovered) = 3
  /\ ~ cardinality (basis recovered) <= 4 - 1 - dimensions with_one_nan.
Proof.
  split; [vm_compute; reflexivity|].
  split; [vm_compute; reflexivity|].
  split; [vm_compute; reflexivity|].
  split; [vm_compute; reflexivity|].
  split; [vm_compute; reflexivity|].
  split; [vm_compute; reflexivity|].
  split; [vm_compute; reflexivity|].
  split; [vm_compute; reflexivity|].
  vm_compute; lia.
Qed.

Lemma nan_recovery_witness :
  _model_evaluations with_nan = Some nan_outputs
  /\ gradient_flag with_nan = 0
  /\ exists self',
       _set_coefficients 3 None with_nan = Returns tt self'
       /\ _quadrature_points self' = Some (column [0; 3]%Z)
       /\ outputs self' = Some (column [1; 7]%Z)
       /\ cardinality (basis self') = 1
       /\ coefficients self' = Some (column [8]%Z).
Proof.
  assert (Hy : _model_evaluations with_nan = Some nan_outputs)
    by (vm_compute; reflexivity).
  assert (Hg : gradient_flag with_nan = 0) by (vm_compute; reflexivity).
  split; [exact Hy|split; [exact Hg|]].
  destruct (@nan_recovery _ _ 0 with_nan nan_outputs (column [0; 1; 2; 3]%Z)
              (mk_nd 2 [[Some 1; Some 1]]%Z) (column [1; 1]%Z) (column [1; 7]%Z) Hy)
    as (self' & E & _ & Hp & _ & _ & Ho & _ & _ & _ & _ & _ & _ & _ & _ & _ & _ & Hc & Hs);
    [vm_compute; reflexivity
    |vm_compute; repeat constructor
    |vm_compute; reflexivity
    |vm_compute; reflexivity
    |exact Hg
    |vm_compute; lia
    |vm_compute; reflexivity
    |intros z Hz; apply demo_prune_cardinality; exact Hz
    |vm_compute; reflexivity
    |vm_compute; reflexivity
    |vm_compute; reflexivity
    |].
  exists self'; split; [exact E|].
  split; [rewrite Hp; vm_compute; reflexivity|].
  split; [rewrite Ho; vm_compute; reflexivity|].
  split; [rewrite Hc; vm_compute; [reflexivity|lia|lia]|].
  rewrite Hs; vm_compute; reflexivity.
Defined.

Lemma set_model_clears_statistics_witness :
  option_map stat_max_sobol_order (statistics_object with_statistics) = Some 2%Z
  /\ exists self',
       set_model 4 (Some (Callable identity_model)) None with_statistics
       = Returns tt self'
       /\ statistics_object self' = None.
Proof.
  split; [vm_compute; reflexivity|].
  assert (R : returned (set_model 4 (Some (Callable identity_model)) None
                                  with_statistics) = true)
    by (vm_compute; reflexivity).
  destruct (set_model 4 (Some (Callable identity_model)) None with_statistics)
    as [[] self'|e self'|] eqn:E; try discriminate R.
  exists self'; split; [reflexivity|].
  exact (set_model_clears_statistics 4 (Some (Callable identity_model)) None
           with_statistics E).
Defined.

Lemma nan_recovery_needs_gradients_witness :
  _model_evaluations gradient_nan = Some nan_outputs
  /\ gradient_flag gradient_nan = 1
  /\ exists e self',
       _set_coefficients 2 None gradient_nan = Raises e self'
       /\ gradient_flag self' = 1
       /\ coefficients self' = coefficients gradient_nan.
Proof.
  assert (Hy : _model_evaluations gradient_nan = Some nan_outputs)
    by (vm_compute; reflexivity).
  assert (Hg : gradient_flag gradient_nan = 1) by (vm_compute; reflexivity).
  split; [exact Hy|split; [exact Hg|]].
  apply (@nan_recovery_needs_gradients _ _ 0 gradient_nan nan_outputs Hy);
    [vm_compute; discriminate|exact Hg].
Defined.

Lemma univariate_gradient_fit_raises_witness :
  gradient_flag constructed_with_outputs = 1
  /\ shape1 (elements (basis constructed_with_outputs)) = 1
  /\ exists e self',
       set_model 3 None None constructed_with_outputs = Raises e self'
       /\ coefficients self' = coefficients constructed_with_outputs.
Proof.
  assert (Hg : gradient_flag constructed_with_outputs = 1) by (vm_compute; reflexivity).
  assert (Hd : shape1 (elements (basis constructed_with_outputs)) = 1)
    by (vm_compute; reflexivity).
  split; [exact Hg|split; [exact Hd|]].
  apply (@univariate_gradient_fit_raises _ _ 0 None None constructed_with_outputs Hg Hd).
  vm_compute; discriminate.
Defined.

Lemma set_model_fits_callable_witness :
  _quadrature_points constructed = Some (column [0; 1; 2; 3]%Z)
  /\ gradient_flag constructed = 0
  /\ exists self',
       set_model 2 (Some (Callable identity_model)) None constructed
       = Returns tt self'
       /\ _model_evaluations self' = Some (column [0; 1; 2; 3]%Z)
       /\ coefficients self' = Some (column [6; 14; 36]%Z).
Proof.
  assert (Hp : _quadrature_points constructed = Some (column [0; 1; 2; 3]%Z))
    by (vm_compute; reflexivity).
  assert (Hg : gradient_flag constructed = 0) by (vm_compute; reflexivity).
  split; [exact Hp|split; [exact Hg|]].
  destruct (@set_model_fits_callable _ _ 0 identity_model None constructed
              "tensor-grid" Demo.projection (column [0; 1; 2; 3]%Z)
              [Some 1; Some 1; Some 1; Some 1]%Z
              (mk_nd 4 [[Some 1; Some 1; Some 1; Some 1];
                        [Some 0; Some 1; Some 2; Some 3];
                        [Some 0; Some 1; Some 4; Some 9]]%Z)
              (mk_nd 3 [[Some 1; Some 0; Some 0]; [Some 1; Some 1; Some 1];
                        [Some 1; Some 2; Some 4]; [Some 1; Some 3; Some 9]]%Z)
              (column [0; 1; 2; 3]%Z) Hp)
    as (E & _);
    [vm_compute; reflexivity
    |vm_compute; reflexivity
    |vm_compute; reflexivity
    |vm_compute; reflexivity
    |exact Hg
    |vm_compute; repeat constructor
    |vm_compute; reflexivity
    |vm_compute; reflexivity
    |vm_compute; reflexivity
    |].
  eexists; split; [exact E|].
  split; [vm_compute; reflexivity|].
  cbn [coefficients set_coefficients]; f_equal; vm_compute; reflexivity.
Defined.

Lemma statistics_built_once_witness :
  statistics_object fitted = None
  /\ exists self',
       _set_statistics fitted = Returns tt self'
       /\ _set_statistics self' = Returns tt self'
       /\ option_map stat_coefficients (statistics_object self')
          = coefficients fitted.
Proof.
  assert (Hn : statistics_object fitted = None) by (vm_compute; reflexivity).
  split; [exact Hn|].
  assert (R : returned (_set_statistics fitted) = true) by (vm_compute; reflexivity).
  destruct (_set_statistics fitted) as [[] self'|e self'|] eqn:E; try discriminate R.
  exists self'; split; [reflexivity|].
  destruct (@statistics_built_once _ _ _ _ E) as (Hagain & st & Hst & _ & _ & Hnew).
  split; [exact Hagain|].
  destruct (Hnew Hn) as (h & _ & Hc & _).
  rewrite Hst, Hc; reflexivity.
Defined.

Lemma construction_without_method_witness :
  parameters_order
    (initial_attributes (Parameters [Demo.monomial 2]) unset_basis None
       (Some mesh_and_points) None) <> []
  /\ exists self,
       __init__ (Parameters [Demo.monomial 2]) unset_basis None
                (Some mesh_and_points) None = Returns tt self
       /\ inputs self = None
       /\ mesh self = None
       /\ set_model 1 (Some (Callable identity_model)) None self
          = Raises AttributeError self.
Proof.
  assert (H : parameters_order
                (initial_attributes (Parameters [Demo.monomial 2]) unset_basis None
                   (Some mesh_and_points) None) <> [])
    by (vm_compute; discriminate).
  split; [exact H|].
  destruct (construction_without_method (Parameters [Demo.monomial 2]) unset_basis
              (Some mesh_and_points) None H)
    as (hi & _ & E & Hi & _ & Hm & _ & _ & _ & _ & Hs).
  eexists; split; [exact E|].
  split; [exact Hi|split; [exact Hm|apply Hs]].
Defined.

Lemma get_polyfit_shape_witness :
  exists values self',
    get_polyfit (column [0; 1]%Z) fitted = Returns values self'
    /\ self' = fitted
    /\ shape1 values = 1.
Proof.
  assert (R : returned (get_polyfit (column [0; 1]%Z) fitted) = true)
    by (vm_compute; reflexivity).
  destruct (get_polyfit (column [0; 1]%Z) fitted) as [values self'|e self'|] eqn:E;
    try discriminate R.
  exists values, self'; split; [reflexivity|].
  destruct (@get_polyfit_shape _ _ _ _ _ E) as (Hs & H1 & _).
  split; [exact Hs|exact H1].
Defined.

End LineExamples.

Section TableExamples.
Import Examples.
#[local] Existing Instance Demo.ZFloat.

Lemma get_poly_shape_witness :
  shape1 (elements plane_basis) <> 1
  /\ exists P,
       fst (get_poly plane_parameters plane_basis plane_points None) = Ok P
       /\ shape0 P = 6 /\ shape1 P = 2 /\ well_shaped P.
Proof.
  assert (Hd : shape1 (elements plane_basis) <> 1) by (vm_compute; lia).
  split; [exact Hd|].
  assert (E : fst (get_poly plane_parameters plane_basis plane_points None)
              = Ok (array 2 [[1; 1]; [2; 4]; [4; 16]; [1; 3]; [2; 12]; [4; 48]]%Z))
    by (reflexivity).
  eexists; split; [exact E|].
  exact (@get_poly_shape _ plane_parameters plane_basis plane_points None _ Hd E).
Defined.

Lemma get_poly_grad_directions_witness :
  shape1 (elements plane_basis) <> 1
  /\ exists l,
       fst (get_poly_grad plane_parameters plane_basis plane_points (Some [1]))
       = Ok (PerDirection l)
       /\ length l = 2
       /\ nth_error l 0 = Some (np.full f0 6 2).
Proof.
  assert (Hd : shape1 (elements plane_basis) <> 1) by (vm_compute; lia).
  split; [exact Hd|].
  assert (E : fst (get_poly_grad plane_parameters plane_basis plane_points (Some [1]))
              = Ok (PerDirection
                      [array 2 [[0; 0]; [0; 0]; [0; 0]; [0; 0]; [0; 0]; [0; 0]]%Z;
                       array 2 [[0; 0]; [1; 1]; [4; 8]; [0; 0]; [1; 3]; [4; 24]]%Z]))
    by (reflexivity).
  destruct (@get_poly_grad_directions _ plane_parameters plane_basis plane_points
              (Some [1]) _ Hd E) as (l & Hl & Hlen & _ & Hz).
  exists l; split; [rewrite E, Hl; reflexivity|split; [exact Hlen|]].
  apply (Hz 0 [1] eq_refl); [vm_compute; lia|].
  intros [H|[]]; discriminate H.
Defined.

Lemma get_poly_hess_symmetric_witness :
  shape1 (elements plane_basis) <> 1
  /\ exists l,
       fst (get_poly_hess plane_parameters plane_basis plane_points)
       = Ok (PerDirection l)
       /\ length l = 4
       /\ nth_error l 1 = nth_error l 2.
Proof.
  assert (Hd : shape1 (elements plane_basis) <> 1) by (vm_compute; lia).
  split; [exact Hd|].
  assert (E : fst (get_poly_hess plane_parameters plane_basis plane_points)
              = Ok (PerDirection
                      [array 2 [[0; 0]; [0; 0]; [0; 0]; [0; 0]; [0; 0]; [0; 0]]%Z;
                       array 2 [[0; 0]; [0; 0]; [0; 0]; [0; 0]; [1; 1]; [4; 8]]%Z;
                       array 2 [[0; 0]; [0; 0]; [0; 0]; [0; 0]; [1; 1]; [4; 8]]%Z;
                       array 2 [[0; 0]; [0; 0]; [2; 2]; [0; 0]; [0; 0]; [2; 6]]%Z]))
    by (reflexivity).
  destruct (@get_poly_hess_symmetric _ plane_parameters plane_basis plane_points _ Hd E)
    as (l & Hl & Hlen & _ & Hs).
  exists l; split; [rewrite E, Hl; reflexivity|split; [exact Hlen|]].
  apply (Hs 0 1); vm_compute; lia.
Defined.

Lemma cell2matrix_blocks_witness :
  exists C,
    cell2matrix (PerDirection plane_gradient_tables) (np.diag [f1; f1]) = Ok C
    /\ shape0 C = 4 /\ shape1 C = 6 /\ well_shaped C.
Proof.
  assert (E : cell2matrix (PerDirection plane_gradient_tables) (np.diag [f1; f1])
              = Ok (array 6 [[0; 0; 0; 1; 2; 4]; [0; 0; 0; 1; 4; 16];
                             [0; 1; 4; 0; 1; 4]; [0; 1; 8; 0; 3; 24]]%Z))
    by (reflexivity).
  eexists; split; [exact E|].
  destruct (@cell2matrix_blocks _ plane_gradient_tables (np.diag [f1; f1])
              (array 2 [[0; 0]; [0; 0]; [0; 0]; [1; 1]; [2; 4]; [4; 16]]%Z) _
              eq_refl E) as (H0 & H1 & Hw & _).
  split; [exact H0|split; [exact H1|exact Hw]].
Defined.

End TableExamples.

Section PlaneExamplesFacts.
Import PlaneExamples.
#[local] Existing Instance Demo.ZFloat.
#[local] Existing Instance plane_externals.

Lemma evaluate_model_gradients_shape_witness :
  exists g,
    evaluate_model_gradients grid model_grads = Ok g
    /\ shape0 g = 4 /\ shape1 g = 2 /\ well_shaped g.
Proof.
  exists gradients.
  assert (E : evaluate_model_gradients grid model_grads = Ok gradients)
    by (reflexivity).
  split; [exact E|].
  destruct (@evaluate_model_gradients_shape _ _ _ _ E) as (first & Hf & H0 & H1 & Hw & _).
  split; [exact H0|split; [|exact Hw]].
  rewrite H1; injection Hf as <-; reflexivity.
Defined.

Lemma gradient_evaluations_flattened_witness :
  _quadrature_weights constructed = Some [f1; f1; f1; f1]
  /\ set_gradient_evaluations gradients constructed
     = Returns tt
         (set__gradient_evaluations
            (Some (Examples.column [1; 1; 1; 1; 2; 2; 2; 2]%Z)) constructed).
Proof.
  assert (Hw : _quadrature_weights constructed = Some [f1; f1; f1; f1])
    by (reflexivity).
  split; [exact Hw|].
  destruct (@gradient_evaluations_flattened _ gradients constructed [f1; f1; f1; f1] Hw)
    as (E & _); [vm_compute; lia|vm_compute; repeat constructor|].
  rewrite E; apply f_equal.
  apply (f_equal (fun v => set__gradient_evaluations v constructed)).
  reflexivity.
Defined.

Lemma set_model_fits_gradients_witness :
  gradient_flag constructed = 1
  /\ exists self',
       set_model 2 (Some (Evaluations evaluations)) (Some (GradEvaluations gradients))
                 constructed = Returns tt self'
       /\ _gradient_evaluations self'
          = Some (Examples.column [1; 1; 1; 1; 2; 2; 2; 2]%Z)
       /\ coefficients self' = Some (Examples.column [6; 5; 4; 3]%Z)
       /\ stdout self' = [rank_notice 4; unknowns_notice 4].
Proof.
  assert (Hg : gradient_flag constructed = 1) by (reflexivity).
  split; [exact Hg|].
  destruct (@set_model_fits_gradients _ _ 0 constructed evaluations gradients
              "tensor-grid" Demo.projection grid [f1; f1; f1; f1]
              (Examples.array 4 [[1; 1; 1; 1]; [0; 1; 0; 1]; [0; 0; 1; 1]; [0; 0; 0; 1]]%Z)
              (Examples.array 4 [[1; 0; 0; 0]; [1; 1; 0; 0]; [1; 0; 1; 0]; [1; 1; 1; 1]]%Z)
              (Examples.column [0; 2; 1; 3]%Z)
              (Examples.array 4 [[0; 0; 1; 0]; [0; 0; 1; 1]; [0; 0; 1; 0]; [0; 0; 1; 1];
                                 [0; 1; 0; 0]; [0; 1; 0; 0]; [0; 1; 0; 1]; [0; 1; 0; 1]]%Z)
              (Examples.array 4 [[1; 0; 0; 0]; [1; 1; 0; 0]; [1; 0; 1; 0]; [1; 1; 1; 1];
                                 [0; 0; 1; 0]; [0; 0; 1; 1]; [0; 0; 1; 0]; [0; 0; 1; 1];
                                 [0; 1; 0; 0]; [0; 1; 0; 0]; [0; 1; 0; 1]; [0; 1; 0; 1]]%Z)
              (PerDirection
                 [Examples.array 4 [[0; 0; 0; 0]; [0; 0; 0; 0]; [1; 1; 1; 1]; [0; 1; 0; 1]]%Z;
                  Examples.array 4 [[0; 0; 0; 0]; [1; 1; 1; 1]; [0; 0; 0; 0]; [0; 0; 1; 1]]%Z]))
    as (self' & E & _ & Hd & _ & Hc & Hout & _);
    [reflexivity
    |reflexivity
    |reflexivity
    |reflexivity
    |reflexivity
    |exact Hg
    |reflexivity
    |reflexivity
    |reflexivity
    |vm_compute; lia
    |vm_compute; repeat constructor
    |reflexivity
    |reflexivity
    |reflexivity
    |reflexivity
    |reflexivity
    |reflexivity
    |].
  exists self'; split; [exact E|].
  split; [rewrite Hd; reflexivity|].
  split; [rewrite Hc; reflexivity|].
  rewrite Hout; reflexivity.
Defined.

End PlaneExamplesFacts.
